(** * Voice AI assistant: retrieval tools, index builder and agent graph

    A shallow embedding of the retrieval-augmented conversation core of the
    repository: [src/services/sop_service.py], [src/tools/search_sop.py],
    [scripts/create_sop_index.py], [src/agent/prompts.py],
    [src/agent/graph.py], [src/agent/state.py] and the session registry
    and chat endpoints of [server.py].

    Conventions of the embedding.
    - A Python [str] is a Rocq [string]; one [ascii] stands for one
      character, so the model covers text in the 8-bit range.
    - A Python exception is a value of [Exn]; code that may raise returns a
      [Result].  Only [Exception] subclasses are modelled (what
      [except Exception] catches).
    - Third-party collaborators (the FAISS store, the chat model, LangGraph's
      prebuilt tool executor, the embedding client) are oracles supplied in a
      world record; their calls are recorded where a property speaks about
      them.
    - LangGraph itself is followed where the program's behaviour rests on
      it: the executor with its step limit ([run_from]) and the reducer of
      the messages channel ([add_messages]).  A message id is a number; a
      fresh number stands for a new UUID. *)

From Stdlib Require Import ZArith QArith String Ascii List Lia Bool.
From Stdlib Require Import DecimalString DecimalNat DecimalZ OrderedTypeEx.
From stdpp Require Import gmap strings list.

Local Open Scope string_scope.
Local Open Scope list_scope.
Close Scope Q_scope.

(** ** Python built-ins used by the source *)

Module Py.

Inductive Exn :=
| FileNotFoundError (msg : string)
| ValueError (msg : string)
| ZeroDivisionError (msg : string)
| GraphRecursionError (msg : string)
| RuntimeError (msg : string).

(** [str(e)] *)
Definition exn_str (e : Exn) : string :=
  match e with
  | FileNotFoundError m | ValueError m | ZeroDivisionError m
  | GraphRecursionError m | RuntimeError m => m
  end.

Inductive Result (A : Type) :=
| Ok (a : A)
| Raise (e : Exn).
Arguments Ok {A} a.
Arguments Raise {A} e.

(** The line feed and the double quote, as one-character strings. *)
Definition nl : string := String (ascii_of_nat 10) EmptyString.
Definition dq : string := String (ascii_of_nat 34) EmptyString.

(** [str.isspace] on one character, for code points below 256:
    TAB, LF, VT, FF, CR, FS, GS, RS, US, SPACE, NEL and NBSP. *)
Definition isspace (c : ascii) : bool :=
  let n := nat_of_ascii c in
  (((9 <=? n) && (n <=? 13)) || ((28 <=? n) && (n <=? 32))
   || (n =? 133) || (n =? 160))%nat.

Fixpoint lstrip (s : string) : string :=
  match s with
  | String c s' => if isspace c then lstrip s' else s
  | EmptyString => EmptyString
  end.

(** [rstrip] drops the trailing run of white space: a space character is
    kept exactly when something that survives follows it. *)
Fixpoint rstrip (s : string) : string :=
  match s with
  | String c s' =>
      match rstrip s' with
      | EmptyString => if isspace c then EmptyString else String c EmptyString
      | r => String c r
      end
  | EmptyString => EmptyString
  end.

(** [s.strip()] *)
Definition strip (s : string) : string := rstrip (lstrip s).

(** [c.lower()] on the ASCII range; Latin-1 capitals (192..222 except the
    multiplication sign 215) move by 32 as well. *)
Definition lower_char (c : ascii) : ascii :=
  let n := nat_of_ascii c in
  if (((65 <=? n) && (n <=? 90))
      || ((192 <=? n) && (n <=? 222) && negb (n =? 215)))%nat
  then ascii_of_nat (n + 32) else c.

Fixpoint lower (s : string) : string :=
  match s with
  | String c s' => String (lower_char c) (lower s')
  | EmptyString => EmptyString
  end.

(** [len(s.split())]: the number of maximal runs of non-space characters.
    [inword] tells whether the previous character belonged to a word. *)
Fixpoint count_words (inword : bool) (s : string) : nat :=
  match s with
  | String c s' =>
      if isspace c then count_words false s'
      else (if inword then 0 else 1) + count_words true s'
  | EmptyString => 0
  end.

Definition split_len (s : string) : nat := count_words false s.

(** [sep.join(parts)] *)
Fixpoint join (sep : string) (parts : list string) : string :=
  match parts with
  | [] => ""
  | [p] => p
  | p :: rest => p +:+ sep +:+ join sep rest
  end.

(** [str(n)] for a non-negative integer. *)
Definition str_nat (n : nat) : string :=
  NilEmpty.string_of_uint (Nat.to_uint n).

(** [str(z)] for an integer. *)
Definition str_Z (z : Z) : string :=
  NilZero.string_of_int (Z.to_int z).

Fixpoint zeros (k : nat) : string :=
  match k with
  | O => ""
  | S k' => String "0" (zeros k')
  end.

(** [f"{n:0Wd}"] for a non-negative [n]: decimal digits, padded on the left
    with zeros up to width [W], never truncated. *)
Definition format_0d (width n : nat) : string :=
  let s := str_nat n in
  zeros (width - String.length s) +:+ s.

(** [a or b] where [a] is an optional integer: [None] and [0] are falsy. *)
Definition or_int (a : option Z) (b : Z) : Z :=
  match a with
  | Some z => if (z =? 0)%Z then b else z
  | None => b
  end.

(** [enumerate(l, start)] *)
Fixpoint enumerate {A} (start : nat) (l : list A) : list (nat * A) :=
  match l with
  | [] => []
  | x :: l' => (start, x) :: enumerate (S start) l'
  end.

(** State and exceptions: a computation reads and writes a state [S] and
    either returns or raises; a raise keeps the state reached so far. *)
Definition M (S A : Type) : Type := S -> Result A * S.

Definition ret {S A} (a : A) : M S A := fun s => (Ok a, s).

Definition bind {S A B} (m : M S A) (k : A -> M S B) : M S B :=
  fun s =>
    match m s with
    | (Ok a, s') => k a s'
    | (Raise e, s') => (Raise e, s')
    end.

Definition lift {S A} (r : Result A) : M S A := fun s => (r, s).

Notation "'let*' x ':=' m 'in' k" := (bind m (fun x => k))
  (at level 10, x name, m at level 100, k at level 200).

End Py.
Import Py.

(** ** LangChain documents *)

Module Doc.

(** Metadata values that occur in this code base: strings and integers. *)
Inductive MetaValue :=
| MStr (s : string)
| MInt (z : Z).

(** What an f-string renders for a metadata value. *)
Definition meta_str (v : MetaValue) : string :=
  match v with
  | MStr s => s
  | MInt z => str_Z z
  end.

Record Document := mkDocument {
  page_content : string;
  metadata : gmap string MetaValue
}.

End Doc.
Import Doc.

(** ** [src/services/sop_service.py] *)

Module SopService.

(** The value of an integer environment variable as [int(os.getenv(..))]
    sees it: absent, a well-formed integer, or text that [int] rejects. *)
Inductive EnvInt :=
| Unset
| Parsed (z : Z)
| Malformed (raw : string).

(** The loaded FAISS store.  A score is a floating-point number that this
    code only passes along; it is carried as a rational. *)
Record FAISS := mkFAISS {
  similarity_search_with_score :
    string -> Z -> Result (list (Document * Q))
}.

(** What the process finds around it: the two environment variables,
    the text of [project_root / d] and of [Path.cwd() / d] for a directory
    name [d], which paths exist, whether [index.faiss] exists under the
    index path, and what [FAISS.load_local] gives. *)
Record World := mkWorld {
  SOP_RETRIEVAL_TOP_K : EnvInt;
  FAISS_INDEX_DIR : string;
  under_project_root : string -> string;
  under_cwd : string -> string;
  path_exists : string -> bool;
  index_faiss_exists : bool;
  load_local : Result FAISS
}.

Record Config := mkConfig {
  faiss_index_dir : string;
  cfg_top_k : Z
}.

(** Module-level state: the singleton [_vectorstore], and a record of the
    searches sent to the store (query and [k]), oldest first. *)
Record Globals := mkGlobals {
  _vectorstore : option FAISS;
  store_calls : list (string * Z)
}.

(** Computations of this module run over the module-level state. *)
Definition SM (A : Type) : Type := M Globals A.

(** [repr(s)] of a text without quotes, backslashes or control
    characters: the text between single quotes. *)
Definition repr (s : string) : string := "'" +:+ s +:+ "'".

Definition get_config (w : World) : Result Config :=
  match SOP_RETRIEVAL_TOP_K w with
  | Unset => Ok (mkConfig (FAISS_INDEX_DIR w) 3)
  | Parsed z => Ok (mkConfig (FAISS_INDEX_DIR w) z)
  | Malformed raw =>
      Raise (ValueError
               ("invalid literal for int() with base 10: " +:+ repr raw))
  end.

(** The directory is looked for under the project root, then under the
    working directory; when it is in neither place the path under the
    project root is returned. *)
Definition get_index_path (w : World) : Result string :=
  match get_config w with
  | Ok config =>
      let index_path := under_project_root w (faiss_index_dir config) in
      if path_exists w index_path then Ok index_path
      else
        let cwd_path := under_cwd w (faiss_index_dir config) in
        if path_exists w cwd_path then Ok cwd_path else Ok index_path
  | Raise e => Raise e
  end.

Definition get_vectorstore (w : World) : SM FAISS :=
  fun g =>
    match _vectorstore g with
    | None =>
        match get_index_path w with
        | Raise e => (Raise e, g)
        | Ok index_path =>
            if negb (index_faiss_exists w) then
              (Raise (FileNotFoundError
                        ("FAISS index not found at: " +:+ index_path)), g)
            else
              match load_local w with
              | Raise e => (Raise e, g)
              | Ok vs => (Ok vs, mkGlobals (Some vs) (store_calls g))
              end
        end
    | Some vs => (Ok vs, g)
    end.

(** One search sent to the store. *)
Definition store_search (vs : FAISS) (query : string) (k : Z)
  : SM (list (Document * Q)) :=
  fun g =>
    (similarity_search_with_score vs query k,
     mkGlobals (_vectorstore g) (store_calls g ++ [(query, k)])).

(** [vectorstore.as_retriever(search_type="similarity",
    search_kwargs={"k": k})] *)
Record Retriever := mkRetriever {
  retriever_store : FAISS;
  search_kwargs_k : Z
}.

(** [retriever.invoke(query)]: the documents of a similarity search. *)
Definition retriever_invoke (r : Retriever) (query : string)
  : SM (list Document) :=
  let* scored :=
    store_search (retriever_store r) query (search_kwargs_k r) in
  ret (map fst scored).

Definition get_retriever (w : World) (top_k : option Z) : SM Retriever :=
  let* config := lift (get_config w) in
  let k := or_int top_k (cfg_top_k config) in
  let* vectorstore := get_vectorstore w in
  ret (mkRetriever vectorstore k).

Definition search_sop (w : World) (query : string) (top_k : option Z)
  : SM (list Document) :=
  let* retriever := get_retriever w top_k in
  retriever_invoke retriever query.

Definition search_sop_with_scores (w : World) (query : string)
    (top_k : option Z) : SM (list (Document * Q)) :=
  let* config := lift (get_config w) in
  let k := or_int top_k (cfg_top_k config) in
  let* vectorstore := get_vectorstore w in
  store_search vectorstore query k.

End SopService.
Import SopService.

(** ** [src/tools/search_sop.py] *)

Module SearchSop.

(** The text between two result blocks. *)
Definition separator : string := nl +:+ nl +:+ "---" +:+ nl +:+ nl.

Definition NO_RESULTS : string :=
  "No relevant procedures found for this query.".

(** One formatted result: [f"[{chunk_id}]\n{content}"]. *)
Definition result_block (i : nat) (doc : Document) : string :=
  let chunk_id :=
    match metadata doc !! "chunk_id" with
    | Some v => meta_str v
    | None => "result_" +:+ str_nat i
    end in
  let content := strip (page_content doc) in
  "[" +:+ chunk_id +:+ "]" +:+ nl +:+ content.

Definition search_sop_tool (w : World) (query : string) : SM string :=
  let* documents := search_sop w query None in
  match documents with
  | [] => ret NO_RESULTS
  | _ =>
      let results :=
        map (fun '(i, doc) => result_block i doc) (enumerate 1 documents) in
      ret (join separator results)
  end.

Definition topic_queries : gmap string string :=
  list_to_map
    [ ("greeting", "greeting caller opening phone answer");
      ("scheduling", "schedule new appointment booking");
      ("cancellation", "cancel appointment cancellation");
      ("reschedule", "reschedule change appointment");
      ("walk-in", "walk-in without appointment availability");
      ("directions", "directions location clinic address");
      ("wait times", "wait time current delay how long");
      ("late arrival", "late arrival 15 minute policy running late");
      ("online booking", "online website scheduling book appointment");
      ("closing", "closing end call goodbye hang up");
      ("hold", "hold waiting please hold");
      ("communication", "communication guidelines tone professional") ].

(** [topic_queries.get(topic.lower(), topic)] *)
Definition search_query (topic : string) : string :=
  default topic (topic_queries !! lower topic).

Definition get_procedure (w : World) (topic : string) : SM string :=
  let* documents := search_sop w (search_query topic) None in
  match documents with
  | [] => ret ("No procedure found for topic: " +:+ topic)
  | top_doc :: _ =>
      let content := strip (page_content top_doc) in
      ret ("Procedure for '" +:+ topic +:+ "':" +:+ nl +:+ nl +:+ content)
  end.

End SearchSop.
Import SearchSop.

(** ** [scripts/create_sop_index.py] *)

Module Indexer.

(** *** MetadataEnricher *)

Definition Qlt_bool (x y : Q) : bool := negb (Qle_bool y x).

(** [(i / total_chunks) * 100].  Python computes this in binary floating
    point; the model computes it exactly.  The two agree on both tests
    below for every chunk count a build can reach: the quotient of two
    integers that equals 1/5 or 4/5 is rounded to the double nearest 0.2
    or 0.8, whose product with 100 rounds to exactly 20.0 or 80.0, and any
    other quotient differs from these by at least [1 / (5 * total)], far
    more than the rounding error. *)
Definition position_pct (i total_chunks : nat) : Q :=
  (inject_Z (Z.of_nat i) / inject_Z (Z.of_nat total_chunks) * 100)%Q.

Definition position_of (i total_chunks : nat) : string :=
  let pct := position_pct i total_chunks in
  if Qlt_bool pct 20 then "beginning"
  else if Qlt_bool 80 pct then "end"
  else "middle".

(** The body of the loop of [enrich]; [now i] is what
    [datetime.now().isoformat()] returns while chunk [i] is handled. *)
Definition enrich_chunk (now : nat -> string) (total_chunks i : nat)
    (chunk : Document) : Document :=
  let content := page_content chunk in
  let position := position_of i total_chunks in
  mkDocument content
    (list_to_map
       [ ("chunk_id", MStr ("chunk_" +:+ format_0d 3 (i + 1)));
         ("index", MInt (Z.of_nat (i + 1)));
         ("total_chunks", MInt (Z.of_nat total_chunks));
         ("char_count", MInt (Z.of_nat (String.length content)));
         ("word_count", MInt (Z.of_nat (split_len content)));
         ("position", MStr position);
         ("source", default (MStr "unknown") (metadata chunk !! "source"));
         ("indexed_at", MStr (now i)) ]).

Definition enrich (now : nat -> string) (chunks : list Document)
  : list Document :=
  let total_chunks := length chunks in
  map (fun '(i, chunk) => enrich_chunk now total_chunks i chunk)
      (enumerate 0 chunks).

(** *** EmbeddingsService *)

Definition MAX_RETRIES : nat := 3.
Definition RETRY_DELAY : nat := 2.

(** The embedding client object; it is told apart by the attempt that
    constructed it. *)
Inductive Client := AzureOpenAIEmbeddings (attempt : nat).

(** What one pass through the [try] block meets: the constructor raises,
    or the client is built and [embed_query("test")] raises or returns a
    vector. *)
Inductive InitOutcome :=
| ClientRaises (e : Exn)
| ClientBuilt (client : Client) (test_result : Result (list Q)).

(** Observable steps of a build, oldest first. *)
Inductive Event :=
| InitAttempt (attempt : nat)
| Sleep (seconds : nat)
| SaveLocal
| WriteIndexInfo.

Record Path := mkPath {
  path_name : string;
  path_str : string
}.

(** The collaborators of one build run.  [find_documents] is what
    [DocumentDiscovery.find_documents] returns, or the exception that
    leaves it (it looks at the data directory and at every file found
    outside any handler); [split_documents] is the chunking step, the
    making of the splitter included. *)
Record BuildWorld := mkBuildWorld {
  missing_vars : list string;
  find_documents : Result (list Path);
  docx_load : Path -> Result (list Document);
  split_documents : list Document -> Result (list Document);
  clock : nat -> string;
  init_attempt : nat -> InitOutcome;
  from_documents : list Document -> option Client -> Result FAISS;
  save_local : Result unit;
  index_files_exist : bool;
  build_top_k : Z;
  write_index_info : Result unit
}.

(** The fields the services of one run hold, and the steps taken. *)
Record BuildState := mkBuildState {
  embeddings : option Client;
  vectorstore : option FAISS;
  events : list Event
}.

Definition BM (A : Type) : Type := M BuildState A.

Definition emit (e : Event) : BM unit :=
  fun s => (Ok tt, mkBuildState (embeddings s) (vectorstore s)
                                (events s ++ [e])).

Definition set_embeddings (c : Client) : BM unit :=
  fun s => (Ok tt, mkBuildState (Some c) (vectorstore s) (events s)).

Definition set_vectorstore (vs : FAISS) : BM unit :=
  fun s => (Ok tt, mkBuildState (embeddings s) (Some vs) (events s)).

Definition get_embeddings : BM (option Client) :=
  fun s => (Ok (embeddings s), s).

Definition get_vectorstore : BM (option FAISS) :=
  fun s => (Ok (vectorstore s), s).

(** The [except] branch of [initialize]. *)
Definition after_failure (attempt : nat) : BM unit :=
  if (attempt <? MAX_RETRIES)%nat then emit (Sleep RETRY_DELAY) else ret tt.

(** The [for] loop of [initialize] over the attempts still to run. *)
Fixpoint initialize_loop (bw : BuildWorld) (attempts : list nat) : BM bool :=
  match attempts with
  | [] => ret false
  | attempt :: rest =>
      let* _ := emit (InitAttempt attempt) in
      match init_attempt bw attempt with
      | ClientRaises e =>
          let* _ := after_failure attempt in
          initialize_loop bw rest
      | ClientBuilt client test =>
          let* _ := set_embeddings client in
          match test with
          | Raise e =>
              let* _ := after_failure attempt in
              initialize_loop bw rest
          | Ok [] => initialize_loop bw rest
          | Ok (_ :: _) => ret true
          end
      end
  end.

Definition initialize (bw : BuildWorld) : BM bool :=
  initialize_loop bw (seq 1 MAX_RETRIES).

(** *** MultiDocumentLoader, FAISSIndexService, RetrievalTester *)

Definition load (bw : BuildWorld) (doc_paths : list Path) : list Document :=
  flat_map
    (fun doc_path =>
       match docx_load bw doc_path with
       | Ok documents =>
           map (fun doc =>
                  mkDocument (page_content doc)
                    (<["source_path" := MStr (path_str doc_path)]>
                       (<["source" := MStr (path_name doc_path)]>
                          (metadata doc))))
               documents
       | Raise _ => []
       end)
    doc_paths.

Definition create (bw : BuildWorld) (chunks : list Document)
    (emb : option Client) : BM bool :=
  match from_documents bw chunks emb with
  | Ok vs => let* _ := set_vectorstore vs in ret true
  | Raise _ => ret false
  end.

Definition save (bw : BuildWorld) : BM bool :=
  let* vs := get_vectorstore in
  match vs with
  | None => ret false
  | Some _ =>
      let* _ := emit SaveLocal in
      match save_local bw with
      | Ok _ => ret true
      | Raise _ => ret false
      end
  end.

Definition validate (bw : BuildWorld) : BM bool :=
  ret (index_files_exist bw).

Definition TEST_QUERIES : list string :=
  [ "How should I greet a caller?";
    "What is the scheduling process?";
    "How do I handle cancellations?";
    "What is the late arrival policy?";
    "How should I end a call?";
    "What are the communication guidelines?";
    "How do I handle walk-ins?";
    "What should I say about wait times?";
    "How do I provide directions?";
    "What is the online booking process?" ].

Fixpoint run_tests_loop (vs : FAISS) (k : Z) (queries : list string)
  : BM (list (list (Document * Q))) :=
  match queries with
  | [] => ret []
  | query :: rest =>
      let* search_results := lift (similarity_search_with_score vs query k) in
      let* results := run_tests_loop vs k rest in
      ret (search_results :: results)
  end.

(** [run_tests] is reached only with a store in place. *)
Definition run_tests (bw : BuildWorld) (vs : option FAISS)
  : BM (list (list (Document * Q))) :=
  match vs with
  | Some store => run_tests_loop store (build_top_k bw) TEST_QUERIES
  | None => lift (Raise (RuntimeError "no vectorstore"))
  end.

(** [IndexInfoGenerator.generate] divides by the number of chunks. *)
Definition generate (chunks : list Document) : BM unit :=
  match chunks with
  | [] => lift (Raise (ZeroDivisionError "division by zero"))
  | _ => ret tt
  end.

Definition save_info (bw : BuildWorld) : BM bool :=
  let* _ := emit WriteIndexInfo in
  match write_index_info bw with
  | Ok _ => ret true
  | Raise _ => ret false
  end.

(** *** SOPIndexer.run *)

Definition run (bw : BuildWorld) : BM bool :=
  if negb (length (missing_vars bw) =? 0)%nat then ret false else
  let* doc_paths := lift (find_documents bw) in
  match doc_paths with [] => ret false | _ =>
  let documents := load bw doc_paths in
  match documents with [] => ret false | _ =>
  let* chunks := lift (split_documents bw documents) in
  let enriched_chunks := enrich (clock bw) chunks in
  let* initialized := initialize bw in
  if negb initialized then ret false else
  let* emb := get_embeddings in
  let* created := create bw enriched_chunks emb in
  if negb created then ret false else
  let* saved := save bw in
  if negb saved then ret false else
  let* valid := validate bw in
  if negb valid then ret false else
  let* vs := get_vectorstore in
  let* results := run_tests bw vs in
  let* _ := generate enriched_chunks in
  let* _ := save_info bw in
  ret true
  end end.

Definition initial_state : BuildState := mkBuildState None None [].

End Indexer.
Import Indexer.

(** ** [src/agent/prompts.py] *)

Module Prompts.

Definition SYSTEM_PROMPT : string :=
  join nl
    [ "You are Sarah, a friendly and professional voice assistant for WellStreet Urgent Care clinic.";
      "";
      "Your role is to assist patients who call the clinic with:";
      "- Scheduling, rescheduling, or cancelling appointments";
      "- Answering questions about walk-in availability";
      "- Providing directions to the clinic";
      "- Explaining wait times";
      "- Handling late arrival inquiries";
      "- Assisting with online booking";
      "";
      "IMPORTANT GUIDELINES:";
      "1. Always be warm, polite, and professional";
      "2. Keep responses concise and conversational - this is a VOICE call, not text chat";
      "3. Use the SOP tools to find accurate information before responding";
      "4. Never make up information - always search the SOP first";
      "5. If you don't know something, offer to help find out or transfer to staff";
      "";
      "VOICE-SPECIFIC RULES:";
      "- Keep responses SHORT (1-3 sentences when possible)";
      "- Avoid bullet points or lists - speak naturally";
      "- Don't say " +:+ dq +:+ "according to the SOP" +:+ dq +:+ " or " +:+ dq +:+ "based on our procedures" +:+ dq +:+ " - just provide the information naturally";
      "- Use conversational phrases like " +:+ dq +:+ "Sure!" +:+ dq +:+ ", " +:+ dq +:+ "Of course!" +:+ dq +:+ ", " +:+ dq +:+ "Let me check that for you" +:+ dq;
      "- Confirm understanding before ending the call";
      "";
      "CRITICAL - DO NOT REPEAT GREETING:";
      "- The greeting " +:+ dq +:+ "Thank you for calling WellStreet Urgent Care. This is Sarah. How may I help you today?" +:+ dq +:+ " should ONLY be said at the START of a NEW call.";
      "- NEVER repeat the greeting in the middle of a conversation.";
      "- If the conversation has already started, DO NOT say " +:+ dq +:+ "Thank you for calling" +:+ dq +:+ " again.";
      "- Just respond naturally to what the caller is asking.";
      "";
      "SCHEDULING:";
      "- All appointments are scheduled through the website";
      "- Offer to send the scheduling link";
      "- Walk-ins are always available as an alternative";
      "- Do NOT ask for specific dates/times - we can't check availability";
      "";
      "EMPATHY:";
      "- Acknowledge the patient naturally";
      "- Keep a calm, helpful tone";
      "- Long emotional statements are NOT required - natural acknowledgment is sufficient";
      "" ].

Definition VOICE_RESPONSE_PROMPT : string :=
  join nl
    [ "Based on the SOP information retrieved, generate a natural spoken response.";
      "";
      "RULES:";
      "1. Keep it SHORT - this will be spoken aloud (1-3 sentences ideal)";
      "2. Be conversational, not robotic";
      "3. Don't mention " +:+ dq +:+ "SOP" +:+ dq +:+ ", " +:+ dq +:+ "procedures" +:+ dq +:+ ", or " +:+ dq +:+ "documents" +:+ dq +:+ " - speak naturally";
      "4. Include only the most relevant information";
      "5. End with a follow-up question if appropriate";
      "";
      "SOP Information:";
      "{context}";
      "";
      "Caller's Question:";
      "{query}";
      "";
      "Generate a natural, concise voice response:" ].

Definition TOOL_SELECTION_PROMPT : string :=
  join nl
    [ "Analyze the caller's request and determine the best action.";
      "";
      "Available Tools:";
      "1. search_sop_tool - Search SOP for any relevant information";
      "2. get_procedure - Get specific procedure by topic name";
      "";
      "Common Topics for get_procedure:";
      "- greeting, scheduling, cancellation, reschedule";
      "- walk-in, directions, wait times, late arrival";
      "- online booking, closing, hold, communication";
      "";
      "Caller's Request: {query}";
      "";
      "If the request matches a specific topic, use get_procedure.";
      "If the request is general or unclear, use search_sop_tool.";
      "If the request is a simple greeting or closing, respond directly without tools.";
      "";
      "Decision:" ].

Definition ERROR_RESPONSE_PROMPT : string :=
  "I apologize, but I'm having trouble accessing that information right now. Let me connect you with one of our staff members who can help you directly. Would you like me to transfer you, or is there something else I can help you with?".

Definition NO_RESULTS_PROMPT : string :=
  "I don't have specific information about that in our system. Let me check with our staff to get you the correct answer. Can you hold for just a moment, or would you prefer I have someone call you back?".

Definition CLARIFICATION_PROMPT : string :=
  "I want to make sure I help you correctly. Could you tell me a bit more about what you're looking for? Are you calling about an appointment, or do you have a general question about our clinic?".

Definition CLOSING_PROMPT : string :=
  "Is there anything else I can help you with today?".

Definition GOODBYE_PROMPT : string :=
  "Thank you for calling WellStreet Urgent Care. Have a great day!".

Definition HOLD_PROMPT : string :=
  "I'll need just a moment to look that up for you. Please hold briefly.".

Definition RETURN_FROM_HOLD_PROMPT : string :=
  "Thank you for holding. I have that information for you now.".

Definition TRANSFER_PROMPT : string :=
  "I'll connect you with one of our team members who can help you with that. Please hold while I transfer you.".

Definition SCHEDULING_PROMPT : string :=
  "All appointments are scheduled through our website. I can send you the scheduling link if you'd like. Would that be helpful?".

Definition RESCHEDULE_PROMPT : string :=
  "You can reschedule your appointment through our website. If you're having trouble with the website, I can help you reschedule over the phone. Which would you prefer?".

Definition CANCEL_PROMPT : string :=
  "You can cancel your appointment through our website. Would you like me to send you the link, or would you prefer I help you cancel it now?".

Definition WALKIN_PROMPT : string :=
  "Yes, we do accept walk-ins! You're welcome to come in anytime during our hours. Just keep in mind that wait times may vary depending on how busy we are.".

Definition LATE_ARRIVAL_PROMPT : string :=
  "I understand you're running late. Our policy is that if you're more than 15 minutes late, we may need to reschedule your appointment. Would you like me to help you find the next available slot?".

Definition DIRECTIONS_PROMPT : string :=
  "I'd be happy to help you find us. Could you tell me where you're coming from, and I'll give you the best directions?".

Definition WAIT_TIMES_PROMPT : string :=
  "Wait times can vary depending on patient volume and the urgency of cases being treated. Would you like me to check on the current wait time for you?".

Definition ONLINE_BOOKING_PROMPT : string :=
  "You can book an appointment on our website. I can send you the direct link if you'd like. If you prefer, you're also welcome to walk in.".

Definition PROMPTS : gmap string string :=
  list_to_map
    [ ("system", SYSTEM_PROMPT);
      ("voice_response", VOICE_RESPONSE_PROMPT);
      ("tool_selection", TOOL_SELECTION_PROMPT);
      ("error", ERROR_RESPONSE_PROMPT);
      ("no_results", NO_RESULTS_PROMPT);
      ("clarification", CLARIFICATION_PROMPT);
      ("closing", CLOSING_PROMPT);
      ("goodbye", GOODBYE_PROMPT);
      ("hold", HOLD_PROMPT);
      ("return_from_hold", RETURN_FROM_HOLD_PROMPT);
      ("transfer", TRANSFER_PROMPT);
      ("scheduling", SCHEDULING_PROMPT);
      ("reschedule", RESCHEDULE_PROMPT);
      ("cancel", CANCEL_PROMPT);
      ("walkin", WALKIN_PROMPT);
      ("late_arrival", LATE_ARRIVAL_PROMPT);
      ("directions", DIRECTIONS_PROMPT);
      ("wait_times", WAIT_TIMES_PROMPT);
      ("online_booking", ONLINE_BOOKING_PROMPT) ].

Definition get_prompt (name : string) : string :=
  default "" (PROMPTS !! name).

End Prompts.
Import Prompts.

(** ** [src/agent/graph.py] *)

Module Graph.

Record ToolCall := mkToolCall {
  tc_name : string;
  tc_args : string;
  tc_id : string
}.

(** The id of a message ([BaseMessage.id], a string in Python).  Ids are
    only ever compared with each other; the model names them by numbers. *)
Definition MessageId := nat.

(** LangChain messages.  Only an [AIMessage] carries [tool_calls].  The
    [id] is optional, as in Python.  A message without an id stands for an
    object of its own, which the reducer of the messages channel gives an
    id the first time it meets it; one object that occurs twice in a list
    is written as two entries with one id. *)
Inductive Message :=
| SystemMessage (content : string) (id : option MessageId)
| HumanMessage (content : string) (id : option MessageId)
| AIMessage (content : string) (calls : list ToolCall)
            (id : option MessageId)
| ToolMessage (content : string) (tool_call_id : string)
              (id : option MessageId).

Definition content (m : Message) : string :=
  match m with
  | SystemMessage c _ | HumanMessage c _ | AIMessage c _ _
  | ToolMessage c _ _ => c
  end.

(** [m.id] *)
Definition message_id (m : Message) : option MessageId :=
  match m with
  | SystemMessage _ i | HumanMessage _ i | AIMessage _ _ i
  | ToolMessage _ _ i => i
  end.

(** [m.id = i] *)
Definition with_id (m : Message) (i : MessageId) : Message :=
  match m with
  | SystemMessage c _ => SystemMessage c (Some i)
  | HumanMessage c _ => HumanMessage c (Some i)
  | AIMessage c calls _ => AIMessage c calls (Some i)
  | ToolMessage c call_id _ => ToolMessage c call_id (Some i)
  end.

(** [isinstance(m, SystemMessage)] *)
Definition is_system (m : Message) : bool :=
  match m with
  | SystemMessage _ _ => true
  | _ => false
  end.

(** [hasattr(m, 'tool_calls') and m.tool_calls] *)
Definition has_tool_calls (m : Message) : bool :=
  match m with
  | AIMessage _ (_ :: _) _ => true
  | _ => false
  end.

(** The [AgentState] dictionary of [src/agent/state.py]; every key is
    always present, optional values may be [None]. *)
Record AgentState := mkAgentState {
  messages : list Message;
  context : option string;
  current_query : option string;
  tool_calls : list string;
  response : option string;
  error : option string;
  call_stage : string
}.

(** What [ToolNode(sop_tools).invoke(state)] gives back: a dictionary with
    or without a ["messages"] entry (tool messages as content and call id),
    or an exception. *)
Record ToolOutput := mkToolOutput {
  out_content : string;
  out_call_id : string
}.

Definition tool_message (o : ToolOutput) : Message :=
  ToolMessage (out_content o) (out_call_id o) None.

(** The collaborators of one turn.  Each is asked with the number of the
    graph step that calls it, so that two calls may answer differently.
    - [llm_invoke]: [get_llm_with_tools().invoke(messages)], the content
      and tool calls of the returned [AIMessage], or an exception;
    - [tool_executor]: the prebuilt tool node, [None] when the returned
      dictionary has no ["messages"] entry;
    - [recursion_limit]: the step limit of the graph executor for one
      [invoke] (LangGraph's default is 25; [run_agent_with_history]
      passes no other value). *)
Record AgentWorld := mkAgentWorld {
  llm_invoke : nat -> list Message -> Result (string * list ToolCall);
  tool_executor : nat -> AgentState -> Result (option (list ToolOutput));
  recursion_limit : nat
}.

(** [{**state, "messages": m, "response": r}] and the like. *)
Definition with_messages (state : AgentState) (m : list Message) :=
  mkAgentState m (context state) (current_query state) (tool_calls state)
               (response state) (error state) (call_stage state).

Definition with_context (state : AgentState) (c : option string) :=
  mkAgentState (messages state) c (current_query state) (tool_calls state)
               (response state) (error state) (call_stage state).

Definition with_response (state : AgentState) (r : option string) :=
  mkAgentState (messages state) (context state) (current_query state)
               (tool_calls state) r (error state) (call_stage state).

Definition with_error (state : AgentState) (e : option string) :=
  mkAgentState (messages state) (context state) (current_query state)
               (tool_calls state) (response state) e (call_stage state).

(** *** The reducer of the messages channel

    [state.py] declares ["messages"] with LangGraph's [add_messages]: what
    a node returns under that key is merged into the stored list by
    message id.  The function below follows the library's: missing ids
    are assigned, the stored list is indexed by id, and each returned
    message replaces the stored message of the same id or is appended.
    (The library also handles [RemoveMessage], which this program never
    builds.) *)

(** The ids a list of messages carries. *)
Definition ids (l : list Message) : list MessageId := omap message_id l.

(** [str(uuid.uuid4())]: an id that is not in use. *)
Definition uuid4 (used : list MessageId) : MessageId := S (max_list used).

(** [for m in l: if m.id is None: m.id = str(uuid.uuid4())] *)
Fixpoint assign_ids (used : list MessageId) (l : list Message)
  : list Message :=
  match l with
  | [] => []
  | m :: rest =>
      match message_id m with
      | Some _ => m :: assign_ids used rest
      | None =>
          let i := uuid4 used in
          with_id m i :: assign_ids (i :: used) rest
      end
  end.

(** [{m.id: i for i, m in enumerate(merged)}] *)
Definition index_by_id (merged : list Message) : gmap MessageId nat :=
  foldl (fun d '(i, m) =>
           match message_id m with
           | Some k => <[k := i]> d
           | None => d
           end)
        ∅ (enumerate 0 merged).

(** One pass of the merge loop, on the merged list and its index. *)
Definition merge_message (acc : list Message * gmap MessageId nat)
    (m : Message) : list Message * gmap MessageId nat :=
  let '(merged, merged_by_id) := acc in
  match message_id m with
  | Some k =>
      match merged_by_id !! k with
      | Some existing_idx => (<[existing_idx := m]> merged, merged_by_id)
      | None => (merged ++ [m], <[k := length merged]> merged_by_id)
      end
  | None => (merged ++ [m], merged_by_id)
  end.

Definition add_messages (left right : list Message) : list Message :=
  let left' := assign_ids (ids left ++ ids right) left in
  let right' := assign_ids (ids left' ++ ids right) right in
  fst (foldl merge_message (left', index_by_id left') right').

(** Writing what a node returned to the channels: ["messages"] goes
    through its reducer, every other key is replaced (the nodes return
    every key). *)
Definition write (channels returned : AgentState) : AgentState :=
  with_messages returned
    (add_messages (messages channels) (messages returned)).

(** Writing the input of [invoke]: the messages channel starts empty. *)
Definition write_input (input : AgentState) : AgentState :=
  with_messages input (add_messages [] (messages input)).

(** *** The nodes *)

(** The messages [agent_node] sends to the model: those of the state, led
    by the system prompt when the state does not start with one. *)
Definition prompt_messages (state : AgentState) : list Message :=
  match messages state with
  | SystemMessage _ _ :: _ => messages state
  | _ => SystemMessage SYSTEM_PROMPT None :: messages state
  end.

Definition agent_node (w : AgentWorld) (step : nat) (state : AgentState)
  : AgentState :=
  match llm_invoke w step (prompt_messages state) with
  | Ok (reply_content, reply_calls) =>
      let reply := AIMessage reply_content reply_calls None in
      let new_messages := messages state ++ [reply] in
      with_response (with_messages state new_messages) (Some reply_content)
  | Raise e =>
      with_response (with_error state (Some (exn_str e)))
                    (Some (get_prompt "error"))
  end.

(** [l[-1]]: the last element, [IndexError] on an empty list. *)
Definition last_message (l : list Message) : Result Message :=
  match last l with
  | Some m => Ok m
  | None => Raise (RuntimeError "list index out of range")
  end.

Definition tool_node (w : AgentWorld) (step : nat) (state : AgentState)
  : AgentState :=
  match last_message (messages state) with
  | Raise e => with_error state (Some (exn_str e))
  | Ok last_msg =>
      if negb (has_tool_calls last_msg) then state
      else
        match tool_executor w step state with
        | Raise e => with_error state (Some (exn_str e))
        | Ok None => state
        | Ok (Some outs) =>
            let result_messages := map tool_message outs in
            let new_messages := messages state ++ result_messages in
            with_context (with_messages state new_messages)
                         (option_map content (last result_messages))
        end
  end.

Definition response_node (state : AgentState) : AgentState :=
  match last_message (messages state) with
  | Raise e =>
      with_response (with_error state (Some (exn_str e)))
                    (Some (get_prompt "error"))
  | Ok last_msg =>
      let r :=
        if negb (String.eqb (content last_msg) "") then content last_msg
        else get_prompt "error" in
      with_response state (Some r)
  end.

Inductive Route := to_tools | to_response.

Definition should_use_tools (state : AgentState) : Result Route :=
  match last_message (messages state) with
  | Raise e => Raise e
  | Ok last_msg =>
      if has_tool_calls last_msg then Ok to_tools else Ok to_response
  end.

(** *** The compiled graph

    Entry point [agent]; a conditional edge from [agent] to [tools] or
    [response] chosen by [should_use_tools]; an edge from [tools] back to
    [agent]; an edge from [response] to [END]. *)

Inductive Node := agent | tools | respond.

Definition visit {A} (n : Node) (r : list Node * A) : list Node * A :=
  (n :: fst r, snd r).

(** Runs the graph from [node]; [fuel] is the number of node executions
    still allowed and [step] the number already made.  The executor
    checks its limit after every execution, before it looks for the next
    node: a run whose last node uses up the limit raises all the same,
    so a run completes only when it takes fewer executions than the
    limit.  Returns the nodes executed, in order, and the final state or
    the exception raised. *)
Fixpoint run_from (w : AgentWorld) (fuel step : nat) (node : Node)
    (state : AgentState) : list Node * Result AgentState :=
  match fuel with
  | O => ([], Raise (GraphRecursionError
                      "Recursion limit reached without hitting a stop condition"))
  | S fuel' =>
      match node with
      | agent =>
          let state' := write state (agent_node w step state) in
          match should_use_tools state' with
          | Raise e => ([agent], Raise e)
          | Ok to_tools =>
              visit agent (run_from w fuel' (S step) tools state')
          | Ok to_response =>
              visit agent (run_from w fuel' (S step) respond state')
          end
      | tools =>
          let state' := write state (tool_node w step state) in
          visit tools (run_from w fuel' (S step) agent state')
      | respond =>
          match fuel' with
          | O => ([respond],
                  Raise (GraphRecursionError
                           "Recursion limit reached without hitting a stop condition"))
          | S _ => ([respond], Ok (write state (response_node state)))
          end
      end
  end.

(** [agent.invoke(state)] with the nodes it executed. *)
Definition invoke_trace (w : AgentWorld) (state : AgentState)
  : list Node * Result AgentState :=
  run_from w (recursion_limit w) 0 agent (write_input state).

Definition invoke (w : AgentWorld) (state : AgentState)
  : Result AgentState :=
  snd (invoke_trace w state).

(** [x or default] on optional values whose falsy inhabitant is empty. *)
Definition or_str (x : option string) (d : string) : string :=
  match x with
  | Some s => if String.eqb s "" then d else s
  | None => d
  end.

Definition or_list {A} (x : option (list A)) : list A :=
  match x with
  | Some l => l
  | None => []
  end.

(** The state [run_agent_with_history] hands to the graph. *)
Definition turn_state (query : string) (history : option (list Message))
    (system_prompt : option string) : AgentState :=
  let prompt := or_str system_prompt SYSTEM_PROMPT in
  let msgs :=
    [SystemMessage prompt None] ++ or_list history
      ++ [HumanMessage query None] in
  mkAgentState msgs None (Some query) [] None None "main".

(** The [try] block of [run_agent_with_history].  The final state always
    has a ["response"] entry, so [result.get("response", ...)] is that
    entry and the default is never used. *)
Definition run_agent_with_history_try (w : AgentWorld) (query : string)
    (history : option (list Message)) (system_prompt : option string)
  : Result (option string * list Message) :=
  let state := turn_state query history system_prompt in
  match invoke w state with
  | Raise e => Raise e
  | Ok result =>
      let reply := response result in
      let updated_history :=
        List.filter (fun m => negb (is_system m)) (messages result) in
      Ok (reply, updated_history)
  end.

(** The reducer writes the ids it assigns into the message objects
    themselves ([m.id = ...]), and the caller's [history] list holds the
    very objects handed to the graph.  Once the input of [invoke] has been
    written, a message of that list that had no id shows the id it was
    given; this is how the list reads from then on. *)
Definition history_after_input (query : string)
    (history : option (list Message)) (system_prompt : option string)
  : list Message :=
  let msgs := messages (turn_state query history system_prompt) in
  take (length (or_list history)) (drop 1 (assign_ids (ids msgs) msgs)).

(** The response is the value stored under ["response"], which Python
    types as an optional string.  An exception can only leave [invoke]
    after the input was written, so the handler's [history or []] is the
    list as it reads by then. *)
Definition run_agent_with_history (w : AgentWorld) (query : string)
    (history : option (list Message)) (system_prompt : option string)
  : option string * list Message :=
  match run_agent_with_history_try w query history system_prompt with
  | Ok r => r
  | Raise e =>
      (Some (get_prompt "error"),
       history_after_input query history system_prompt)
  end.

(** The loop at the end of the module, also the one of the callers: each
    turn is given the history the previous turn returned.  A turn comes
    with its own collaborators.  Returns the history after every turn. *)
Fixpoint conversation (turns : list (AgentWorld * string))
    (history : list Message) : list (list Message) :=
  match turns with
  | [] => []
  | (w, query) :: rest =>
      let history' :=
        snd (run_agent_with_history w query (Some history) None) in
      history' :: conversation rest history'
  end.

End Graph.
Import Graph.

(** ** [src/agent/state.py] *)

Module State.

(** The message a factory adds for an optional text: none for [None] and
    for the empty string, which [if text:] rejects alike. *)
Definition message_if (make : string -> option MessageId -> Message)
    (text : option string) : list Message :=
  match text with
  | Some t => if String.eqb t "" then [] else [make t None]
  | None => []
  end.

Definition create_initial_state (system_prompt initial_message : option string)
  : AgentState :=
  let msgs :=
    message_if SystemMessage system_prompt
      ++ message_if HumanMessage initial_message in
  mkAgentState msgs None initial_message [] None None "greeting".

Definition create_state_from_query (query : string)
    (system_prompt : option string) : AgentState :=
  create_initial_state system_prompt (Some query).

Definition update_context (state : AgentState) (new_context : string)
  : AgentState :=
  mkAgentState (messages state) (Some new_context) (current_query state)
               (tool_calls state) (response state) (error state)
               (call_stage state).

(** [AIMessage(content=response)]: a reply without tool calls. *)
Definition update_response (state : AgentState) (reply : string)
  : AgentState :=
  let new_messages := messages state ++ [AIMessage reply [] None] in
  mkAgentState new_messages (context state) (current_query state)
               (tool_calls state) (Some reply) (error state)
               (call_stage state).

Definition update_error (state : AgentState) (message : string)
  : AgentState :=
  mkAgentState (messages state) (context state) (current_query state)
               (tool_calls state) (response state) (Some message)
               (call_stage state).

Definition update_call_stage (state : AgentState) (stage : string)
  : AgentState :=
  mkAgentState (messages state) (context state) (current_query state)
               (tool_calls state) (response state) (error state) stage.

Definition add_tool_call (state : AgentState) (tool_name : string)
  : AgentState :=
  let new_tool_calls := tool_calls state ++ [tool_name] in
  mkAgentState (messages state) (context state) (current_query state)
               new_tool_calls (response state) (error state)
               (call_stage state).

Definition add_user_message (state : AgentState) (message : string)
  : AgentState :=
  let new_messages := messages state ++ [HumanMessage message None] in
  mkAgentState new_messages None (Some message) [] None None
               (call_stage state).

Definition get_message_history (state : AgentState) : list Message :=
  messages state.

(** The loops over [reversed(state["messages"])]: the content of the first
    message of the wanted class, met from the end. *)
Fixpoint first_human (l : list Message) : option string :=
  match l with
  | [] => None
  | HumanMessage c _ :: _ => Some c
  | _ :: rest => first_human rest
  end.

Fixpoint first_ai (l : list Message) : option string :=
  match l with
  | [] => None
  | AIMessage c _ _ :: _ => Some c
  | _ :: rest => first_ai rest
  end.

Definition get_last_user_message (state : AgentState) : option string :=
  first_human (rev (messages state)).

Definition get_last_ai_message (state : AgentState) : option string :=
  first_ai (rev (messages state)).

Definition get_conversation_length (state : AgentState) : nat :=
  length (messages state).

Definition has_error (state : AgentState) : bool :=
  match error state with
  | Some _ => true
  | None => false
  end.

Definition has_context (state : AgentState) : bool :=
  match context state with
  | Some c => (0 <? String.length c)%nat
  | None => false
  end.

End State.
Import State.

(** ** [src/agent/graph.py]: the single-query entry points *)

Module Agent.

(** The [try] block of [run_agent].  Its log line slices the response, which
    raises when the response is [None]; the handler catches that as any
    other exception. *)
Definition run_agent_try (w : AgentWorld) (query : string)
    (system_prompt : option string) : Result string :=
  let prompt := or_str system_prompt SYSTEM_PROMPT in
  let msgs := [SystemMessage prompt None; HumanMessage query None] in
  let initial_state :=
    mkAgentState msgs None (Some query) [] None None "main" in
  match invoke w initial_state with
  | Raise e => Raise e
  | Ok result =>
      match response result with
      | Some reply => Ok reply
      | None => Raise (RuntimeError "'NoneType' object is not subscriptable")
      end
  end.

Definition run_agent (w : AgentWorld) (query : string)
    (system_prompt : option string) : string :=
  match run_agent_try w query system_prompt with
  | Ok reply => reply
  | Raise _ => get_prompt "error"
  end.

Definition chat (w : AgentWorld) (query : string) : string :=
  run_agent w query None.

Definition get_greeting : string :=
  "Thank you for calling WellStreet Urgent Care. This is Sarah. How may I help you today?".

End Agent.
Import Agent.

(** ** [src/services/sop_service.py]: context view and service class *)

Module SopContext.

Definition get_relevant_context (w : World) (query : string)
    (top_k : option Z) : SM string :=
  let* documents := search_sop w query top_k in
  ret (join separator (map page_content documents)).

(** An instance of [SOPService]. *)
Record SOPService := mkSOPService {
  svc_config : Config;
  svc_top_k : Z;
  svc_vectorstore : option FAISS;
  svc_retriever : option Retriever
}.

(** [SOPService(top_k)], also [get_sop_service(top_k)]. *)
Definition get_sop_service (w : World) (top_k : option Z)
  : Result SOPService :=
  match get_config w with
  | Ok config =>
      Ok (mkSOPService config (or_int top_k (cfg_top_k config)) None None)
  | Raise e => Raise e
  end.

(** A method runs over the module globals and the instance. *)
Definition CM (A : Type) : Type := M (Globals * SOPService) A.

(** The [vectorstore] property. *)
Definition vectorstore_of (w : World) : CM FAISS :=
  fun st =>
    match svc_vectorstore (snd st) with
    | Some vs => (Ok vs, st)
    | None =>
        match SopService.get_vectorstore w (fst st) with
        | (Ok vs, g') =>
            (Ok vs,
             (g', mkSOPService (svc_config (snd st)) (svc_top_k (snd st))
                               (Some vs) (svc_retriever (snd st))))
        | (Raise e, g') => (Raise e, (g', snd st))
        end
    end.

(** The [retriever] property. *)
Definition retriever_of (w : World) : CM Retriever :=
  fun st =>
    match svc_retriever (snd st) with
    | Some r => (Ok r, st)
    | None =>
        match vectorstore_of w st with
        | (Ok vs, (g', svc)) =>
            let r := mkRetriever vs (svc_top_k svc) in
            (Ok r,
             (g', mkSOPService (svc_config svc) (svc_top_k svc)
                               (svc_vectorstore svc) (Some r)))
        | (Raise e, st') => (Raise e, st')
        end
    end.

(** A computation on the globals, run beside an instance it leaves alone. *)
Definition on_globals {A} (m : SM A) : CM A :=
  fun st =>
    match m (fst st) with
    | (r, g') => (r, (g', snd st))
    end.

Definition service_search (w : World) (query : string) : CM (list Document) :=
  let* retriever := retriever_of w in
  on_globals (retriever_invoke retriever query).

Definition service_search_with_scores (w : World) (query : string)
  : CM (list (Document * Q)) :=
  let* vs := vectorstore_of w in
  fun st => on_globals (store_search vs query (svc_top_k (snd st))) st.

Definition service_get_context (w : World) (query : string) : CM string :=
  let* docs := service_search w query in
  ret (join separator (map page_content docs)).

Definition is_ready (w : World) : CM bool :=
  fun st =>
    match vectorstore_of w st with
    | (Ok _, st') => (Ok true, st')
    | (Raise _, st') => (Ok false, st')
    end.

End SopContext.
Import SopContext.

(** ** [scripts/create_sop_index.py]: the index manifest *)

Module IndexInfo.

#[global] Instance MetaValue_eq_dec : EqDecision MetaValue.
Proof. solve_decision. Defined.

#[global] Instance MetaValue_countable : Countable MetaValue :=
  inj_countable'
    (fun v => match v with MStr s => inl s | MInt z => inr z end)
    (fun x => match x with inl s => MStr s | inr z => MInt z end)
    (fun v => match v with MStr _ | MInt _ => eq_refl end).

(** [chunk.metadata.get("source", "unknown")] *)
Definition chunk_source (chunk : Document) : MetaValue :=
  default (MStr "unknown") (metadata chunk !! "source").

(** One pass of the counting loop:
    [source_dist[source] = source_dist.get(source, 0) + 1]. *)
Definition count_source (source_dist : gmap MetaValue nat) (chunk : Document)
  : gmap MetaValue nat :=
  let source := chunk_source chunk in
  <[source := default 0 (source_dist !! source) + 1]> source_dist.

Definition source_distribution (chunks : list Document) : gmap MetaValue nat :=
  foldl count_source ∅ chunks.

(** [c.metadata[key]] read as a number; [None] where Python raises
    ([KeyError] for a missing entry, [TypeError] later for text). *)
Definition meta_int (key : string) (c : Document) : option Z :=
  match metadata c !! key with
  | Some (MInt z) => Some z
  | _ => None
  end.

(** [[c.metadata[key] for c in chunks]] *)
Fixpoint meta_ints (key : string) (chunks : list Document)
  : option (list Z) :=
  match chunks with
  | [] => Some []
  | c :: rest =>
      match meta_int key c, meta_ints key rest with
      | Some z, Some zs => Some (z :: zs)
      | _, _ => None
      end
  end.

(** [sum(l)] *)
Definition sum_Z (l : list Z) : Z := fold_right Z.add 0%Z l.

(** The entries the ["chunks"] list of the manifest reads with
    [c.metadata[key]] besides the two counts; a missing one is a
    [KeyError]. *)
Definition has_chunk_keys (c : Document) : bool :=
  forallb (fun key => bool_decide (is_Some (metadata c !! key)))
          ["chunk_id"; "source"; "position"].

(** The integer entries of ["statistics"]: documents, chunks, characters
    and words.  [statistics] is [None] where [generate] raises: a count is
    missing or is no number, there is no chunk to average over, or a chunk
    lacks an entry the ["chunks"] list reads. *)
Record Statistics := mkStatistics {
  total_documents : nat;
  total_chunks : nat;
  total_characters : Z;
  total_words : Z
}.

Definition statistics (chunks : list Document) (doc_paths : list Path)
  : option Statistics :=
  match meta_ints "char_count" chunks, meta_ints "word_count" chunks with
  | Some char_counts, Some word_counts =>
      match chunks with
      | [] => None
      | _ =>
          if forallb has_chunk_keys chunks
          then Some (mkStatistics (length doc_paths) (length chunks)
                                  (sum_Z char_counts) (sum_Z word_counts))
          else None
      end
  | _, _ => None
  end.

(** [s.replace("\n", " ")] *)
Fixpoint replace_newlines (s : string) : string :=
  match s with
  | String c rest =>
      String (if Ascii.eqb c (ascii_of_nat 10) then " "%char else c)
             (replace_newlines rest)
  | EmptyString => EmptyString
  end.

(** [c.page_content[:80].replace("\n", " ") + "..."] *)
Definition preview (content : string) : string :=
  replace_newlines (String.substring 0 80 content) +:+ "...".

(** The ["sources"] entry of a path: its name, its text and the number of
    chunks counted for its name. *)
Definition source_entry (source_dist : gmap MetaValue nat) (p : Path)
  : string * string * nat :=
  (path_name p, path_str p, default 0 (source_dist !! MStr (path_name p))).

End IndexInfo.
Import IndexInfo.

(** ** [server.py]: the session registry and the chat endpoints *)

Module Server.

(** [conversation_sessions]: session id to history. *)
Definition get_or_create_session (session_id : string)
    (sessions : gmap string (list Message))
  : list Message * gmap string (list Message) :=
  match sessions !! session_id with
  | Some history => (history, sessions)
  | None => ([], <[session_id := []]> sessions)
  end.

Definition clear_session (session_id : string)
    (sessions : gmap string (list Message)) : gmap string (list Message) :=
  match sessions !! session_id with
  | Some _ => delete session_id sessions
  | None => sessions
  end.

(** The body of a request: a JSON object, of which the two text entries
    are read. *)
Definition request_message (data : gmap string string) : string :=
  default "" (data !! "message").

Definition request_session (data : gmap string string) : string :=
  default "default" (data !! "session_id").

Inductive ChatReply :=
| ChatError (error_text : string)
| ChatAnswer (message : string) (reply : option string) (session_id : string)
             (history_length : nat).

Definition chat_endpoint (w : AgentWorld) (data : gmap string string)
    (sessions : gmap string (list Message))
  : ChatReply * gmap string (list Message) :=
  let user_input := request_message data in
  let session_id := request_session data in
  if String.eqb user_input "" then (ChatError "No message provided", sessions)
  else
    let '(history, sessions1) := get_or_create_session session_id sessions in
    let '(reply, updated_history) :=
      run_agent_with_history w user_input (Some history) None in
    (ChatAnswer user_input reply session_id (length updated_history),
     <[session_id := updated_history]> sessions1).

(** Speech synthesis and base 64 encoding, as the endpoint sees them. *)
Record Speech := mkSpeech {
  synthesize : option string -> Result string;
  b64encode : string -> string
}.

Inductive VoiceReply :=
| VoiceError (error_text : string)
| VoiceAnswer (text : option string) (audio : string) (audio_format : string)
              (session_id : string) (history_length : nat)
| VoiceTextOnly (text : option string) (error_text : string)
                (session_id : string).

Definition voice_response_endpoint (w : AgentWorld) (speech : Speech)
    (data : gmap string string) (sessions : gmap string (list Message))
  : VoiceReply * gmap string (list Message) :=
  let user_input := request_message data in
  let session_id := request_session data in
  if String.eqb user_input "" then (VoiceError "No message provided", sessions)
  else
    let '(history, sessions1) := get_or_create_session session_id sessions in
    let '(text_response, updated_history) :=
      run_agent_with_history w user_input (Some history) None in
    let sessions2 := <[session_id := updated_history]> sessions1 in
    match synthesize speech text_response with
    | Ok audio_bytes =>
        (VoiceAnswer text_response (b64encode speech audio_bytes) "mp3"
                     session_id (length updated_history), sessions2)
    | Raise e => (VoiceTextOnly text_response (exn_str e) session_id, sessions2)
    end.

Definition clear_session_endpoint (data : gmap string string)
    (sessions : gmap string (list Message))
  : string * gmap string (list Message) :=
  let session_id := request_session data in
  (session_id, clear_session session_id sessions).

End Server.
Import Server.

(** * Properties *)

(** ** Notions used in the statements *)

Module Notions.

(** Reading back a rendered number: leading zeros do not count. *)
Definition read_nat (s : string) : option nat :=
  option_map Nat.of_uint (NilEmpty.uint_of_string s).

(** [s] without its prefix [p], if it starts with [p]. *)
Fixpoint drop_prefix (p s : string) : option string :=
  match p, s with
  | EmptyString, _ => Some s
  | String a p', String b s' =>
      if Ascii.eqb a b then drop_prefix p' s' else None
  | String _ _, EmptyString => None
  end.

(** The sequence number a chunk id renders: the decimal number after the
    prefix ["chunk_"]. *)
Definition chunk_number (id : string) : option nat :=
  match drop_prefix "chunk_" id with
  | Some digits => read_nat digits
  | None => None
  end.

(** The id a document carries, as rendered text. *)
Definition chunk_id (d : Document) : option string :=
  option_map meta_str (metadata d !! "chunk_id").

(** The block the search tool prints for the document at place [i]
    (counted from 0) of the results. *)
Definition block_of (i : nat) (doc : Document) : string :=
  "[" +:+ default ("result_" +:+ str_nat (i + 1)) (chunk_id doc) +:+ "]"
      +:+ nl +:+ strip (page_content doc).

(** Steps of a build that are an initialisation attempt, or a write of
    the index. *)
Definition is_attempt (e : Event) : bool :=
  match e with InitAttempt _ => true | _ => false end.

Definition is_save (e : Event) : bool :=
  match e with SaveLocal => true | _ => false end.

(** An attempt fails when the constructor or the test call raises, or
    when the test vector is empty. *)
Definition attempt_failed (o : InitOutcome) : bool :=
  match o with
  | ClientRaises _ => true
  | ClientBuilt _ (Raise _) => true
  | ClientBuilt _ (Ok []) => true
  | ClientBuilt _ (Ok (_ :: _)) => false
  end.

(** An attempt that ended in the [except] branch. *)
Definition attempt_raised (o : InitOutcome) : bool :=
  match o with
  | ClientRaises _ => true
  | ClientBuilt _ (Raise _) => true
  | ClientBuilt _ (Ok _) => false
  end.

(** [not isinstance(m, SystemMessage)] *)
Definition non_system (m : Message) : bool := negb (is_system m).

(** Messages a turn can add after the user's: model replies and tool
    results. *)
Definition assistant_or_tool (m : Message) : bool :=
  match m with
  | AIMessage _ _ _ | ToolMessage _ _ _ => true
  | _ => false
  end.

(** [new] is [old], given an id if it had none. *)
Definition keeps (old new : Message) : Prop :=
  new = old \/ (message_id old = None /\ exists i, new = with_id old i).

(** No id occurs twice in the list. *)
Definition distinct_ids (l : list Message) : Prop := NoDup (ids l).

(** Every message of the list has an id, and no id occurs twice. *)
Definition identified (l : list Message) : Prop :=
  Forall (fun m => is_Some (message_id m)) l /\ NoDup (ids l).

Definition is_tools (n : Node) : bool :=
  match n with tools => true | _ => false end.

(** The tool round-trips of a run: the executions of the [tools] node,
    each of which is followed by a return to [agent]. *)
Definition round_trips (visited : list Node) : nat :=
  length (List.filter is_tools visited).

(** The exception of the graph executor when its limit is reached. *)
Definition RECURSION_ERROR : Exn :=
  GraphRecursionError
    "Recursion limit reached without hitting a stop condition".

(** A response that is a string, and not the empty one. *)
Definition nonempty (o : option string) : Prop :=
  exists r, o = Some r /\ r <> "".

(** The model's behaviour at the graph step [step], whatever it is sent:
    a reply that requests tools, or a reply that requests none. *)
Definition asks_for_tools (w : AgentWorld) (step : nat) : Prop :=
  forall msgs, exists c tcs,
    llm_invoke w step msgs = Ok (c, tcs) /\ tcs <> [].

Definition answers (w : AgentWorld) (step : nat) : Prop :=
  forall msgs, exists c, llm_invoke w step msgs = Ok (c, []).

(** What [response_node] makes of a reply. *)
Definition spoken (reply : string) : string :=
  if String.eqb reply "" then get_prompt "error" else reply.

(** The nodes of a turn with [n] round-trips. *)
Definition path (n : nat) : list Node :=
  concat (repeat [agent; tools] n) ++ [agent; respond].

(** The id given to the chunk at place [i]. *)
Definition id_at (i : nat) : string := "chunk_" +:+ format_0d 3 (i + 1).

(** Every string is below its successor in the list. *)
Fixpoint adjacent_lt (l : list string) : bool :=
  match l with
  | a :: (b :: _) as rest =>
      match String_as_OT.cmp a b with
      | Lt => adjacent_lt rest
      | _ => false
      end
  | _ => true
  end.

(** The invariant of the merge loop of [add_messages]: the index maps
    every id of the merged list to its place. *)
Definition indexed (merged : list Message) (idx : gmap MessageId nat)
  : Prop :=
  identified merged /\
  forall k j,
    (idx !! k = Some j) <->
    (exists m, merged !! j = Some m /\ message_id m = Some k).

End Notions.
Import Notions.

(** ** Sample collaborators and inputs *)

Module Samples.

Definition sample_clock (i : nat) : string := "2024-01-01T00:00:00".

Definition sample_chunk (text : string) : Document :=
  mkDocument text {[ "source" := MStr "sop.docx" ]}.

Definition six_chunks : list Document :=
  map sample_chunk
    [ "Greet the caller."; "Offer the scheduling link.";
      "Walk-ins are welcome."; "Explain wait times.";
      "Late arrivals may be rescheduled."; "Close the call politely." ].

Definition late_doc : Document :=
  mkDocument
    ("  If the patient is more than 15 minutes late, offer to reschedule."
       +:+ nl)
    {[ "chunk_id" := MStr "chunk_007" ]}.

Definition walkin_doc : Document :=
  mkDocument "Walk-ins are welcome during business hours." ∅.

Definition hold_doc : Document :=
  mkDocument "Ask before placing the caller on hold."
             {[ "chunk_id" := MStr "chunk_012" ]}.

Definition directions_doc : Document :=
  mkDocument "Give directions from the main road."
             {[ "chunk_id" := MStr "chunk_015" ]}.

(** A store of four chunks that answers every query with its first [k]
    chunks. *)
Definition sample_store : FAISS :=
  mkFAISS (fun _ k =>
    Ok (take (Z.to_nat k)
          [ (late_doc, 1 # 4); (walkin_doc, 1 # 2); (hold_doc, 3 # 4);
            (directions_doc, 7 # 8) ]%Q)).

Definition empty_store : FAISS := mkFAISS (fun _ _ => Ok []).

(** Default configuration, index on disk. *)
Definition sample_world : World :=
  mkWorld Unset "sop_faiss_index" (String.append "/srv/assistant/")
          (String.append "/root/") (fun _ => true) true (Ok sample_store).

Definition empty_world : World :=
  mkWorld Unset "sop_faiss_index" (String.append "/srv/assistant/")
          (String.append "/root/") (fun _ => true) true (Ok empty_store).

Definition fresh : Globals := mkGlobals None [].

Definition sop_path : Path := mkPath "sop.docx" "/srv/data/sop.docx".

Definition sop_text : Document :=
  mkDocument "Greet the caller. Offer the scheduling link." ∅.

Definition built_store : FAISS := mkFAISS (fun _ _ => Ok []).

(** A build whose collaborators all work, with the outcomes of the
    embedding attempts left open. *)
Definition build_world (attempts : nat -> InitOutcome) : BuildWorld :=
  mkBuildWorld [] (Ok [sop_path]) (fun _ => Ok [sop_text])
    (fun docs => Ok docs) (fun _ => "2024-01-01T00:00:00") attempts
    (fun _ _ => Ok built_store) (Ok tt) true 3 (Ok tt).

(** The first test call returns an empty vector without raising; the
    second returns a vector. *)
Definition empty_then_ok (attempt : nat) : InitOutcome :=
  match attempt with
  | 1 => ClientBuilt (AzureOpenAIEmbeddings 1) (Ok [])
  | _ => ClientBuilt (AzureOpenAIEmbeddings attempt) (Ok [(1 # 10)%Q])
  end.

Definition always_raises (attempt : nat) : InitOutcome :=
  ClientRaises (RuntimeError "connection refused").

Definition raises_then_ok (attempt : nat) : InitOutcome :=
  match attempt with
  | 1 => ClientBuilt (AzureOpenAIEmbeddings 1)
                     (Raise (RuntimeError "timeout"))
  | _ => ClientBuilt (AzureOpenAIEmbeddings attempt) (Ok [(1 # 10)%Q])
  end.

Definition walkin_call : ToolCall :=
  mkToolCall "search_sop_tool" "walk-in policy" "call_1".

Definition walkin_result : ToolOutput :=
  mkToolOutput "[chunk_004] Walk-ins are welcome during business hours."
               "call_1".

(** The model answers at once. *)
Definition plain_world : AgentWorld :=
  mkAgentWorld (fun _ _ => Ok ("Sure, I can help with that.", []))
               (fun _ _ => Ok (Some [])) 25.

(** The model asks for one search, then answers. *)
Definition helpful_world : AgentWorld :=
  mkAgentWorld
    (fun step _ =>
       match step with
       | 0 => Ok ("", [walkin_call])
       | _ => Ok ("Yes, walk-ins are welcome.", [])
       end)
    (fun _ _ => Ok (Some [walkin_result])) 25.

(** The model cannot be reached. *)
Definition offline_world : AgentWorld :=
  mkAgentWorld (fun _ _ => Raise (RuntimeError "Connection error."))
               (fun _ _ => Ok (Some [])) 25.

(** The model asks for a search seven times in a row, then answers. *)
Definition eager_world : AgentWorld :=
  mkAgentWorld
    (fun step _ =>
       if (step <? 14)%nat then Ok ("", [walkin_call])
       else Ok ("Yes, walk-ins are welcome.", []))
    (fun _ _ => Ok (Some [walkin_result])) 25.

(** The model asks for a search; the tool executor raises; the model
    call that follows fails as well, and so on. *)
Definition stuck_world : AgentWorld :=
  mkAgentWorld
    (fun step _ =>
       match step with
       | 0 => Ok ("", [walkin_call])
       | _ => Raise (RuntimeError "Bad request: tool call without result.")
       end)
    (fun _ _ => Raise (RuntimeError "tool crashed")) 25.

(** The history an earlier turn returned. *)
Definition earlier_turn : list Message :=
  [ HumanMessage "Hi, I'd like to schedule an appointment." (Some 2);
    AIMessage "Sure, I can send you the scheduling link." [] (Some 3) ].

(** A history that holds its first message twice. *)
Definition repeated_turn : list Message :=
  [ HumanMessage "Hi, I'd like to schedule an appointment." (Some 2);
    AIMessage "Sure, I can send you the scheduling link." [] (Some 3);
    HumanMessage "Hi, I'd like to schedule an appointment." (Some 2) ].

End Samples.
Import Samples.

(** ** Further notions and samples *)

Module MoreNotions.

(** [isinstance(m, HumanMessage)] and [isinstance(m, AIMessage)] *)
Definition is_human (m : Message) : bool :=
  match m with HumanMessage _ _ => true | _ => false end.

Definition is_ai (m : Message) : bool :=
  match m with AIMessage _ _ _ => true | _ => false end.

(** The place of a position label along a document. *)
Definition position_rank (label : string) : nat :=
  if String.eqb label "beginning" then 0
  else if String.eqb label "middle" then 1 else 2.

(** The keys of the metadata [enrich] writes. *)
Definition ENRICHED_KEYS : gset string :=
  {[ "chunk_id"; "index"; "total_chunks"; "char_count"; "word_count";
     "position"; "source"; "indexed_at" ]}.

(** The first attempt, among those listed, whose test call returns a
    vector that is not empty. *)
Fixpoint first_success (bw : BuildWorld) (attempts : list nat) : option nat :=
  match attempts with
  | [] => None
  | a :: rest =>
      if attempt_failed (init_attempt bw a) then first_success bw rest
      else Some a
  end.

(** The client an attempt builds, if it builds one. *)
Definition client_of (o : InitOutcome) : option Client :=
  match o with
  | ClientBuilt c _ => Some c
  | ClientRaises _ => None
  end.

(** A build world with another outcome of the manifest write. *)
Definition with_write_index_info (bw : BuildWorld) (outcome : Result unit)
  : BuildWorld :=
  mkBuildWorld (missing_vars bw) (find_documents bw) (docx_load bw)
    (split_documents bw) (clock bw) (init_attempt bw) (from_documents bw)
    (save_local bw) (index_files_exist bw) (build_top_k bw) outcome.

(** Every stored history is free of system messages. *)
Definition sessions_clean (sessions : gmap string (list Message)) : Prop :=
  forall session_id history,
    sessions !! session_id = Some history ->
    Forall (fun m => non_system m = true) history.

(** The session a chat request is about, [None] when the request carries
    no message. *)
Definition request_target (data : gmap string string) : option string :=
  if String.eqb (request_message data) "" then None
  else Some (request_session data).

(** The number of chunks that carry a given source. *)
Definition chunks_of_source (source : MetaValue) (chunks : list Document)
  : nat :=
  length (List.filter (fun c => bool_decide (chunk_source c = source)) chunks).

(** The offset of a chunk in its own document, as the specification
    words it: the number of chunks of the same source before it, and the
    number of chunks of that source. *)
Definition offset_in_document (chunks : list Document) (i : nat)
  : option (nat * nat) :=
  match chunks !! i with
  | Some c =>
      Some (chunks_of_source (chunk_source c) (take i chunks),
            chunks_of_source (chunk_source c) chunks)
  | None => None
  end.

(** The label the specification's rule gives that offset. *)
Definition position_in_document (chunks : list Document) (i : nat)
  : option string :=
  match offset_in_document chunks i with
  | Some (k, n) => Some (position_of k n)
  | None => None
  end.

(** No line feed occurs in a string. *)
Fixpoint one_line (s : string) : bool :=
  match s with
  | String c rest => negb (Ascii.eqb c (ascii_of_nat 10)) && one_line rest
  | EmptyString => true
  end.

End MoreNotions.
Import MoreNotions.

Module MoreSamples.

(** The model asks for a search at every call. *)
Definition looping_world : AgentWorld :=
  mkAgentWorld (fun _ _ => Ok ("", [walkin_call]))
               (fun _ _ => Ok (Some [walkin_result])) 25.

(** The model asks for a search, the tool executor raises, and the model
    then answers. *)
Definition recovering_world : AgentWorld :=
  mkAgentWorld
    (fun step _ =>
       match step with
       | 0 => Ok ("", [walkin_call])
       | _ => Ok ("Let me connect you with our staff.", [])
       end)
    (fun _ _ => Raise (RuntimeError "tool crashed")) 25.

(** No index on disk. *)
Definition no_index_world : World :=
  mkWorld Unset "sop_faiss_index" (String.append "/srv/assistant/")
          (String.append "/root/") (fun _ => false) false (Ok sample_store).

(** A text that [int] rejects as top-K. *)
Definition bad_env_world : World :=
  mkWorld (Malformed "three") "sop_faiss_index"
          (String.append "/srv/assistant/") (String.append "/root/")
          (fun _ => true) true (Ok sample_store).

Definition broken_path : Path := mkPath "old.doc" "/srv/data/old.doc".

(** A build with two files, of which the second cannot be read. *)
Definition two_files_world : BuildWorld :=
  mkBuildWorld [] (Ok [sop_path; broken_path])
    (fun p => if String.eqb (path_name p) "sop.docx" then Ok [sop_text]
              else Raise (RuntimeError "not a zip file"))
    (fun docs => Ok docs) (fun _ => "2024-01-01T00:00:00") raises_then_ok
    (fun _ _ => Ok built_store) (Ok tt) true 3 (Ok tt).

(** A build that finds no file. *)
Definition no_files_world : BuildWorld :=
  mkBuildWorld [] (Ok []) (fun _ => Ok [sop_text])
    (fun docs => Ok docs) (fun _ => "2024-01-01T00:00:00") raises_then_ok
    (fun _ _ => Ok built_store) (Ok tt) true 3 (Ok tt).

(** The chunks of a build over two documents, six chunks from each. *)
Definition faq_chunks : list Document :=
  map (fun text => mkDocument text {[ "source" := MStr "faq.docx" ]})
    [ "We are open from 8am to 8pm."; "No appointment is needed.";
      "Most insurance plans are accepted."; "Parking is free.";
      "X-rays are done on site."; "Results are ready in two days." ].

Definition two_documents_chunks : list Document := six_chunks ++ faq_chunks.

Definition chat_request : gmap string string :=
  {[ "message" := "Can I walk in instead?"; "session_id" := "a1b2c3d4" ]}.

Definition one_session : gmap string (list Message) :=
  {[ "a1b2c3d4" := earlier_turn ]}.

Definition working_speech : Speech :=
  mkSpeech (fun _ => Ok "mp3-bytes") (fun b => "base64:" +:+ b).

Definition failing_speech : Speech :=
  mkSpeech (fun _ => Raise (RuntimeError "quota exceeded"))
           (fun b => "base64:" +:+ b).

End MoreSamples.
Import MoreSamples.

(** ** Decimal rendering *)

Module PyFacts.

Lemma read_nat_zero s : read_nat (String "0" s) = read_nat s.
Proof.
  unfold read_nat. simpl.
  destruct (NilEmpty.uint_of_string s) as [d|]; reflexivity.
Qed.

Lemma append_String c s t : String c s +:+ t = String c (s +:+ t).
Proof. reflexivity. Qed.

Lemma read_nat_zeros k s : read_nat (zeros k +:+ s) = read_nat s.
Proof.
  induction k as [|k IH]; [reflexivity|].
  cbn [zeros]. rewrite append_String, read_nat_zero. exact IH.
Qed.

Lemma read_str_nat n : read_nat (str_nat n) = Some n.
Proof.
  unfold read_nat, str_nat. rewrite NilEmpty.usu. simpl.
  f_equal. apply Unsigned.of_to.
Qed.

Lemma read_format_0d width n : read_nat (format_0d width n) = Some n.
Proof. unfold format_0d. rewrite read_nat_zeros. apply read_str_nat. Qed.

Lemma format_0d_inj width n m :
  format_0d width n = format_0d width m -> n = m.
Proof.
  intros H. apply (f_equal read_nat) in H.
  rewrite !read_format_0d in H. congruence.
Qed.

End PyFacts.

(** ** The metadata enricher *)

Module EnricherFacts.
Import PyFacts.

Lemma chunk_number_format n :
  chunk_number ("chunk_" +:+ format_0d 3 n) = Some n.
Proof. unfold chunk_number. simpl. apply read_format_0d. Qed.

Lemma enumerate_lookup {A} (l : list A) start i :
  enumerate start l !! i = option_map (pair (start + i)) (l !! i).
Proof.
  revert start i. induction l as [|x l IH]; intros start i.
  - destruct i; reflexivity.
  - destruct i as [|i]; simpl.
    + rewrite Nat.add_0_r. reflexivity.
    + rewrite IH. rewrite Nat.add_succ_r. reflexivity.
Qed.

Lemma map_lookup {A B} (f : A -> B) (l : list A) i :
  map f l !! i = option_map f (l !! i).
Proof.
  revert i. induction l as [|x l IH]; intros [|i]; simpl; auto.
Qed.

Lemma enumerate_length {A} (l : list A) start :
  length (enumerate start l) = length l.
Proof.
  revert start. induction l as [|x l IH]; intros start; simpl; auto.
Qed.

Lemma enrich_lookup now chunks i :
  enrich now chunks !! i =
  option_map (enrich_chunk now (length chunks) i) (chunks !! i).
Proof.
  unfold enrich. rewrite map_lookup, enumerate_lookup.
  destruct (chunks !! i); reflexivity.
Qed.

Lemma enrich_length now chunks :
  length (enrich now chunks) = length chunks.
Proof. unfold enrich. rewrite length_map. apply enumerate_length. Qed.

(** The percentage as one fraction. *)
Lemma position_pct_lt_20 i n :
  0 < n -> Qlt_bool (position_pct i n) 20 = true <-> 5 * i < n.
Proof.
  intros Hn. unfold Qlt_bool. rewrite negb_true_iff.
  rewrite <- not_true_iff_false, Qle_bool_iff.
  destruct n as [|m]; [lia|].
  unfold position_pct, Qle, Qdiv, Qmult, Qinv, inject_Z; simpl.
  lia.
Qed.

Lemma position_pct_gt_80 i n :
  0 < n -> Qlt_bool 80 (position_pct i n) = true <-> 4 * n < 5 * i.
Proof.
  intros Hn. unfold Qlt_bool. rewrite negb_true_iff.
  rewrite <- not_true_iff_false, Qle_bool_iff.
  destruct n as [|m]; [lia|].
  unfold position_pct, Qle, Qdiv, Qmult, Qinv, inject_Z; simpl.
  lia.
Qed.

End EnricherFacts.

Module EnricherProofs.
Import PyFacts EnricherFacts.

Lemma Qlt_bool_iff x y : Qlt_bool x y = true <-> (x < y)%Q.
Proof.
  unfold Qlt_bool. rewrite negb_true_iff, <- not_true_iff_false, Qle_bool_iff.
  split; [apply Qnot_le_lt | apply Qlt_not_le].
Qed.

Lemma position_of_cases i n :
  ((position_pct i n < 20)%Q -> position_of i n = "beginning") /\
  ((80 < position_pct i n)%Q -> position_of i n = "end") /\
  ((20 <= position_pct i n)%Q -> (position_pct i n <= 80)%Q ->
   position_of i n = "middle").
Proof.
  unfold position_of.
  destruct (Qlt_bool (position_pct i n) 20) eqn:Hb;
    destruct (Qlt_bool 80 (position_pct i n)) eqn:He.
  all: try apply Qlt_bool_iff in Hb; try apply Qlt_bool_iff in He.
  all: repeat split; intros; try reflexivity.
  all: try (exfalso; eapply Qlt_irrefl, Qlt_trans;
            [exact Hb | eapply Qlt_trans; [|exact He]; reflexivity]).
  all: try (exfalso; eapply Qlt_not_le; eassumption).
  all: try (apply not_true_iff_false in Hb; exfalso; apply Hb;
            apply Qlt_bool_iff; assumption).
  all: try (apply not_true_iff_false in He; exfalso; apply He;
            apply Qlt_bool_iff; assumption).
Qed.

(** C5.  Every chunk that [enrich] produces carries a ["position"] entry
    decided by its fractional offset [i / total_chunks] in the chunk
    sequence of the build, all documents together, taken as a percentage:
    ["beginning"] when the offset is below 20, ["end"] when it is above
    80, ["middle"] otherwise.  With [n] chunks the two tests amount to
    [5 * i < n] and [4 * n < 5 * i]. *)
Theorem enrich_position_bucket now chunks i e :
  enrich now chunks !! i = Some e ->
  let n := length chunks in
  let pct := position_pct i n in
  ((pct < 20)%Q -> metadata e !! "position" = Some (MStr "beginning")) /\
  ((80 < pct)%Q -> metadata e !! "position" = Some (MStr "end")) /\
  ((20 <= pct)%Q -> (pct <= 80)%Q ->
   metadata e !! "position" = Some (MStr "middle")) /\
  ((pct < 20)%Q <-> 5 * i < n) /\
  ((80 < pct)%Q <-> 4 * n < 5 * i).
Proof.
  intros He n pct. rewrite enrich_lookup in He.
  destruct (chunks !! i) as [c|] eqn:Hc; [|discriminate].
  injection He as <-.
  assert (Hn : 0 < n) by (apply lookup_lt_Some in Hc; subst n; lia).
  assert (Hpos : metadata (enrich_chunk now n i c) !! "position"
                 = Some (MStr (position_of i n))) by reflexivity.
  destruct (position_of_cases i n) as (Hb & Hend & Hmid).
  fold n. rewrite Hpos.
  repeat split.
  - intros H. rewrite (Hb H). reflexivity.
  - intros H. rewrite (Hend H). reflexivity.
  - intros H1 H2. rewrite (Hmid H1 H2). reflexivity.
  - intros H. apply position_pct_lt_20; [exact Hn|]. apply Qlt_bool_iff, H.
  - intros H. apply Qlt_bool_iff, position_pct_lt_20; assumption.
  - intros H. apply position_pct_gt_80; [exact Hn|]. apply Qlt_bool_iff, H.
  - intros H. apply Qlt_bool_iff, position_pct_gt_80; assumption.
Qed.

End EnricherProofs.

Module EnricherExamples.
Import PyFacts EnricherFacts EnricherProofs.

Example six_chunks_positions :
  map (fun d => metadata d !! "position") (enrich sample_clock six_chunks)
  = map (fun s => Some (MStr s))
      [ "beginning"; "beginning"; "middle"; "middle"; "middle"; "end" ].
Proof. reflexivity. Qed.

(** With five chunks the last one starts at exactly 80 percent and is
    still a middle chunk. *)
Example five_chunks_positions :
  map (fun d => metadata d !! "position")
      (enrich sample_clock (take 5 six_chunks))
  = map (fun s => Some (MStr s))
      [ "beginning"; "middle"; "middle"; "middle"; "middle" ].
Proof. reflexivity. Qed.

(** C5.  The offset is not taken in the chunk's document.  In a build
    over two documents of six chunks each, the last chunk of the first
    document lies in the last 20% of its document (place 5 of 6) and the
    first chunk of the second document in the first 20% of its own
    (place 0 of 6), yet [enrich] labels both ["middle"]: they are at
    places 5 and 6 of the 12 chunks of the build. *)
Example position_is_not_per_document :
  (offset_in_document two_documents_chunks 5 = Some (5, 6) /\
   position_in_document two_documents_chunks 5 = Some "end" /\
   (exists e, enrich sample_clock two_documents_chunks !! 5 = Some e /\
              metadata e !! "source" = Some (MStr "sop.docx") /\
              metadata e !! "position" = Some (MStr "middle"))) /\
  (offset_in_document two_documents_chunks 6 = Some (0, 6) /\
   position_in_document two_documents_chunks 6 = Some "beginning" /\
   (exists e, enrich sample_clock two_documents_chunks !! 6 = Some e /\
              metadata e !! "source" = Some (MStr "faq.docx") /\
              metadata e !! "position" = Some (MStr "middle"))).
Proof.
  split; (split; [reflexivity|]; split; [reflexivity|]);
    eexists; (split; [reflexivity|]); split; reflexivity.
Qed.

Lemma enrich_position_bucket_witness :
  exists e, enrich sample_clock six_chunks !! 5 = Some e /\
            metadata e !! "position" = Some (MStr "end").
Proof.
  eexists. split; [reflexivity|].
  apply (enrich_position_bucket sample_clock six_chunks 5 _ eq_refl).
  reflexivity.
Defined.

End EnricherExamples.

Module EnricherIds.
Import PyFacts EnricherFacts.

Lemma enrich_chunk_id now n i c :
  chunk_id (enrich_chunk now n i c)
  = Some ("chunk_" +:+ format_0d 3 (i + 1)).
Proof. reflexivity. Qed.

Lemma enrich_chunk_char_count now n i c :
  metadata (enrich_chunk now n i c) !! "char_count"
  = Some (MInt (Z.of_nat (String.length
                            (page_content (enrich_chunk now n i c))))).
Proof. reflexivity. Qed.

Lemma enrich_chunk_index now n i c :
  metadata (enrich_chunk now n i c) !! "index"
  = Some (MInt (Z.of_nat (i + 1))).
Proof. reflexivity. Qed.

Lemma enrich_lookup_inv now chunks i e :
  enrich now chunks !! i = Some e ->
  exists c, chunks !! i = Some c /\
            e = enrich_chunk now (length chunks) i c.
Proof.
  rewrite enrich_lookup. destruct (chunks !! i) as [c|]; [|discriminate].
  intros [= <-]. eauto.
Qed.

(** The number rendered in the id of the chunk at place [i] is [i + 1]. *)
Lemma enrich_number now chunks i e :
  enrich now chunks !! i = Some e ->
  exists id, chunk_id e = Some id /\ chunk_number id = Some (i + 1).
Proof.
  intros (c & _ & ->)%enrich_lookup_inv.
  rewrite enrich_chunk_id. eexists. split; [reflexivity|].
  apply chunk_number_format.
Qed.

(** C6.  In the list [enrich] returns, every chunk has
    [char_count = len(content)]; the chunk at place [i] of the sequence
    has the id ["chunk_"] followed by the number [i + 1] (three digits at
    least) and the index [i + 1]; hence the ids are pairwise distinct and
    their numbers grow strictly along the sequence. *)
Theorem enrich_ids_unique_monotonic now chunks :
  let enriched := enrich now chunks in
  (forall i e, enriched !! i = Some e ->
     page_content e = default "" (page_content <$> chunks !! i) /\
     metadata e !! "char_count"
       = Some (MInt (Z.of_nat (String.length (page_content e)))) /\
     metadata e !! "index" = Some (MInt (Z.of_nat (i + 1))) /\
     chunk_id e = Some ("chunk_" +:+ format_0d 3 (i + 1))) /\
  NoDup (map chunk_id enriched) /\
  (forall i j ei ej idi idj ni nj,
     enriched !! i = Some ei -> enriched !! j = Some ej -> i < j ->
     chunk_id ei = Some idi -> chunk_id ej = Some idj ->
     chunk_number idi = Some ni -> chunk_number idj = Some nj ->
     idi <> idj /\ ni < nj).
Proof.
  intros enriched. split; [|split].
  - intros i e (c & Hc & ->)%enrich_lookup_inv. rewrite Hc.
    repeat split.
  - apply NoDup_alt. intros i j x Hi Hj.
    rewrite map_lookup in Hi, Hj.
    destruct (enriched !! i) as [ei|] eqn:Ei; [|discriminate].
    destruct (enriched !! j) as [ej|] eqn:Ej; [|discriminate].
    apply enrich_lookup_inv in Ei as (ci & _ & ->).
    apply enrich_lookup_inv in Ej as (cj & _ & ->).
    cbn [option_map] in Hi, Hj. rewrite enrich_chunk_id in Hi, Hj.
    rewrite <- Hj in Hi.
    apply (f_equal (fun o => match o with
                             | Some (Some id) => chunk_number id
                             | _ => None
                             end)) in Hi.
    rewrite !chunk_number_format in Hi. injection Hi. lia.
  - intros i j ei ej idi idj ni nj Hi Hj Hlt Hidi Hidj Hni Hnj.
    apply enrich_number in Hi as (idi' & Hi1 & Hi2).
    apply enrich_number in Hj as (idj' & Hj1 & Hj2).
    assert (idi' = idi) by congruence. assert (idj' = idj) by congruence.
    subst. assert (ni = i + 1) by congruence.
    assert (nj = j + 1) by congruence. subst.
    split; [|lia]. intros ->. rewrite Hi2 in Hj2. injection Hj2. lia.
Qed.

End EnricherIds.

(** ** The retriever and the two tools *)

Module RetrieverFacts.

Lemma or_int_None b : or_int None b = b.
Proof. reflexivity. Qed.

Lemma or_int_zero b : or_int (Some 0%Z) b = b.
Proof. reflexivity. Qed.

Lemma or_int_same b : or_int (Some b) b = b.
Proof. unfold or_int. destruct (b =? 0)%Z; reflexivity. Qed.

(** Loading the store never touches the record of searches. *)
Lemma get_vectorstore_calls w g r g' :
  SopService.get_vectorstore w g = (r, g') ->
  store_calls g' = store_calls g.
Proof.
  unfold SopService.get_vectorstore.
  destruct (_vectorstore g); [intros [= _ <-]; reflexivity|].
  destruct (get_index_path w); [|intros [= _ <-]; reflexivity].
  destruct (negb (index_faiss_exists w)); [intros [= _ <-]; reflexivity|].
  destruct (load_local w); intros [= _ <-]; reflexivity.
Qed.

(** Both entry points are a function of the effective [k] alone. *)
Lemma get_retriever_k w a b g :
  (forall c, or_int a c = or_int b c) ->
  get_retriever w a g = get_retriever w b g.
Proof.
  intros H. unfold get_retriever, bind, lift.
  destruct (get_config w) as [config|e]; [|reflexivity].
  rewrite H. reflexivity.
Qed.

Lemma search_sop_with_scores_k w query a b g :
  (forall c, or_int a c = or_int b c) ->
  search_sop_with_scores w query a g = search_sop_with_scores w query b g.
Proof.
  intros H. unfold search_sop_with_scores, bind, lift.
  destruct (get_config w) as [config|e]; [|reflexivity].
  rewrite H. reflexivity.
Qed.

(** A default search that goes through: the documents of the scored
    results, one search recorded with the configured [k]. *)
Lemma search_sop_default w query g config vs g1 scored :
  get_config w = Ok config ->
  SopService.get_vectorstore w g = (Ok vs, g1) ->
  similarity_search_with_score vs query (cfg_top_k config) = Ok scored ->
  search_sop w query None g
  = (Ok (map fst scored),
     mkGlobals (_vectorstore g1)
               (store_calls g ++ [(query, cfg_top_k config)])).
Proof.
  intros Hc Hv Hs.
  unfold search_sop, get_retriever, retriever_invoke, store_search,
    bind, lift, ret.
  rewrite Hc, Hv. cbn. rewrite Hs.
  rewrite (get_vectorstore_calls _ _ _ _ Hv). reflexivity.
Qed.

End RetrieverFacts.

Module RetrieverProofs.
Import RetrieverFacts.

(** C10.  [get_retriever] and [search_sop_with_scores] treat [top_k = 0]
    as [top_k = None]: the two calls are the same computation, which is
    also the one obtained by passing the configured top-K itself; the
    retriever built carries the configured top-K, the store is asked for
    that many results, and under the default configuration that number
    is 3. *)
Theorem falsy_top_k_is_default w query g :
  get_retriever w (Some 0%Z) g = get_retriever w None g /\
  search_sop_with_scores w query (Some 0%Z) g
    = search_sop_with_scores w query None g /\
  (forall config, get_config w = Ok config ->
     get_retriever w (Some 0%Z) g
       = get_retriever w (Some (cfg_top_k config)) g /\
     search_sop_with_scores w query (Some 0%Z) g
       = search_sop_with_scores w query (Some (cfg_top_k config)) g /\
     (forall r g', get_retriever w (Some 0%Z) g = (Ok r, g') ->
        search_kwargs_k r = cfg_top_k config) /\
     (forall res g',
        search_sop_with_scores w query (Some 0%Z) g = (Ok res, g') ->
        store_calls g' = store_calls g ++ [(query, cfg_top_k config)]) /\
     (SOP_RETRIEVAL_TOP_K w = Unset -> cfg_top_k config = 3%Z) /\
     (cfg_top_k config <> 0%Z ->
      or_int (Some 0%Z) (cfg_top_k config) <> 0%Z)).
Proof.
  split; [apply get_retriever_k; reflexivity|].
  split; [apply search_sop_with_scores_k; reflexivity|].
  intros config Hc. repeat split.
  - unfold get_retriever, bind, lift. rewrite Hc.
    rewrite or_int_zero, or_int_same. reflexivity.
  - unfold search_sop_with_scores, bind, lift. rewrite Hc.
    rewrite or_int_zero, or_int_same. reflexivity.
  - intros r g'. unfold get_retriever, bind, lift, ret. rewrite Hc.
    destruct (SopService.get_vectorstore w g) as [[vs|e] g1];
      intros [= <- _]; reflexivity.
  - intros res g'.
    unfold search_sop_with_scores, bind, lift, store_search. rewrite Hc.
    destruct (SopService.get_vectorstore w g) as [[vs|e] g1] eqn:Hv;
      [|discriminate].
    intros [= _ <-]. cbn.
    rewrite (get_vectorstore_calls _ _ _ _ Hv). reflexivity.
  - intros Hu. unfold get_config in Hc. rewrite Hu in Hc.
    injection Hc as <-. reflexivity.
  - rewrite or_int_zero. auto.
Qed.

End RetrieverProofs.

Module ToolProofs.
Import PyFacts EnricherFacts RetrieverFacts.

Lemma result_block_block_of i doc :
  result_block (1 + i) doc = block_of i doc.
Proof.
  unfold result_block, block_of, chunk_id.
  rewrite (Nat.add_comm i 1).
  destruct (metadata doc !! "chunk_id"); reflexivity.
Qed.

(** C8.  When the default search goes through, [search_sop_tool] returns
    a string.  For an empty result it is the fixed sentence
    ["No relevant procedures found for this query."]; otherwise it is the
    blocks of the retrieved chunks, in the order retrieved and joined by
    the separator, the block of a chunk being its id between square
    brackets, a line feed and its stripped content.  There are as many
    blocks as chunks retrieved, hence at most top-K when the store
    returns no more than it was asked for. *)
Theorem search_sop_tool_format w query g config vs g1 scored :
  get_config w = Ok config ->
  SopService.get_vectorstore w g = (Ok vs, g1) ->
  similarity_search_with_score vs query (cfg_top_k config) = Ok scored ->
  (Z.of_nat (length scored) <= cfg_top_k config)%Z ->
  exists text,
    search_sop_tool w query g
    = (Ok text,
       mkGlobals (_vectorstore g1)
                 (store_calls g ++ [(query, cfg_top_k config)])) /\
    (scored = [] -> text = NO_RESULTS) /\
    (scored <> [] ->
     exists blocks,
       text = join separator blocks /\
       length blocks = length scored /\
       (Z.of_nat (length blocks) <= cfg_top_k config)%Z /\
       forall i doc score,
         scored !! i = Some (doc, score) ->
         blocks !! i = Some (block_of i doc)).
Proof.
  intros Hc Hv Hs Hk. unfold search_sop_tool, bind.
  rewrite (search_sop_default _ _ _ _ _ _ _ Hc Hv Hs).
  assert (Hlen : length (map (fun '(i, doc) => result_block i doc)
                           (enumerate 1 (map fst scored)))
                 = length scored)
    by (rewrite length_map, enumerate_length, length_map; reflexivity).
  assert (Hblk : forall i doc score,
             scored !! i = Some (doc, score) ->
             map (fun '(i, doc) => result_block i doc)
                 (enumerate 1 (map fst scored)) !! i
             = Some (block_of i doc)).
  { intros i doc score Hi.
    rewrite map_lookup, enumerate_lookup, map_lookup, Hi. cbn.
    rewrite result_block_block_of. reflexivity. }
  destruct scored as [|[d s] rest].
  - eexists. split; [reflexivity|]. split; [reflexivity|]. congruence.
  - eexists. split; [reflexivity|]. split; [discriminate|]. intros _.
    eexists. split; [reflexivity|].
    split; [exact Hlen|]. split; [rewrite Hlen; exact Hk|]. exact Hblk.
Qed.

(** C7, as the code has it.  [get_procedure] looks the lowercased topic up
    in the fixed table and searches for the entry found, or for the topic
    as given when there is none.  It sends one search, which asks for the
    configured top-K results (not for one), and uses the first result
    only: the answer is ["Procedure for '<topic>':"], an empty line and
    the stripped content of the top chunk, or
    ["No procedure found for topic: <topic>"] when nothing is returned. *)
Theorem get_procedure_result w topic g config vs g1 scored :
  get_config w = Ok config ->
  SopService.get_vectorstore w g = (Ok vs, g1) ->
  similarity_search_with_score vs (search_query topic) (cfg_top_k config)
    = Ok scored ->
  (forall q, topic_queries !! lower topic = Some q ->
             search_query topic = q) /\
  (topic_queries !! lower topic = None -> search_query topic = topic) /\
  exists text,
    get_procedure w topic g
    = (Ok text,
       mkGlobals (_vectorstore g1)
         (store_calls g ++ [(search_query topic, cfg_top_k config)])) /\
    (scored = [] -> text = "No procedure found for topic: " +:+ topic) /\
    (forall doc score rest, scored = (doc, score) :: rest ->
       text = "Procedure for '" +:+ topic +:+ "':" +:+ nl +:+ nl
              +:+ strip (page_content doc)).
Proof.
  intros Hc Hv Hs.
  split; [intros q Hq; unfold search_query; rewrite Hq; reflexivity|].
  split; [intros Hq; unfold search_query; rewrite Hq; reflexivity|].
  unfold get_procedure, bind.
  rewrite (search_sop_default _ _ _ _ _ _ _ Hc Hv Hs).
  destruct scored as [|[d s] rest].
  - eexists. split; [reflexivity|]. split; [reflexivity|]. discriminate.
  - eexists. split; [reflexivity|]. split; [discriminate|].
    intros doc score rest' [= <- _ _]. reflexivity.
Qed.

End ToolProofs.

Module ToolExamples.
Import PyFacts EnricherFacts RetrieverFacts ToolProofs.

Example search_tool_three_blocks :
  fst (search_sop_tool sample_world "late policy" fresh)
  = Ok ("[chunk_007]" +:+ nl
          +:+ "If the patient is more than 15 minutes late, offer to reschedule."
          +:+ separator
          +:+ "[result_2]" +:+ nl
          +:+ "Walk-ins are welcome during business hours."
          +:+ separator
          +:+ "[chunk_012]" +:+ nl
          +:+ "Ask before placing the caller on hold.").
Proof. reflexivity. Qed.

Example search_tool_no_results :
  fst (search_sop_tool empty_world "late policy" fresh)
  = Ok "No relevant procedures found for this query.".
Proof. reflexivity. Qed.

Example search_query_ignores_case :
  search_query "Late Arrival" = "late arrival 15 minute policy running late".
Proof. reflexivity. Qed.

Example search_query_falls_back :
  search_query "insurance" = "insurance".
Proof. reflexivity. Qed.

Example get_procedure_late_arrival :
  fst (get_procedure sample_world "late arrival" fresh)
  = Ok ("Procedure for 'late arrival':" +:+ nl +:+ nl
          +:+ "If the patient is more than 15 minutes late, offer to reschedule.").
Proof. reflexivity. Qed.

Example get_procedure_empty_index :
  fst (get_procedure empty_world "late arrival" fresh)
  = Ok "No procedure found for topic: late arrival".
Proof. reflexivity. Qed.

Lemma search_sop_tool_format_witness :
  exists text,
    fst (search_sop_tool sample_world "late policy" fresh) = Ok text /\
    exists blocks, text = join separator blocks /\ length blocks = 3.
Proof.
  destruct (search_sop_tool_format sample_world "late policy" fresh
              (mkConfig "sop_faiss_index" 3) sample_store
              (mkGlobals (Some sample_store) [])
              [ (late_doc, 1 # 4); (walkin_doc, 1 # 2); (hold_doc, 3 # 4) ]%Q
              eq_refl eq_refl eq_refl)
    as (text & Hrun & _ & Hblocks).
  - vm_compute. discriminate.
  - exists text. split; [rewrite Hrun; reflexivity|].
    destruct Hblocks as (blocks & Htext & Hlen & _); [discriminate|].
    exists blocks. split; assumption.
Defined.

Lemma get_procedure_result_witness :
  exists text,
    get_procedure sample_world "late arrival" fresh
    = (Ok text,
       mkGlobals (Some sample_store)
         [("late arrival 15 minute policy running late", 3%Z)]) /\
    text = "Procedure for 'late arrival':" +:+ nl +:+ nl
           +:+ strip (page_content late_doc).
Proof.
  destruct (get_procedure_result sample_world "late arrival" fresh
              (mkConfig "sop_faiss_index" 3) sample_store
              (mkGlobals (Some sample_store) [])
              [ (late_doc, 1 # 4); (walkin_doc, 1 # 2); (hold_doc, 3 # 4) ]%Q
              eq_refl eq_refl eq_refl)
    as (_ & _ & text & Hrun & _ & Htop).
  exists text. split; [exact Hrun|]. eapply Htop. reflexivity.
Defined.

(** C7 as stated fails: on the default configuration the one search that
    [get_procedure] sends asks for three results, not for a single one. *)
Lemma get_procedure_search_is_not_single_result :
  store_calls (snd (get_procedure sample_world "late arrival" fresh))
    = [("late arrival 15 minute policy running late", 3%Z)] /\
  ~ (forall w topic g q k,
       In (q, k) (store_calls (snd (get_procedure w topic g))) ->
       In (q, k) (store_calls g) \/ k = 1%Z).
Proof.
  split; [reflexivity|].
  intros H.
  destruct (H sample_world "late arrival" fresh
              "late arrival 15 minute policy running late" 3%Z)
    as [[]|Hk]; [left; reflexivity | discriminate].
Qed.

End ToolExamples.

(** ** Embedding initialisation and the build run *)

Module BuildFacts.

Ltac run_init :=
  unfold initialize, initialize_loop, bind, emit, after_failure,
    set_embeddings, ret, MAX_RETRIES, RETRY_DELAY; cbn.

Ltac case_attempt bw n :=
  let c := fresh "client" in
  let v := fresh "vector" in
  destruct (init_attempt bw n) as [? | c [[|? v] | ?]]; cbn.

(** [initialize] only adds steps, never raises, and its three attempts
    are numbered 1, 2, 3. *)
Lemma initialize_events bw s :
  exists new,
    events (snd (initialize bw s)) = events s ++ new /\
    length (List.filter is_attempt new) <= MAX_RETRIES /\
    List.filter is_save new = [] /\
    (forall n, In (Sleep n) new -> n = RETRY_DELAY) /\
    exists b, fst (initialize bw s) = Ok b.
Proof.
  run_init.
  case_attempt bw 1; try case_attempt bw 2; try case_attempt bw 3.
  all: rewrite <- ?app_assoc; cbn.
  all: eexists; split; [reflexivity|]; cbn.
  all: split; [lia|]; split; [reflexivity|].
  all: split; [intros n Hn; cbn in Hn; intuition congruence|].
  all: eexists; reflexivity.
Qed.

Lemma initialize_all_fail bw s :
  (forall a, 1 <= a <= MAX_RETRIES ->
             attempt_failed (init_attempt bw a) = true) ->
  fst (initialize bw s) = Ok false.
Proof.
  intros H.
  pose proof (H 1 ltac:(unfold MAX_RETRIES; lia)) as H1.
  pose proof (H 2 ltac:(unfold MAX_RETRIES; lia)) as H2.
  pose proof (H 3 ltac:(unfold MAX_RETRIES; lia)) as H3.
  revert H1 H2 H3. run_init.
  case_attempt bw 1; try discriminate; intros _.
  all: case_attempt bw 2; try discriminate; intros _.
  all: case_attempt bw 3; try discriminate; intros _.
  all: reflexivity.
Qed.

(** When every attempt raises, a delay of two seconds separates the
    attempts. *)
Lemma initialize_all_raise bw s :
  (forall a, 1 <= a <= MAX_RETRIES ->
             attempt_raised (init_attempt bw a) = true) ->
  events (snd (initialize bw s))
  = events s ++ [ InitAttempt 1; Sleep 2; InitAttempt 2; Sleep 2;
                  InitAttempt 3 ].
Proof.
  intros H.
  pose proof (H 1 ltac:(unfold MAX_RETRIES; lia)) as H1.
  pose proof (H 2 ltac:(unfold MAX_RETRIES; lia)) as H2.
  pose proof (H 3 ltac:(unfold MAX_RETRIES; lia)) as H3.
  revert H1 H2 H3. run_init.
  case_attempt bw 1; try discriminate; intros _.
  all: case_attempt bw 2; try discriminate; intros _.
  all: case_attempt bw 3; try discriminate; intros _.
  all: rewrite <- ?app_assoc; reflexivity.
Qed.

(** X16.  A run whose three attempts fail writes no index, and it does
    not return [True]: it returns [False], unless an exception left it
    before the embedding step was reached, raised by the document
    discovery or by the chunking step. *)
Lemma run_aborts_when_init_fails bw s :
  (forall a, 1 <= a <= MAX_RETRIES ->
             attempt_failed (init_attempt bw a) = true) ->
  List.filter is_save (drop (length (events s)) (events (snd (run bw s))))
    = [] /\
  fst (run bw s) <> Ok true /\
  (fst (run bw s) = Ok false \/
   (exists e, fst (run bw s) = Raise e /\ find_documents bw = Raise e) \/
   (exists e doc_paths,
      fst (run bw s) = Raise e /\
      find_documents bw = Ok doc_paths /\
      split_documents bw (load bw doc_paths) = Raise e)).
Proof.
  intros H.
  pose proof (initialize_all_fail bw s H) as Hinit.
  destruct (initialize_events bw s) as (new & Hev & _ & Hsave & _ & _).
  unfold run, bind, lift, ret.
  destruct (negb (length (missing_vars bw) =? 0)%nat) eqn:Hm.
  { cbn. rewrite drop_all.
    split; [reflexivity|]. split; [discriminate | left; reflexivity]. }
  destruct (find_documents bw) as [[|p ps]|e] eqn:Hf.
  { cbn. rewrite drop_all.
    split; [reflexivity|]. split; [discriminate | left; reflexivity]. }
  2:{ cbn. rewrite drop_all. split; [reflexivity|]. split; [discriminate|].
      right. left. exists e. split; reflexivity. }
  destruct (load bw (p :: ps)) as [|d ds] eqn:Hl.
  { cbn. rewrite drop_all.
    split; [reflexivity|]. split; [discriminate | left; reflexivity]. }
  destruct (split_documents bw (d :: ds)) as [chunks|e] eqn:Hsp.
  2:{ cbn. rewrite drop_all. split; [reflexivity|]. split; [discriminate|].
      right. right. exists e, (p :: ps).
      split; [reflexivity|]. split; [reflexivity|]. rewrite Hl. exact Hsp. }
  destruct (initialize bw s) as [r s'] eqn:Hrun.
  cbn in Hinit, Hev. subst r. cbn.
  rewrite Hev, drop_app_length.
  split; [exact Hsave|]. split; [discriminate | left; reflexivity].
Qed.

End BuildFacts.

Module BuildExamples.
Import BuildFacts.

Example retry_after_exception_sleeps :
  events (snd (initialize (build_world raises_then_ok) initial_state))
  = [InitAttempt 1; Sleep 2; InitAttempt 2].
Proof. reflexivity. Qed.

Example three_failures_abort :
  run (build_world always_raises) initial_state
  = (Ok false,
     mkBuildState None None
       [InitAttempt 1; Sleep 2; InitAttempt 2; Sleep 2; InitAttempt 3]).
Proof. reflexivity. Qed.

Example good_build_saves :
  fst (run (build_world raises_then_ok) initial_state) = Ok true /\
  events (snd (run (build_world raises_then_ok) initial_state))
  = [InitAttempt 1; Sleep 2; InitAttempt 2; SaveLocal; WriteIndexInfo].
Proof. split; reflexivity. Qed.

(** C9, at the input where the code departs from it.  The first attempt
    fails because the test vector is empty; the second attempt follows at
    once, with no delay in between, and succeeds. *)
Theorem initialize_retries_empty_vector_without_delay :
  initialize (build_world empty_then_ok) initial_state
  = (Ok true,
     mkBuildState (Some (AzureOpenAIEmbeddings 2)) None
                  [InitAttempt 1; InitAttempt 2]).
Proof. reflexivity. Qed.

End BuildExamples.

(** ** The agent graph *)

Module ReducerFacts.

Lemma with_id_id m i : message_id (with_id m i) = Some i.
Proof. destruct m; reflexivity. Qed.

Lemma with_id_is_system m i : is_system (with_id m i) = is_system m.
Proof. destruct m; reflexivity. Qed.

Lemma with_id_assistant_or_tool m i :
  assistant_or_tool (with_id m i) = assistant_or_tool m.
Proof. destruct m; reflexivity. Qed.

Lemma keeps_refl m : keeps m m.
Proof. left. reflexivity. Qed.

Lemma keeps_is_system old new : keeps old new -> is_system new = is_system old.
Proof.
  intros [-> | (_ & i & ->)]; [reflexivity | apply with_id_is_system].
Qed.

Lemma keeps_identified old new :
  is_Some (message_id old) -> keeps old new -> new = old.
Proof.
  intros [k Hk] [-> | (Hnone & _)]; [reflexivity | congruence].
Qed.

Lemma Forall2_keeps_refl l : Forall2 keeps l l.
Proof. induction l; constructor; auto using keeps_refl. Qed.

Lemma Forall2_keeps_identified l l' :
  Forall (fun m => is_Some (message_id m)) l -> Forall2 keeps l l' -> l' = l.
Proof.
  intros Hl H. induction H as [|m m' l l' Hm _ IH]; [reflexivity|].
  apply Forall_cons in Hl as [Hm0 Hl].
  rewrite (keeps_identified _ _ Hm0 Hm), (IH Hl). reflexivity.
Qed.

Lemma Forall2_keeps_filter l l' :
  Forall2 keeps l l' ->
  Forall2 keeps (List.filter non_system l) (List.filter non_system l').
Proof.
  induction 1 as [|m m' l l' Hm _ IH]; [constructor|].
  cbn [List.filter].
  replace (non_system m') with (non_system m)
    by (unfold non_system; rewrite (keeps_is_system _ _ Hm); reflexivity).
  destruct (non_system m); [constructor; assumption | exact IH].
Qed.

(** *** Ids of a list *)

Lemma ids_cons m l :
  ids (m :: l)
  = match message_id m with Some k => k :: ids l | None => ids l end.
Proof. reflexivity. Qed.

Lemma ids_app l1 l2 : ids (l1 ++ l2) = ids l1 ++ ids l2.
Proof. apply omap_app. Qed.

Lemma ids_snoc l m k : message_id m = Some k -> ids (l ++ [m]) = ids l ++ [k].
Proof. intros H. rewrite ids_app, (ids_cons m []), H. reflexivity. Qed.

Lemma ids_none l : Forall (fun m => message_id m = None) l -> ids l = [].
Proof.
  induction 1 as [|m l Hm _ IH]; [reflexivity|].
  rewrite ids_cons, Hm. exact IH.
Qed.

Lemma elem_of_ids k l :
  k ∈ ids l <-> exists j m, l !! j = Some m /\ message_id m = Some k.
Proof.
  unfold ids. rewrite list_elem_of_omap. split.
  - intros (m & Hm & Hk). apply list_elem_of_lookup in Hm as [j Hj]. eauto.
  - intros (j & m & Hj & Hk). exists m. split; [|exact Hk].
    eapply list_elem_of_lookup_2, Hj.
Qed.

Lemma ids_insert l j m m0 :
  l !! j = Some m0 -> message_id m0 = message_id m ->
  ids (<[j := m]> l) = ids l.
Proof.
  revert j. induction l as [|x l IH]; intros [|j] Hj H;
    try (cbn in Hj; discriminate).
  - injection Hj as ->. change (<[0 := m]> (m0 :: l)) with (m :: l).
    rewrite !ids_cons, H. reflexivity.
  - change (<[S j := m]> (x :: l)) with (x :: <[j := m]> l).
    rewrite !ids_cons, (IH _ Hj H). reflexivity.
Qed.

Lemma identified_nil : identified [].
Proof. split; constructor. Qed.

Lemma identified_lookup_inj l j j' m m' :
  identified l -> l !! j = Some m -> l !! j' = Some m' ->
  message_id m = message_id m' -> j = j'.
Proof.
  intros [Hall Hnd]. revert j j' Hall Hnd.
  induction l as [|x l IH]; intros j j' Hall Hnd Hj Hj' Hid;
    [destruct j; discriminate|].
  apply Forall_cons in Hall as [[k Hk] Hall].
  rewrite ids_cons, Hk in Hnd. apply NoDup_cons in Hnd as [Hnot Hnd].
  destruct j as [|j], j' as [|j']; cbn in Hj, Hj'.
  - reflexivity.
  - injection Hj as <-. exfalso. apply Hnot. apply elem_of_ids.
    exists j', m'. split; [exact Hj' | congruence].
  - injection Hj' as <-. exfalso. apply Hnot. apply elem_of_ids.
    exists j, m. split; [exact Hj | congruence].
  - f_equal. eapply IH; eassumption.
Qed.

(** *** Assigning ids *)

Lemma uuid4_fresh used : uuid4 used ∉ used.
Proof.
  unfold uuid4. intros H. apply max_list_elem_of_le in H. lia.
Qed.

Lemma assign_ids_identified used l :
  Forall (fun m => is_Some (message_id m)) l -> assign_ids used l = l.
Proof.
  induction 1 as [|m l [k Hk] _ IH]; [reflexivity|].
  cbn [assign_ids]. rewrite Hk, IH. reflexivity.
Qed.

Lemma assign_ids_app_identified used l1 l2 :
  Forall (fun m => is_Some (message_id m)) l1 ->
  assign_ids used (l1 ++ l2) = l1 ++ assign_ids used l2.
Proof.
  induction 1 as [|m l [k Hk] _ IH]; [reflexivity|].
  cbn [app assign_ids]. rewrite Hk, IH. reflexivity.
Qed.

Lemma assign_ids_keeps l : forall used, Forall2 keeps l (assign_ids used l).
Proof.
  induction l as [|m l IH]; intros used; [constructor|].
  cbn [assign_ids]. destruct (message_id m) as [k|] eqn:Hk.
  - constructor; [apply keeps_refl | apply IH].
  - constructor; [|apply IH]. right. eauto.
Qed.

Lemma assign_ids_has_id l : forall used,
  Forall (fun m => is_Some (message_id m)) (assign_ids used l).
Proof.
  induction l as [|m l IH]; intros used; [constructor|].
  cbn [assign_ids]. destruct (message_id m) as [k|] eqn:Hk.
  - constructor; [rewrite Hk; eauto | apply IH].
  - constructor; [rewrite with_id_id; eauto | apply IH].
Qed.

Lemma assign_ids_none l : forall used,
  Forall (fun m => message_id m = None) l ->
  Forall2 (fun m m' => exists i, m' = with_id m i) l (assign_ids used l).
Proof.
  induction l as [|m l IH]; intros used Hl; [constructor|].
  apply Forall_cons in Hl as [Hm Hl].
  cbn [assign_ids]. rewrite Hm. constructor; [eauto | apply IH, Hl].
Qed.

(** An id of the result was there before, or is new. *)
Lemma assign_ids_ids l : forall used k,
  k ∈ ids (assign_ids used l) -> k ∈ ids l \/ k ∉ used.
Proof.
  induction l as [|m l IH]; intros used k; [intros []%elem_of_nil|].
  cbn [assign_ids]. destruct (message_id m) as [j|] eqn:Hj.
  - rewrite !ids_cons, Hj. intros [->|H]%elem_of_cons.
    + left. left.
    + destruct (IH _ _ H); [left; right; assumption | right; assumption].
  - rewrite !ids_cons, with_id_id, Hj. intros [->|H]%elem_of_cons.
    + right. apply uuid4_fresh.
    + destruct (IH _ _ H) as [|Hnew]; [left; assumption|].
      right. intros Hk. apply Hnew. right. exact Hk.
Qed.

Lemma assign_ids_NoDup l : forall used,
  (forall k, k ∈ ids l -> k ∈ used) ->
  NoDup (ids l) -> NoDup (ids (assign_ids used l)).
Proof.
  induction l as [|m l IH]; intros used Hsub Hnd; [constructor|].
  cbn [assign_ids]. rewrite ids_cons in Hsub, Hnd.
  destruct (message_id m) as [j|] eqn:Hj.
  - apply NoDup_cons in Hnd as [Hnot Hnd].
    rewrite ids_cons, Hj. apply NoDup_cons. split.
    + intros H. destruct (assign_ids_ids _ _ _ H) as [|Hnew];
        [contradiction|].
      apply Hnew, Hsub. left.
    + apply IH; [|exact Hnd]. intros k Hk. apply Hsub. right. exact Hk.
  - rewrite ids_cons, with_id_id. apply NoDup_cons. split.
    + intros H. destruct (assign_ids_ids _ _ _ H) as [Hold|Hnew].
      * apply (uuid4_fresh used), Hsub, Hold.
      * apply Hnew. left.
    + apply IH; [|exact Hnd]. intros k Hk. right. apply Hsub, Hk.
Qed.

(** A message without id at the end gets an id that nothing before it
    has. *)
Lemma assign_ids_snoc l m : forall used,
  (forall k, k ∈ ids l -> k ∈ used) ->
  message_id m = None ->
  exists i,
    assign_ids used (l ++ [m]) = assign_ids used l ++ [with_id m i] /\
    (i ∉ used) /\ (i ∉ ids (assign_ids used l)).
Proof.
  induction l as [|x l IH]; intros used Hsub Hm.
  - exists (uuid4 used). cbn [app assign_ids]. rewrite Hm.
    split; [reflexivity|]. split; [apply uuid4_fresh | intros []%elem_of_nil].
  - cbn [app assign_ids]. rewrite ids_cons in Hsub.
    destruct (message_id x) as [j|] eqn:Hj.
    + destruct (IH used) as (i & -> & Hi & Hi'); [|exact Hm|].
      { intros k Hk. apply Hsub. right. exact Hk. }
      exists i. split; [reflexivity|]. split; [exact Hi|].
      rewrite ids_cons, Hj. intros [->|H]%elem_of_cons; [|contradiction].
      apply Hi, Hsub. left.
    + destruct (IH (uuid4 used :: used)) as (i & -> & Hi & Hi'); [|exact Hm|].
      { intros k Hk. right. apply Hsub, Hk. }
      exists i. split; [reflexivity|]. split.
      * intros H. apply Hi. right. exact H.
      * rewrite ids_cons, with_id_id. intros [->|H]%elem_of_cons;
          [|contradiction].
        apply Hi. left.
Qed.

(** *** The merge *)

Lemma indexed_nil : indexed [] ∅.
Proof.
  split; [apply identified_nil|]. intros k j. rewrite lookup_empty.
  split; [discriminate | intros (m & Hm & _); destruct j; discriminate].
Qed.

Lemma indexed_fresh merged idx k :
  indexed merged idx -> (idx !! k = None <-> k ∉ ids merged).
Proof.
  intros [_ Hidx]. split.
  - intros Hnone (j & m & Hj & Hk)%elem_of_ids.
    assert (idx !! k = Some j) by (apply Hidx; eauto). congruence.
  - intros Hnot. destruct (idx !! k) as [j|] eqn:E; [|reflexivity].
    exfalso. apply Hnot. apply Hidx in E as (m & Hj & Hk).
    apply elem_of_ids. eauto.
Qed.

Lemma indexed_snoc merged idx m k :
  indexed merged idx -> message_id m = Some k -> k ∉ ids merged ->
  indexed (merged ++ [m]) (<[k := length merged]> idx).
Proof.
  intros [[Hall Hnd] Hidx] Hk Hnot. split; [split|].
  - apply Forall_app. split; [exact Hall|]. constructor; [|constructor].
    rewrite Hk. eauto.
  - rewrite (ids_snoc _ _ _ Hk).
    apply NoDup_app. split; [exact Hnd|]. split.
    + intros x Hx [->|[]%elem_of_nil]%elem_of_cons. contradiction.
    + apply NoDup_singleton.
  - intros k' j. destruct (decide (k' = k)) as [->|Hne].
    + rewrite lookup_insert_eq. split.
      * intros [= <-]. exists m. split; [|exact Hk].
        rewrite lookup_app_r by lia. rewrite Nat.sub_diag. reflexivity.
      * intros (m' & Hj & Hk'). f_equal.
        destruct (decide (j < length merged)) as [Hlt|Hge].
        -- rewrite lookup_app_l in Hj by exact Hlt.
           exfalso. apply Hnot. apply elem_of_ids. eauto.
        -- apply lookup_lt_Some in Hj. rewrite length_app in Hj. cbn in Hj.
           lia.
    + rewrite lookup_insert_ne by congruence. rewrite Hidx. split.
      * intros (m' & Hj & Hk'). exists m'. split; [|exact Hk'].
        rewrite lookup_app_l; [exact Hj | eapply lookup_lt_Some, Hj].
      * intros (m' & Hj & Hk'). exists m'. split; [|exact Hk'].
        destruct (decide (j < length merged)) as [Hlt|Hge].
        -- rewrite lookup_app_l in Hj by exact Hlt. exact Hj.
        -- rewrite lookup_app_r in Hj by lia.
           destruct (j - length merged) as [|d]; cbn in Hj; [|discriminate].
           injection Hj as <-. congruence.
Qed.

Lemma indexed_replace merged idx m k j :
  indexed merged idx -> message_id m = Some k -> idx !! k = Some j ->
  indexed (<[j := m]> merged) idx.
Proof.
  intros [[Hall Hnd] Hidx] Hk Hj.
  destruct (proj1 (Hidx k j) Hj) as (m0 & Hm0 & Hk0).
  split; [split|].
  - apply Forall_insert; [exact Hall | rewrite Hk; eauto].
  - rewrite (ids_insert _ _ _ _ Hm0) by congruence. exact Hnd.
  - intros k' j'. rewrite Hidx. destruct (decide (j' = j)) as [->|Hne].
    + rewrite list_lookup_insert_eq by (eapply lookup_lt_Some, Hm0).
      split.
      * intros (m' & Hj' & Hk'). exists m. split; [reflexivity|].
        congruence.
      * intros (m' & [= <-] & Hk'). exists m0. split; [exact Hm0|].
        congruence.
    + rewrite list_lookup_insert_ne by congruence. reflexivity.
Qed.

Lemma merge_message_indexed merged idx m :
  indexed merged idx -> is_Some (message_id m) ->
  indexed (fst (merge_message (merged, idx) m))
          (snd (merge_message (merged, idx) m)).
Proof.
  intros Hin [k Hk]. unfold merge_message. rewrite Hk.
  destruct (idx !! k) as [j|] eqn:Hj; cbn [fst snd].
  - eapply indexed_replace; eassumption.
  - apply indexed_snoc; [exact Hin | exact Hk|].
    apply (indexed_fresh _ _ _ Hin), Hj.
Qed.

Lemma foldl_merge_indexed r : forall merged idx,
  indexed merged idx -> Forall (fun m => is_Some (message_id m)) r ->
  indexed (fst (foldl merge_message (merged, idx) r))
          (snd (foldl merge_message (merged, idx) r)).
Proof.
  induction r as [|m r IH]; intros merged idx Hin Hr; [exact Hin|].
  apply Forall_cons in Hr as [Hm Hr]. cbn [foldl].
  pose proof (merge_message_indexed merged idx m Hin Hm) as Hstep.
  destruct (merge_message (merged, idx) m) as [merged' idx'].
  apply IH; assumption.
Qed.

Lemma merge_message_first m k :
  message_id m = Some k ->
  merge_message ([], ∅) m = ([m], <[k := 0]> ∅).
Proof.
  intros H. unfold merge_message. rewrite H, lookup_empty. reflexivity.
Qed.

(** A message that is stored already leaves the list as it is. *)
Lemma merge_message_same merged idx m :
  indexed merged idx -> m ∈ merged ->
  merge_message (merged, idx) m = (merged, idx).
Proof.
  intros [[Hall Hnd] Hidx] Hm.
  apply list_elem_of_lookup in Hm as [j Hj].
  destruct (proj1 (Forall_lookup _ _) Hall j m Hj) as [k Hk].
  assert (Hi : idx !! k = Some j) by (apply Hidx; eauto).
  unfold merge_message. rewrite Hk, Hi.
  rewrite (list_insert_id _ _ _ Hj). reflexivity.
Qed.

Lemma foldl_merge_same r : forall merged idx,
  indexed merged idx -> Forall (fun m => m ∈ merged) r ->
  foldl merge_message (merged, idx) r = (merged, idx).
Proof.
  induction r as [|m r IH]; intros merged idx Hin Hr; [reflexivity|].
  apply Forall_cons in Hr as [Hm Hr]. cbn [foldl].
  rewrite (merge_message_same _ _ _ Hin Hm). apply IH; assumption.
Qed.

(** Messages with new ids are appended. *)
Lemma foldl_merge_fresh r : forall merged idx,
  indexed merged idx ->
  Forall (fun m => is_Some (message_id m)) r ->
  NoDup (ids r) ->
  (forall k, k ∈ ids r -> k ∉ ids merged) ->
  fst (foldl merge_message (merged, idx) r) = merged ++ r.
Proof.
  induction r as [|m r IH]; intros merged idx Hin Hr Hnd Hnew.
  - cbn. rewrite app_nil_r. reflexivity.
  - apply Forall_cons in Hr as [[k Hk] Hr]. rewrite ids_cons, Hk in Hnd, Hnew.
    apply NoDup_cons in Hnd as [Hnot Hnd].
    assert (Hfree : k ∉ ids merged) by (apply Hnew; left).
    cbn [foldl]. unfold merge_message at 2. rewrite Hk.
    rewrite (proj2 (indexed_fresh _ _ k Hin) Hfree).
    rewrite IH; [rewrite <- app_assoc; reflexivity| | exact Hr | exact Hnd |].
    + apply indexed_snoc; assumption.
    + intros k' Hk'. rewrite (ids_snoc _ _ _ Hk).
      intros [H|[->|[]%elem_of_nil]%elem_of_cons]%elem_of_app.
      * revert H. apply Hnew. right. exact Hk'.
      * contradiction.
Qed.

(** Whatever is merged, the first message stays when its id does not
    come again, and what follows it is made of stored and of merged
    messages. *)
Lemma foldl_merge_head r : forall first merged idx k0,
  indexed (first :: merged) idx ->
  message_id first = Some k0 -> k0 ∉ ids r ->
  Forall (fun m => is_Some (message_id m)) r ->
  exists merged',
    fst (foldl merge_message (first :: merged, idx) r) = first :: merged' /\
    Forall (fun m => m ∈ merged \/ m ∈ r) merged'.
Proof.
  induction r as [|m r IH]; intros first merged idx k0 Hin Hfirst Hk0 Hr.
  - exists merged. split; [reflexivity|].
    apply Forall_forall. intros x Hx. left. exact Hx.
  - apply Forall_cons in Hr as [[k Hk] Hr]. rewrite ids_cons, Hk in Hk0.
    apply not_elem_of_cons in Hk0 as [Hne Hk0].
    pose proof (merge_message_indexed _ idx m Hin (ex_intro _ k Hk)) as Hstep.
    cbn [foldl]. unfold merge_message in *. rewrite Hk in *.
    destruct (idx !! k) as [j|] eqn:Hj; cbn [fst snd] in Hstep.
    + destruct j as [|j].
      { exfalso. apply (proj2 Hin) in Hj as (m0 & [= <-] & Hm0). congruence. }
      change (<[S j := m]> (first :: merged))
        with (first :: <[j := m]> merged) in *.
      destruct (IH first (<[j := m]> merged) idx k0 Hstep Hfirst Hk0 Hr)
        as (merged' & -> & Hfrom).
      exists merged'. split; [reflexivity|].
      eapply Forall_impl; [exact Hfrom|]. cbn beta. intros x [Hx|Hx].
      * apply list_elem_of_lookup in Hx as [i Hi].
        destruct (decide (i = j)) as [->|Hij].
        -- assert (Hlt : j < length merged).
           { pose proof (lookup_lt_Some _ _ _ Hi) as Hlt.
             rewrite length_insert in Hlt. exact Hlt. }
           rewrite list_lookup_insert_eq in Hi by exact Hlt.
           injection Hi as <-. right. left.
        -- rewrite list_lookup_insert_ne in Hi by congruence.
           left. eapply list_elem_of_lookup_2, Hi.
      * right. right. exact Hx.
    + change ((first :: merged) ++ [m]) with (first :: (merged ++ [m])) in *.
      destruct (IH first (merged ++ [m]) _ k0 Hstep Hfirst Hk0 Hr)
        as (merged' & -> & Hfrom).
      exists merged'. split; [reflexivity|].
      eapply Forall_impl; [exact Hfrom|]. cbn beta. intros x [Hx|Hx].
      * apply elem_of_app in Hx as [Hx|[->|[]%elem_of_nil]%elem_of_cons].
        -- left. exact Hx.
        -- right. left.
      * right. right. exact Hx.
Qed.

(** The index of a list with distinct ids. *)
Lemma enumerate_app {A} (l1 l2 : list A) : forall start,
  enumerate start (l1 ++ l2)
  = enumerate start l1 ++ enumerate (start + length l1) l2.
Proof.
  induction l1 as [|x l1 IH]; intros start; cbn.
  - rewrite Nat.add_0_r. reflexivity.
  - rewrite IH. do 3 f_equal. lia.
Qed.

Lemma index_by_id_snoc l m k :
  message_id m = Some k ->
  index_by_id (l ++ [m]) = <[k := length l]> (index_by_id l).
Proof.
  intros Hk. unfold index_by_id. rewrite enumerate_app, foldl_app. cbn.
  rewrite Hk. reflexivity.
Qed.

Lemma index_by_id_indexed l : identified l -> indexed l (index_by_id l).
Proof.
  induction l as [|m l IH] using rev_ind; intros [Hall Hnd];
    [apply indexed_nil|].
  apply Forall_app in Hall as [Hall Hm].
  apply Forall_cons in Hm as [[k Hk] _].
  rewrite (ids_snoc _ _ _ Hk) in Hnd.
  apply NoDup_app in Hnd as (Hnd & Hdisj & _).
  rewrite (index_by_id_snoc _ _ _ Hk).
  apply indexed_snoc; [apply IH; split; assumption | exact Hk|].
  intros H. apply (Hdisj _ H). left.
Qed.

(** *** The reducer on the lists this program writes *)

(** Whatever is written, the channel holds identified messages. *)
Lemma add_messages_identified left right :
  identified left -> identified (add_messages left right).
Proof.
  intros Hl. unfold add_messages.
  rewrite (assign_ids_identified _ _ (proj1 Hl)).
  apply (foldl_merge_indexed _ _ _ (index_by_id_indexed _ Hl)).
  apply assign_ids_has_id.
Qed.

(** A node that returns the stored messages followed by new ones
    appends the new ones, each with an id of its own. *)
Lemma add_messages_append stored new :
  identified stored ->
  Forall (fun m => message_id m = None) new ->
  exists new',
    add_messages stored (stored ++ new) = stored ++ new' /\
    Forall2 (fun m m' => exists i, m' = with_id m i) new new' /\
    identified (stored ++ new').
Proof.
  intros Hs Hnew.
  pose proof (add_messages_identified stored (stored ++ new) Hs) as Hid.
  unfold add_messages in *.
  rewrite (assign_ids_identified _ _ (proj1 Hs)) in *.
  rewrite (assign_ids_app_identified _ _ _ (proj1 Hs)) in *.
  set (used := ids stored ++ ids (stored ++ new)) in *.
  exists (assign_ids used new).
  assert (Heq : fst (foldl merge_message (stored, index_by_id stored)
                       (stored ++ assign_ids used new))
                = stored ++ assign_ids used new).
  { rewrite foldl_app.
    rewrite foldl_merge_same;
      [|apply index_by_id_indexed, Hs
       |apply Forall_forall; intros x Hx; exact Hx].
    apply foldl_merge_fresh.
    - apply index_by_id_indexed, Hs.
    - apply assign_ids_has_id.
    - apply assign_ids_NoDup.
      + rewrite (ids_none _ Hnew). intros k []%elem_of_nil.
      + rewrite (ids_none _ Hnew). constructor.
    - intros k Hk Hin. apply assign_ids_ids in Hk as [Hk|Hk].
      + rewrite (ids_none _ Hnew) in Hk. apply elem_of_nil in Hk as [].
      + apply Hk. subst used. apply elem_of_app. left. exact Hin. }
  rewrite Heq in *. split; [reflexivity|]. split; [|exact Hid].
  apply assign_ids_none, Hnew.
Qed.

Lemma add_messages_same stored :
  identified stored -> add_messages stored stored = stored.
Proof.
  intros Hs.
  destruct (add_messages_append stored [] Hs ltac:(constructor))
    as (new' & Heq & Hnew & _).
  inversion Hnew; subst. rewrite !app_nil_r in Heq. exact Heq.
Qed.

(** The input of a turn: the system prompt, the history and the query.
    The prompt stays first and the query last, each with a new id; what
    lies between is made of messages of the history, and is the whole
    history, in its order, when that has no id twice. *)
Lemma add_messages_turn prompt history query :
  exists i0 kept i1,
    add_messages []
      ([SystemMessage prompt None] ++ history ++ [HumanMessage query None])
    = SystemMessage prompt (Some i0)
        :: kept ++ [HumanMessage query (Some i1)] /\
    Forall (fun m => exists m0, m0 ∈ history /\ keeps m0 m) kept /\
    (distinct_ids history -> Forall2 keeps history kept).
Proof.
  set (right := [SystemMessage prompt None] ++ history
                  ++ [HumanMessage query None]).
  assert (Hids : ids right = ids history).
  { subst right. rewrite !ids_app.
    change (ids [SystemMessage prompt None]) with (@nil MessageId).
    change (ids [HumanMessage query None]) with (@nil MessageId).
    rewrite app_nil_r. reflexivity. }
  unfold add_messages.
  change (assign_ids (ids [] ++ ids right) []) with (@nil Message).
  change (index_by_id []) with (∅ : gmap MessageId nat).
  change (ids [] ++ ids right) with (ids right). rewrite Hids.
  subst right.
  change ([SystemMessage prompt None] ++ history
            ++ [HumanMessage query None])
    with (SystemMessage prompt None
            :: (history ++ [HumanMessage query None])).
  set (i0 := uuid4 (ids history)).
  change (assign_ids (ids history)
            (SystemMessage prompt None
               :: (history ++ [HumanMessage query None])))
    with (SystemMessage prompt (Some i0)
            :: assign_ids (i0 :: ids history)
                 (history ++ [HumanMessage query None])).
  destruct (assign_ids_snoc history (HumanMessage query None)
              (i0 :: ids history)) as (i1 & -> & Hi1 & Hi1');
    [intros k Hk; right; exact Hk | reflexivity|].
  set (kept0 := assign_ids (i0 :: ids history) history) in *.
  change (with_id (HumanMessage query None) i1)
    with (HumanMessage query (Some i1)).
  assert (Hkeeps : Forall2 keeps history kept0) by apply assign_ids_keeps.
  assert (Hhas : Forall (fun m => is_Some (message_id m)) kept0)
    by apply assign_ids_has_id.
  assert (Hi0 : i0 ∉ ids kept0).
  { intros H. apply assign_ids_ids in H as [H|H].
    - apply (uuid4_fresh (ids history)), H.
    - apply H. left. }
  assert (Hfirst : indexed [SystemMessage prompt (Some i0)]
                           (<[i0 := 0]> ∅)).
  { apply (indexed_snoc [] ∅ (SystemMessage prompt (Some i0)) i0);
      [apply indexed_nil | reflexivity | intros []%elem_of_nil]. }
  cbn [foldl].
  rewrite (merge_message_first (SystemMessage prompt (Some i0)) i0 eq_refl).
  rewrite foldl_app.
  destruct (foldl_merge_head kept0 (SystemMessage prompt (Some i0)) []
              _ i0 Hfirst eq_refl Hi0 Hhas) as (kept & Hfold & Hfrom).
  pose proof (foldl_merge_indexed kept0 _ _ Hfirst Hhas) as Hin.
  destruct (foldl merge_message
              ([SystemMessage prompt (Some i0)], <[i0 := 0]> ∅) kept0)
    as [merged idx] eqn:Efold.
  cbn [fst snd] in Hfold, Hin. subst merged. cbn [foldl].
  assert (Hfrom' : Forall (fun m => m ∈ kept0) kept).
  { eapply Forall_impl; [exact Hfrom|]. cbn beta.
    intros x [[]%elem_of_nil | Hx]. exact Hx. }
  assert (Hfree : i1 ∉ ids (SystemMessage prompt (Some i0) :: kept)).
  { rewrite ids_cons. cbn [message_id]. intros [->|H]%elem_of_cons.
    - apply Hi1. left.
    - apply elem_of_ids in H as (j & m & Hj & Hk).
      apply list_elem_of_lookup_2 in Hj.
      apply (proj1 (Forall_forall _ _) Hfrom') in Hj.
      apply Hi1'. apply elem_of_ids.
      apply list_elem_of_lookup in Hj as [j' Hj']. eauto. }
  unfold merge_message. cbn [message_id].
  rewrite (proj2 (indexed_fresh _ _ i1 Hin) Hfree). cbn [fst].
  exists i0, kept, i1. split; [reflexivity|]. split.
  - apply Forall_forall. intros m Hm.
    apply (proj1 (Forall_forall _ _) Hfrom') in Hm.
    apply list_elem_of_lookup in Hm as [j Hj].
    destruct (Forall2_lookup_r _ _ _ _ _ Hkeeps Hj) as (m0 & Hm0 & Hk).
    exists m0. split; [eapply list_elem_of_lookup_2, Hm0 | exact Hk].
  - intros Hdistinct.
    assert (Hall : fst (foldl merge_message
                          ([SystemMessage prompt (Some i0)], <[i0 := 0]> ∅)
                          kept0)
                   = [SystemMessage prompt (Some i0)] ++ kept0).
    { apply foldl_merge_fresh; [exact Hfirst | exact Hhas | |].
      - apply assign_ids_NoDup; [|exact Hdistinct].
        intros k Hk. right. exact Hk.
      - intros k Hk. rewrite (ids_cons _ []). cbn [message_id].
        intros [->|[]%elem_of_nil]%elem_of_cons. contradiction. }
    rewrite Efold in Hall. cbn in Hall. injection Hall as ->. exact Hkeeps.
Qed.

End ReducerFacts.

Module GraphFacts.
Import ReducerFacts.

Lemma get_prompt_error : get_prompt "error" = ERROR_RESPONSE_PROMPT.
Proof. reflexivity. Qed.

Lemma error_prompt_nonempty : get_prompt "error" <> "".
Proof. rewrite get_prompt_error. discriminate. Qed.

Lemma filter_keeps_all {A} (f : A -> bool) (l : list A) :
  Forall (fun x => f x = true) l -> List.filter f l = l.
Proof.
  induction 1 as [|x l Hx _ IH]; [reflexivity|].
  simpl. rewrite Hx, IH. reflexivity.
Qed.

Lemma assistant_or_tool_non_system m :
  assistant_or_tool m = true -> non_system m = true.
Proof. destruct m; cbn; intros H; congruence. Qed.

Lemma identified_distinct l : identified l -> distinct_ids l.
Proof. intros [_ H]. exact H. Qed.

Lemma ids_filter_incl (f : Message -> bool) l k :
  k ∈ ids (List.filter f l) -> k ∈ ids l.
Proof.
  induction l as [|m l IH]; [intros []%elem_of_nil|].
  cbn [List.filter]. destruct (f m).
  - rewrite !ids_cons. destruct (message_id m).
    + intros [->|H]%elem_of_cons; [left | right; auto].
    + exact IH.
  - intros H. rewrite ids_cons. destruct (message_id m); [right|]; auto.
Qed.

Lemma identified_filter (f : Message -> bool) l :
  identified l -> identified (List.filter f l).
Proof.
  intros [Hall Hnd]. split.
  - apply Forall_forall. intros m Hm%list_elem_of_In.
    apply List.filter_In in Hm as [Hm _].
    apply (proj1 (Forall_forall _ _) Hall), list_elem_of_In, Hm.
  - clear Hall. induction l as [|m l IH]; [constructor|].
    rewrite ids_cons in Hnd. cbn [List.filter].
    destruct (f m); rewrite ?ids_cons; destruct (message_id m).
    + apply NoDup_cons in Hnd as [Hnot Hnd]. apply NoDup_cons.
      split; [|auto]. intros H. apply Hnot, (ids_filter_incl f), H.
    + auto.
    + apply NoDup_cons in Hnd as [_ Hnd]. auto.
    + auto.
Qed.

(** *** What one node returns, and what writing it stores *)

Lemma agent_node_messages w step state :
  exists added,
    messages (agent_node w step state) = messages state ++ added /\
    Forall (fun m => assistant_or_tool m = true) added /\
    Forall (fun m => message_id m = None) added.
Proof.
  unfold agent_node.
  destruct (llm_invoke w step _) as [[c tcs]|e]; cbn.
  - eexists. split; [reflexivity|]. split; repeat constructor.
  - exists []. rewrite app_nil_r. split; [reflexivity|]. split; constructor.
Qed.

Lemma tool_messages_are_tool outs :
  Forall (fun m => assistant_or_tool m = true) (map tool_message outs).
Proof. induction outs; constructor; auto. Qed.

Lemma tool_messages_have_no_id outs :
  Forall (fun m => message_id m = None) (map tool_message outs).
Proof. induction outs; constructor; auto. Qed.

Lemma tool_node_messages w step state :
  exists added,
    messages (tool_node w step state) = messages state ++ added /\
    Forall (fun m => assistant_or_tool m = true) added /\
    Forall (fun m => message_id m = None) added.
Proof.
  unfold tool_node.
  destruct (last_message (messages state)) as [m|e]; cbn.
  2:{ exists []. rewrite app_nil_r. split; [reflexivity|]. split; constructor. }
  destruct (negb (has_tool_calls m)).
  { exists []. rewrite app_nil_r. split; [reflexivity|]. split; constructor. }
  destruct (tool_executor w step state) as [[outs|]|e]; cbn.
  - eexists. split; [reflexivity|].
    split; [apply tool_messages_are_tool | apply tool_messages_have_no_id].
  - exists []. rewrite app_nil_r. split; [reflexivity|]. split; constructor.
  - exists []. rewrite app_nil_r. split; [reflexivity|]. split; constructor.
Qed.

Lemma response_node_messages state :
  messages (response_node state) = messages state.
Proof.
  unfold response_node.
  destruct (last_message (messages state)); reflexivity.
Qed.

Lemma response_node_nonempty state :
  nonempty (response (response_node state)).
Proof.
  unfold response_node, nonempty.
  destruct (last_message (messages state)) as [m|e]; cbn.
  - destruct (String.eqb (content m) "") eqn:E; cbn.
    + eexists. split; [reflexivity | apply error_prompt_nonempty].
    + eexists. split; [reflexivity|]. apply String.eqb_neq, E.
  - eexists. split; [reflexivity | apply error_prompt_nonempty].
Qed.

Lemma write_identified channels returned :
  identified (messages channels) ->
  identified (messages (write channels returned)).
Proof. intros H. apply add_messages_identified, H. Qed.

Lemma write_input_identified input : identified (messages (write_input input)).
Proof. apply add_messages_identified, identified_nil. Qed.

(** Writing the stored messages followed by new ones stores the new ones,
    each with an id. *)
Lemma write_messages channels returned added :
  identified (messages channels) ->
  messages returned = messages channels ++ added ->
  Forall (fun m => assistant_or_tool m = true) added ->
  Forall (fun m => message_id m = None) added ->
  exists added',
    messages (write channels returned) = messages channels ++ added' /\
    Forall (fun m => assistant_or_tool m = true) added' /\
    Forall2 (fun m m' => exists i, m' = with_id m i) added added'.
Proof.
  intros Hid Hret Hat Hnone. unfold write. cbn [messages with_messages].
  rewrite Hret.
  destruct (add_messages_append _ _ Hid Hnone) as (added' & -> & Hwith & _).
  exists added'. split; [reflexivity|]. split; [|exact Hwith].
  clear -Hat Hwith. induction Hwith as [|m m' l l' [i ->] _ IH];
    [constructor|].
  apply Forall_cons in Hat as [Hm Hl].
  constructor; [rewrite with_id_assistant_or_tool; exact Hm | apply IH, Hl].
Qed.

(** A node that returns the stored messages changes nothing in them. *)
Lemma write_unchanged channels returned :
  identified (messages channels) ->
  messages returned = messages channels ->
  write channels returned = returned.
Proof.
  intros Hid Hret. unfold write. rewrite Hret, (add_messages_same _ Hid).
  rewrite <- Hret. destruct returned; reflexivity.
Qed.

(** *** What a completed run returns *)

Lemma run_from_completed w fuel :
  forall step node state visited result,
    identified (messages state) ->
    run_from w fuel step node state = (visited, Ok result) ->
    nonempty (response result) /\
    identified (messages result) /\
    exists added,
      messages result = messages state ++ added /\
      Forall (fun m => assistant_or_tool m = true) added.
Proof.
  induction fuel as [|fuel IH]; intros step node state visited result Hid;
    [discriminate|].
  cbn [run_from]. destruct node.
  - destruct (agent_node_messages w step state) as (a0 & Hm0 & Ha0 & Hn0).
    destruct (write_messages _ _ _ Hid Hm0 Ha0 Hn0) as (a1 & Hm1 & Ha1 & _).
    pose proof (write_identified state (agent_node w step state) Hid) as Hid1.
    destruct (should_use_tools (write state (agent_node w step state)))
      as [[|]|e]; [| |discriminate].
    all: destruct (run_from w fuel (S step) _ _) as [tr r] eqn:Hrun.
    all: unfold visit; cbn; intros [= _ ->].
    all: destruct (IH _ _ _ _ _ Hid1 Hrun) as (Hne & Hid2 & a2 & Hm2 & Ha2).
    all: split; [exact Hne|]; split; [exact Hid2|]; exists (a1 ++ a2).
    all: rewrite Hm2, Hm1, app_assoc; split; [reflexivity|].
    all: apply Forall_app; split; assumption.
  - destruct (tool_node_messages w step state) as (a0 & Hm0 & Ha0 & Hn0).
    destruct (write_messages _ _ _ Hid Hm0 Ha0 Hn0) as (a1 & Hm1 & Ha1 & _).
    pose proof (write_identified state (tool_node w step state) Hid) as Hid1.
    destruct (run_from w fuel (S step) agent _) as [tr r] eqn:Hrun.
    unfold visit; cbn; intros [= _ ->].
    destruct (IH _ _ _ _ _ Hid1 Hrun) as (Hne & Hid2 & a2 & Hm2 & Ha2).
    split; [exact Hne|]; split; [exact Hid2|]; exists (a1 ++ a2).
    rewrite Hm2, Hm1, app_assoc; split; [reflexivity|].
    apply Forall_app; split; assumption.
  - destruct fuel as [|fuel']; [discriminate|]. intros [= _ <-].
    rewrite (write_unchanged _ _ Hid (response_node_messages state)).
    split; [apply response_node_nonempty|].
    rewrite response_node_messages. split; [exact Hid|].
    exists []. rewrite app_nil_r. split; [reflexivity | constructor].
Qed.

Lemma invoke_completed w state result :
  invoke w state = Ok result ->
  nonempty (response result) /\
  identified (messages result) /\
  exists added,
    messages result = messages (write_input state) ++ added /\
    Forall (fun m => assistant_or_tool m = true) added.
Proof.
  unfold invoke, invoke_trace.
  destruct (run_from w (recursion_limit w) 0 agent (write_input state))
    as [tr r] eqn:E.
  cbn [snd]. intros ->.
  eapply run_from_completed; [apply write_input_identified | exact E].
Qed.

(** The history the handler returns is the one handed in, message by
    message, but for the ids given to messages that had none. *)
Lemma history_after_input_keeps query history system_prompt :
  Forall2 keeps (or_list history)
          (history_after_input query history system_prompt).
Proof.
  unfold history_after_input.
  set (msgs := messages (turn_state query history system_prompt)).
  pose proof (assign_ids_keeps msgs (ids msgs)) as H.
  apply (Forall2_drop _ _ _ 1) in H.
  apply (Forall2_take _ _ _ (length (or_list history))) in H.
  subst msgs.
  change (drop 1 (messages (turn_state query history system_prompt)))
    with (or_list history ++ [HumanMessage query None]) in H.
  rewrite take_app_length in H. exact H.
Qed.

Lemma history_after_input_same query history system_prompt :
  Forall (fun m => is_Some (message_id m)) (or_list history) ->
  history_after_input query history system_prompt = or_list history.
Proof.
  intros Hall. apply Forall2_keeps_identified; [exact Hall|].
  apply history_after_input_keeps.
Qed.

Lemma Forall2_keeps_origin l l' :
  Forall2 keeps l l' ->
  Forall (fun m => exists m0, m0 ∈ l /\ keeps m0 m) l'.
Proof.
  induction 1 as [|m m' l l' Hm _ IH]; constructor.
  - exists m. split; [left | exact Hm].
  - eapply Forall_impl; [exact IH|]. intros x (m0 & Hm0 & Hk).
    exists m0. split; [right; exact Hm0 | exact Hk].
Qed.

Lemma Forall2_keeps_non_system l l' :
  Forall2 keeps l l' ->
  Forall (fun m => non_system m = true) l ->
  Forall (fun m => non_system m = true) l'.
Proof.
  induction 1 as [|m m' l l' Hm _ IH]; intros Hl; [constructor|].
  inversion Hl as [|? ? Hns Hrest]; subst. constructor; [|apply IH, Hrest].
  unfold non_system in *. rewrite (keeps_is_system _ _ Hm). exact Hns.
Qed.

Lemma history_after_input_distinct query history system_prompt :
  distinct_ids (or_list history) ->
  distinct_ids (history_after_input query history system_prompt).
Proof.
  intros Hd. unfold history_after_input, distinct_ids in *.
  set (msgs := messages (turn_state query history system_prompt)).
  assert (Hids : ids msgs = ids (or_list history)).
  { subst msgs. unfold turn_state. cbn [messages].
    rewrite !ids_app. cbn. rewrite app_nil_r. reflexivity. }
  assert (Hall : NoDup (ids (assign_ids (ids msgs) msgs))).
  { apply assign_ids_NoDup; [auto | rewrite Hids; exact Hd]. }
  rewrite <- (take_drop 1 (assign_ids (ids msgs) msgs)) in Hall.
  rewrite ids_app in Hall. apply NoDup_app in Hall as (_ & _ & Hall).
  rewrite <- (take_drop (length (or_list history))
                (drop 1 (assign_ids (ids msgs) msgs))) in Hall.
  rewrite ids_app in Hall. apply NoDup_app in Hall as (Hall & _).
  exact Hall.
Qed.

(** The two ways out of [run_agent_with_history].  When the run completes,
    the history returned is made of messages of the input history, then
    the user's message, then the replies and tool results of the turn;
    every message has an id then, and none has the id of another. *)
Lemma run_agent_with_history_cases w query history system_prompt :
  (exists result kept i produced,
     invoke w (turn_state query history system_prompt) = Ok result /\
     Forall (fun m => assistant_or_tool m = true) produced /\
     nonempty (response result) /\
     run_agent_with_history_try w query history system_prompt
       = Ok (response result,
             kept ++ HumanMessage query (Some i) :: produced) /\
     Forall (fun m => exists m0,
                 m0 ∈ List.filter non_system (or_list history) /\
                 keeps m0 m) kept /\
     (distinct_ids (or_list history) ->
      Forall2 keeps (List.filter non_system (or_list history)) kept) /\
     identified (kept ++ HumanMessage query (Some i) :: produced))
  \/
  (exists e,
     invoke w (turn_state query history system_prompt) = Raise e /\
     run_agent_with_history_try w query history system_prompt = Raise e).
Proof.
  unfold run_agent_with_history_try.
  destruct (invoke w (turn_state query history system_prompt))
    as [result|e] eqn:E; [left | right; exists e; split; reflexivity].
  destruct (invoke_completed _ _ _ E) as (Hne & Hid & added & Hm & Ha).
  destruct (add_messages_turn (or_str system_prompt SYSTEM_PROMPT)
              (or_list history) query) as (i0 & kept0 & i1 & Hin & Hfrom & Hd).
  assert (Hfilter :
    List.filter (fun m => negb (is_system m)) (messages result)
    = List.filter non_system kept0 ++ HumanMessage query (Some i1) :: added).
  { rewrite Hm. unfold write_input, turn_state. cbn [messages with_messages].
    rewrite Hin. rewrite List.filter_app. cbn [List.filter is_system negb].
    rewrite List.filter_app. cbn [List.filter is_system negb].
    rewrite <- app_assoc. cbn [app]. do 2 f_equal.
    apply filter_keeps_all.
    eapply Forall_impl; [exact Ha|]. apply assistant_or_tool_non_system. }
  exists result, (List.filter non_system kept0), i1, added.
  split; [reflexivity|]. split; [exact Ha|]. split; [exact Hne|].
  split; [rewrite Hfilter; reflexivity|]. split; [|split].
  - apply Forall_forall. intros m Hm'%list_elem_of_In.
    apply List.filter_In in Hm' as [Hm' Hns].
    apply list_elem_of_In in Hm'.
    destruct (proj1 (Forall_forall _ _) Hfrom m Hm') as (m0 & Hm0 & Hk).
    exists m0. split; [|exact Hk].
    apply list_elem_of_In, List.filter_In.
    split; [apply list_elem_of_In, Hm0|].
    unfold non_system in *. rewrite <- (keeps_is_system _ _ Hk). exact Hns.
  - intros Hdistinct. apply Forall2_keeps_filter, Hd, Hdistinct.
  - rewrite <- Hfilter. apply identified_filter, Hid.
Qed.

End GraphFacts.

Module LoopFacts.
Import ReducerFacts GraphFacts.

Lemma last_message_snoc l m : last_message (l ++ [m]) = Ok m.
Proof. unfold last_message. rewrite last_snoc. reflexivity. Qed.

Lemma prompt_messages_ext state state' :
  messages state = messages state' ->
  prompt_messages state = prompt_messages state'.
Proof. intros H. unfold prompt_messages. rewrite H. reflexivity. Qed.

(** The agent step when the model replies. *)
Lemma agent_node_reply w step state c tcs :
  llm_invoke w step (prompt_messages state) = Ok (c, tcs) ->
  agent_node w step state
  = with_response
      (with_messages state (messages state ++ [AIMessage c tcs None]))
      (Some c).
Proof. intros H. unfold agent_node. rewrite H. reflexivity. Qed.

(** The reply is stored after the messages of the state, with an id. *)
Lemma write_reply w step state c tcs :
  identified (messages state) ->
  llm_invoke w step (prompt_messages state) = Ok (c, tcs) ->
  exists i,
    write state (agent_node w step state)
    = with_response
        (with_messages state (messages state ++ [AIMessage c tcs (Some i)]))
        (Some c).
Proof.
  intros Hid Hllm. rewrite (agent_node_reply _ _ _ _ _ Hllm).
  unfold write. cbn [messages with_response with_messages].
  destruct (add_messages_append (messages state) [AIMessage c tcs None] Hid)
    as (new' & -> & Hwith & _); [repeat constructor|].
  inversion Hwith as [|m m' l l' [i ->] Hrest]; subst.
  inversion Hrest; subst. exists i. reflexivity.
Qed.

Lemma route_after_reply state c tcs i :
  should_use_tools
    (with_response
       (with_messages state (messages state ++ [AIMessage c tcs (Some i)]))
       (Some c))
  = Ok (match tcs with [] => to_response | _ => to_tools end).
Proof.
  unfold should_use_tools. cbn [messages with_response with_messages].
  rewrite last_message_snoc. destruct tcs; reflexivity.
Qed.

Lemma response_after_reply state c i :
  response
    (response_node
       (with_response
          (with_messages state (messages state ++ [AIMessage c [] (Some i)]))
          (Some c)))
  = Some (spoken c).
Proof.
  unfold response_node, spoken.
  cbn [messages with_response with_messages].
  rewrite last_message_snoc. cbn. destruct (String.eqb c ""); reflexivity.
Qed.

Lemma should_use_tools_last state l m :
  messages state = l ++ [m] ->
  should_use_tools state
  = Ok (if has_tool_calls m then to_tools else to_response).
Proof.
  intros H. unfold should_use_tools. rewrite H, last_message_snoc.
  destruct (has_tool_calls m); reflexivity.
Qed.

Lemma response_node_last state l m :
  messages state = l ++ [m] ->
  response_node state = with_response state (Some (spoken (content m))).
Proof.
  intros H. unfold response_node, spoken. rewrite H, last_message_snoc.
  destruct (String.eqb (content m) ""); reflexivity.
Qed.

(** The [response] node stores what it returns. *)
Lemma write_response_node state :
  identified (messages state) ->
  write state (response_node state) = response_node state.
Proof.
  intros Hid. apply write_unchanged; [exact Hid|].
  apply response_node_messages.
Qed.

Lemma round_trips_path n : round_trips (path n) = n.
Proof.
  unfold round_trips, path.
  induction n as [|n IH]; [reflexivity|]. cbn. rewrite IH. reflexivity.
Qed.

(** The run of a model that asks for tools [n] times and then answers:
    it completes when the limit is above the [2 * n + 2] executions it
    takes, and the last message stored is the answer to the messages
    stored before it. *)
Lemma run_from_follows_model w n :
  forall fuel step state,
    identified (messages state) ->
    (forall k, k < n -> asks_for_tools w (step + 2 * k)) ->
    answers w (step + 2 * n) ->
    2 * n + 2 < fuel ->
    exists result final before i,
      run_from w fuel step agent state = (path n, Ok result) /\
      messages result = before ++ [AIMessage final [] (Some i)] /\
      llm_invoke w (step + 2 * n)
        (prompt_messages (with_messages state before)) = Ok (final, []) /\
      response result = Some (spoken final).
Proof.
  induction n as [|n IH]; intros fuel step state Hid Hask Hfinal Hfuel.
  - destruct fuel as [|[|[|fuel]]]; [lia | lia | lia |].
    destruct (Hfinal (prompt_messages state)) as (final & Hllm).
    rewrite Nat.mul_0_r, Nat.add_0_r in Hllm.
    destruct (write_reply _ _ _ _ _ Hid Hllm) as (i & Hw).
    eexists _, final, (messages state), i.
    cbn [run_from]. rewrite Hw, route_after_reply.
    cbn [path repeat concat app visit fst snd].
    split; [reflexivity|].
    assert (Hid' : identified (messages state ++ [AIMessage final [] (Some i)])).
    { pose proof (write_identified state (agent_node w step state) Hid) as H.
      rewrite Hw in H. exact H. }
    rewrite write_response_node by exact Hid'.
    split; [rewrite response_node_messages; reflexivity|].
    split; [|apply response_after_reply].
    rewrite Nat.mul_0_r, Nat.add_0_r.
    rewrite (prompt_messages_ext _ state) by reflexivity. exact Hllm.
  - destruct fuel as [|[|fuel]]; [lia | lia |].
    destruct (Hask 0 ltac:(lia) (prompt_messages state))
      as (c & tcs & Hllm & Hne).
    rewrite Nat.mul_0_r, Nat.add_0_r in Hllm.
    destruct (write_reply _ _ _ _ _ Hid Hllm) as (i0 & Hw).
    cbn [run_from]. rewrite Hw, route_after_reply.
    destruct tcs as [|tc tcs]; [congruence|].
    set (state1 := with_response
                     (with_messages state
                        (messages state ++ [AIMessage c (tc :: tcs) (Some i0)]))
                     (Some c)) in *.
    assert (Hid1 : identified (messages state1)).
    { rewrite <- Hw. apply write_identified, Hid. }
    set (state2 := write state1 (tool_node w (S step) state1)).
    assert (Hid2 : identified (messages state2))
      by apply write_identified, Hid1.
    destruct (IH fuel (S (S step)) state2 Hid2)
      as (result & final & before & i & Hrun & Hlast & Hllm' & Hresp).
    + intros k Hk. replace (S (S step) + 2 * k) with (step + 2 * S k) by lia.
      apply Hask. lia.
    + replace (S (S step) + 2 * n) with (step + 2 * S n) by lia.
      exact Hfinal.
    + lia.
    + exists result, final, before, i. split; [|split; [exact Hlast|split]].
      * rewrite Hrun. reflexivity.
      * replace (step + 2 * S n) with (S (S step) + 2 * n) by lia.
        rewrite (prompt_messages_ext _ (with_messages state2 before))
          by reflexivity.
        exact Hllm'.
      * exact Hresp.
Qed.

(** A model that asks for tools at every call keeps the graph going
    until the executor's limit stops it. *)
Lemma run_from_never_stops w :
  (forall step, asks_for_tools w step) ->
  forall fuel step state,
    identified (messages state) ->
    (snd (run_from w fuel step agent state) = Raise RECURSION_ERROR /\
     round_trips (fst (run_from w fuel step agent state)) = Nat.div2 fuel)
    /\
    (snd (run_from w fuel step tools state) = Raise RECURSION_ERROR /\
     round_trips (fst (run_from w fuel step tools state))
     = Nat.div2 (S fuel)).
Proof.
  intros Hask. induction fuel as [|fuel IH]; intros step state Hid.
  - split; split; reflexivity.
  - split.
    + destruct (Hask step (prompt_messages state))
        as (c & tcs & Hllm & Hne).
      destruct (write_reply _ _ _ _ _ Hid Hllm) as (i & Hw).
      pose proof (write_identified state (agent_node w step state) Hid)
        as Hid1.
      cbn [run_from]. rewrite Hw in *. rewrite route_after_reply.
      destruct tcs as [|tc tcs]; [congruence|].
      destruct (IH (S step) _ Hid1) as [_ [Hr Hc]].
      unfold visit. cbn [fst snd]. split; [exact Hr|].
      unfold round_trips in *. cbn. exact Hc.
    + cbn [run_from].
      destruct (IH (S step) (write state (tool_node w step state))
                  (write_identified _ _ Hid)) as [[Hr Hc] _].
      unfold visit. cbn [fst snd]. split; [exact Hr|].
      unfold round_trips in *. cbn [List.filter is_tools length].
      rewrite Hc. reflexivity.
Qed.

(** X3.  A turn in which the model asks for tools at every call is ended
    by the executor's step limit after half that limit of round trips (12
    under the default of 25); it ends in the handler of
    [run_agent_with_history], which answers with the canned fallback and
    returns the history it was given: the same messages in the same
    order, those that had no id showing the id the input write gave
    them, so the very same list when every message had an id. *)
Lemma forced_termination w query history system_prompt :
  (forall step, asks_for_tools w step) ->
  round_trips (fst (invoke_trace w (turn_state query history system_prompt)))
    = Nat.div2 (recursion_limit w) /\
  exists returned,
    run_agent_with_history w query history system_prompt
      = (Some ERROR_RESPONSE_PROMPT, returned) /\
    Forall2 keeps (or_list history) returned /\
    (Forall (fun m => is_Some (message_id m)) (or_list history) ->
     returned = or_list history).
Proof.
  intros Hask.
  destruct (run_from_never_stops w Hask (recursion_limit w) 0
              (write_input (turn_state query history system_prompt))
              (write_input_identified _)) as [[Hr Hc] _].
  split; [exact Hc|].
  exists (history_after_input query history system_prompt).
  split; [|split].
  - unfold run_agent_with_history, run_agent_with_history_try, invoke,
      invoke_trace.
    rewrite Hr. reflexivity.
  - apply history_after_input_keeps.
  - apply history_after_input_same.
Qed.

End LoopFacts.

Module GraphProofs.
Import ReducerFacts GraphFacts LoopFacts.

(** *** Preservation of the history *)

(** One turn on a history without system messages: what comes back
    starts with the messages of that history and has no system message
    either; ids stay distinct. *)
Lemma turn_extends_history w query h :
  Forall (fun m => non_system m = true) h ->
  exists kept added,
    snd (run_agent_with_history w query (Some h) None) = kept ++ added /\
    Forall (fun m => exists m0, m0 ∈ h /\ keeps m0 m) kept /\
    (distinct_ids h -> Forall2 keeps h kept) /\
    Forall (fun m => non_system m = true) (kept ++ added) /\
    (distinct_ids h -> distinct_ids (kept ++ added)).
Proof.
  intros Hh. unfold run_agent_with_history.
  destruct (run_agent_with_history_cases w query (Some h) None)
    as [(result & kept & i & produced & _ & Ha & _ & -> & Hfrom & Hd & Hid)
       | (e & _ & ->)]; cbn [snd or_list] in *.
  - rewrite (filter_keeps_all _ _ Hh) in *.
    exists kept, (HumanMessage query (Some i) :: produced).
    split; [reflexivity|]. split; [exact Hfrom|]. split; [exact Hd|].
    split; [|intros _; apply identified_distinct, Hid].
    apply Forall_app. split.
    + apply Forall_forall. intros m Hm.
      destruct (proj1 (Forall_forall _ _) Hfrom m Hm) as (m0 & Hm0 & Hk).
      unfold non_system. rewrite (keeps_is_system _ _ Hk).
      apply (proj1 (Forall_forall _ _) Hh m0 Hm0).
    + constructor; [reflexivity|].
      eapply Forall_impl; [exact Ha|]. apply assistant_or_tool_non_system.
  - pose proof (history_after_input_keeps query (Some h) None) as Hk.
    exists (history_after_input query (Some h) None), [].
    rewrite app_nil_r. split; [reflexivity|].
    split; [apply Forall2_keeps_origin, Hk|].
    split; [intros _; exact Hk|].
    split; [apply (Forall2_keeps_non_system _ _ Hk), Hh|].
    apply (history_after_input_distinct query (Some h) None).
Qed.

Lemma conversation_chain turns :
  forall h0,
    Forall (fun m => non_system m = true) h0 -> distinct_ids h0 ->
    forall i before after,
      (h0 :: conversation turns h0) !! i = Some before ->
      (h0 :: conversation turns h0) !! S i = Some after ->
      exists kept added, after = kept ++ added /\ Forall2 keeps before kept.
Proof.
  induction turns as [|[w query] rest IH]; intros h0 Hh0 Hd0 i before after.
  - destruct i; discriminate.
  - cbn [conversation].
    destruct (turn_extends_history w query h0 Hh0)
      as (kept & added & Hrun & _ & Hk & Hns & Hd).
    destruct i as [|i].
    + cbn. intros [= <-] [= <-]. exists kept, added. auto.
    + intros Hb Ha. refine (IH _ _ _ i before after Hb Ha).
      * rewrite Hrun. exact Hns.
      * rewrite Hrun. apply Hd, Hd0.
Qed.

(** C3, as the code has it.  The messages channel merges by id.  When no
    two messages of the input history have one id and the call goes
    through, the returned history is the non-system messages of the input
    history, in their order and as they were but for an id given to those
    that had none, then the new user message, then the assistant and tool
    messages of the turn; every message returned has an id of its own.
    Hence, over the turns of a session, each history returned extends the
    one before it, and the length never decreases. *)
Theorem history_preserved_and_growing :
  (forall w query history system_prompt reply updated,
     distinct_ids (or_list history) ->
     run_agent_with_history_try w query history system_prompt
       = Ok (reply, updated) ->
     run_agent_with_history w query history system_prompt
       = (reply, updated) /\
     exists kept i produced,
       updated = kept ++ HumanMessage query (Some i) :: produced /\
       Forall2 keeps (List.filter non_system (or_list history)) kept /\
       Forall (fun m => assistant_or_tool m = true) produced /\
       identified updated) /\
  (forall turns h0 i before after,
     distinct_ids h0 ->
     Forall (fun m => non_system m = true) h0 ->
     (h0 :: conversation turns h0) !! i = Some before ->
     (h0 :: conversation turns h0) !! S i = Some after ->
     (exists kept added,
        after = kept ++ added /\ Forall2 keeps before kept) /\
     (Forall (fun m => is_Some (message_id m)) before ->
      exists added, after = before ++ added) /\
     length before <= length after).
Proof.
  split.
  - intros w query history system_prompt reply updated Hd Htry.
    split; [unfold run_agent_with_history; rewrite Htry; reflexivity|].
    destruct (run_agent_with_history_cases w query history system_prompt)
      as [(result & kept & i & produced & _ & Ha & _ & Hok & _ & Hk & Hid)
         | (e & _ & Hraise)]; [|congruence].
    rewrite Hok in Htry. injection Htry as _ <-.
    exists kept, i, produced. auto.
  - intros turns h0 i before after Hd0 Hh0 Hb Ha.
    destruct (conversation_chain turns h0 Hh0 Hd0 i before after Hb Ha)
      as (kept & added & -> & Hk).
    split; [eauto|]. split.
    + intros Hall. rewrite (Forall2_keeps_identified _ _ Hall Hk). eauto.
    + rewrite length_app, <- (Forall2_length _ _ _ Hk). lia.
Qed.

Lemma history_preserved_and_growing_witness :
  (exists kept i produced,
     snd (run_agent_with_history helpful_world "Can I walk in instead?"
            (Some earlier_turn) None)
     = kept ++ HumanMessage "Can I walk in instead?" (Some i) :: produced /\
     Forall2 keeps earlier_turn kept)
  /\
  (exists added,
     snd (run_agent_with_history plain_world "Can I walk in instead?"
            (Some earlier_turn) None)
     = earlier_turn ++ added).
Proof.
  assert (Hd : distinct_ids earlier_turn).
  { unfold distinct_ids, earlier_turn. cbn.
    apply NoDup_cons. split; [|apply NoDup_singleton].
    intros [H|[]%elem_of_nil]%elem_of_cons. discriminate. }
  split.
  - destruct (proj1 history_preserved_and_growing helpful_world
                "Can I walk in instead?" (Some earlier_turn) None
                (fst (run_agent_with_history helpful_world
                        "Can I walk in instead?" (Some earlier_turn) None))
                (snd (run_agent_with_history helpful_world
                        "Can I walk in instead?" (Some earlier_turn) None))
                Hd eq_refl)
      as (_ & kept & i & produced & Hupd & Hk & _).
    exists kept, i, produced. split; [exact Hupd | exact Hk].
  - destruct (proj2 history_preserved_and_growing
                [(plain_world, "Can I walk in instead?")] earlier_turn 0
                earlier_turn
                (snd (run_agent_with_history plain_world
                        "Can I walk in instead?" (Some earlier_turn) None)))
      as (_ & Hadded & _).
    + exact Hd.
    + repeat constructor.
    + reflexivity.
    + reflexivity.
    + apply Hadded. repeat constructor; eauto.
Defined.

(** C3 as stated fails: a history that holds one message twice comes back
    with one copy of it.  Three messages go in; two come back before the
    new user message, so the returned history does not start with the
    messages of the input history. *)
Lemma repeated_message_is_merged :
  map content
      (snd (run_agent_with_history plain_world "Can I walk in instead?"
              (Some repeated_turn) None))
  = [ "Hi, I'd like to schedule an appointment.";
      "Sure, I can send you the scheduling link.";
      "Can I walk in instead?";
      "Sure, I can help with that." ] /\
  length (List.filter non_system repeated_turn) = 3 /\
  ~ (exists kept i produced,
       snd (run_agent_with_history plain_world "Can I walk in instead?"
              (Some repeated_turn) None)
       = kept ++ HumanMessage "Can I walk in instead?" (Some i) :: produced /\
       Forall2 keeps (List.filter non_system repeated_turn) kept).
Proof.
  split; [reflexivity|]. split; [reflexivity|].
  intros (kept & i & produced & Heq & Hk).
  apply Forall2_length in Hk. cbn in Hk.
  apply (f_equal (map content)) in Heq. rewrite map_app in Heq.
  change (map content
            (snd (run_agent_with_history plain_world "Can I walk in instead?"
                    (Some repeated_turn) None)))
    with [ "Hi, I'd like to schedule an appointment.";
           "Sure, I can send you the scheduling link.";
           "Can I walk in instead?";
           "Sure, I can help with that." ] in Heq.
  destruct kept as [|k1 [|k2 [|k3 [|k4 kept]]]]; try discriminate.
Qed.

(** Two turns without tools leave four messages; a tool round-trip adds
    the request and the result. *)
Example two_turns_four_messages :
  map (@length Message)
      (conversation
         [ (plain_world, "Hi, I'd like to schedule an appointment.");
           (plain_world, "Can I walk in instead?") ] [])
  = [2; 4].
Proof. reflexivity. Qed.

Example two_turns_with_a_search :
  map (@length Message)
      (conversation
         [ (plain_world, "Hi, I'd like to schedule an appointment.");
           (helpful_world, "Can I walk in instead?") ] [])
  = [2; 6].
Proof. reflexivity. Qed.

(** *** Failures *)

(** The call always returns, and the response is never empty. *)
Lemma run_agent_with_history_nonempty w query history system_prompt :
  nonempty (fst (run_agent_with_history w query history system_prompt)).
Proof.
  unfold run_agent_with_history.
  destruct (run_agent_with_history_cases w query history system_prompt)
    as [(result & kept & i & produced & _ & _ & Hne & -> & _) | (e & _ & ->)];
    cbn [fst].
  - exact Hne.
  - eexists. split; [reflexivity | apply error_prompt_nonempty].
Qed.

(** When the first model call raises, [agent_node] stores the fallback,
    and [response_node] then replaces it by the content of the last
    message, which is the user's query. *)
Lemma model_failure_response_is_query w query history system_prompt e :
  (forall msgs, llm_invoke w 0 msgs = Raise e) ->
  query <> "" ->
  3 <= recursion_limit w ->
  (forall state, response (agent_node w 0 state) = Some ERROR_RESPONSE_PROMPT)
  /\
  exists kept i,
    run_agent_with_history w query history system_prompt
      = (Some query, kept ++ [HumanMessage query (Some i)]) /\
    (distinct_ids (or_list history) ->
     Forall2 keeps (List.filter non_system (or_list history)) kept).
Proof.
  intros Hllm Hq Hlimit.
  split; [intros state; unfold agent_node; rewrite Hllm; reflexivity|].
  set (state0 := write_input (turn_state query history system_prompt)).
  pose proof (write_input_identified
                (turn_state query history system_prompt)) as Hid.
  fold state0 in Hid.
  destruct (add_messages_turn (or_str system_prompt SYSTEM_PROMPT)
              (or_list history) query) as (i0 & kept0 & i1 & Hin & _ & Hd).
  assert (Hm : messages state0
               = (SystemMessage (or_str system_prompt SYSTEM_PROMPT) (Some i0)
                    :: kept0) ++ [HumanMessage query (Some i1)])
    by exact Hin.
  set (state1 := with_response (with_error state0 (Some (exn_str e)))
                               (Some (get_prompt "error"))).
  assert (Hnode : agent_node w 0 state0 = state1)
    by (unfold agent_node; rewrite Hllm; reflexivity).
  assert (Hw : write state0 (agent_node w 0 state0) = state1)
    by (rewrite Hnode; apply write_unchanged; [exact Hid | reflexivity]).
  exists (List.filter non_system kept0), i1. split.
  - unfold run_agent_with_history, run_agent_with_history_try, invoke,
      invoke_trace.
    fold state0.
    destruct (recursion_limit w) as [|[|[|fuel]]]; [lia | lia | lia |].
    cbn [run_from]. rewrite Hw.
    rewrite (should_use_tools_last state1 _ _ Hm).
    cbn [has_tool_calls visit fst snd].
    rewrite (write_response_node state1 Hid).
    rewrite (response_node_last state1 _ _ Hm).
    cbn [response with_response content messages].
    unfold spoken. apply String.eqb_neq in Hq. rewrite Hq.
    f_equal. change (messages state1) with (messages state0).
    rewrite Hm. cbn [app List.filter is_system negb].
    rewrite List.filter_app. reflexivity.
  - intros Hdistinct. apply Forall2_keeps_filter, Hd, Hdistinct.
Qed.

(** C1, at the input where the code departs from it.  The model call
    raises; [agent_node] catches the exception and stores the canned
    fallback; the caller nevertheless receives its own query as the
    response. *)
Theorem model_failure_echoes_query :
  response
    (agent_node offline_world 0
       (turn_state "Do you accept walk-ins?" (Some []) None))
    = Some ERROR_RESPONSE_PROMPT /\
  exists id,
    run_agent_with_history offline_world "Do you accept walk-ins?"
      (Some []) None
    = (Some "Do you accept walk-ins?",
       [HumanMessage "Do you accept walk-ins?" (Some id)]).
Proof. split; [reflexivity | eexists; reflexivity]. Qed.

(** C4 as stated fails: the tool executor raises, the model call that
    follows raises too, the graph keeps going round until the executor's
    limit, and the handler of [run_agent_with_history] returns the canned
    fallback with the input history, in which the user's message of the
    failed turn is missing. *)
Lemma failed_turn_drops_user_message :
  run_agent_with_history stuck_world "Can I walk in instead?"
    (Some earlier_turn) None
    = (Some ERROR_RESPONSE_PROMPT, earlier_turn) /\
  forall id,
    ~ In (HumanMessage "Can I walk in instead?" id)
         (snd (run_agent_with_history stuck_world "Can I walk in instead?"
                 (Some earlier_turn) None)).
Proof.
  assert (H : run_agent_with_history stuck_world "Can I walk in instead?"
                (Some earlier_turn) None
              = (Some ERROR_RESPONSE_PROMPT, earlier_turn))
    by reflexivity.
  split; [exact H|]. intros id. rewrite H. cbn [snd].
  intros [Hin | [Hin | []]]; discriminate.
Qed.

(** C4, as the code has it.  When the graph run completes (a model or tool
    exception, if any, was caught inside its node), the returned history
    holds the user's message of the turn right after the non-system
    messages of the input history (all of them, in their order, when no
    two have one id).  When an exception leaves the graph run, the reply
    is the canned fallback and the returned history is the input history
    (empty for [None]): the same messages in the same order and nothing
    after them, those that had no id showing the id the input write gave
    them, so the very same list when every message had an id. *)
Theorem failed_turn_history w query history system_prompt :
  match invoke w (turn_state query history system_prompt) with
  | Ok result =>
      exists kept id produced,
        snd (run_agent_with_history w query history system_prompt)
        = kept ++ HumanMessage query (Some id) :: produced /\
        Forall (fun m => exists m0,
                    m0 ∈ List.filter non_system (or_list history) /\
                    keeps m0 m) kept /\
        (distinct_ids (or_list history) ->
         Forall2 keeps (List.filter non_system (or_list history)) kept) /\
        In (HumanMessage query (Some id))
           (snd (run_agent_with_history w query history system_prompt))
  | Raise e =>
      exists returned,
        run_agent_with_history w query history system_prompt
        = (Some ERROR_RESPONSE_PROMPT, returned) /\
        Forall2 keeps (or_list history) returned /\
        (Forall (fun m => is_Some (message_id m)) (or_list history) ->
         returned = or_list history)
  end.
Proof.
  unfold run_agent_with_history.
  destruct (run_agent_with_history_cases w query history system_prompt)
    as [(result & kept & i & produced & -> & _ & _ & -> & Hfrom & Hd & _)
       | (e & -> & ->)].
  - exists kept, i, produced. cbn [snd]. split; [reflexivity|].
    split; [exact Hfrom|]. split; [exact Hd|].
    apply in_or_app. right. left. reflexivity.
  - exists (history_after_input query history system_prompt).
    split; [reflexivity|].
    split; [apply history_after_input_keeps | apply history_after_input_same].
Qed.

(** *** The round-trips of a turn *)

(** C2, as the code has it.  The graph counts nothing: when the model
    asks for tools in its first [n] replies and answers in the next, and
    the executor's limit is above the [2 * n + 2] node executions this
    takes, the turn makes exactly [n] round-trips, whatever [n], and ends
    with the model's answer to the messages gathered until then (with the
    canned fallback only if that answer is empty); the answer is the last
    message stored. *)
Theorem round_trips_follow_the_model w state n :
  (forall k, k < n -> asks_for_tools w (2 * k)) ->
  answers w (2 * n) ->
  2 * n + 2 < recursion_limit w ->
  fst (invoke_trace w state) = path n /\
  round_trips (fst (invoke_trace w state)) = n /\
  exists result final before id,
    invoke w state = Ok result /\
    messages result = before ++ [AIMessage final [] (Some id)] /\
    llm_invoke w (2 * n) (prompt_messages (with_messages state before))
      = Ok (final, []) /\
    response result = Some (spoken final).
Proof.
  intros Hask Hfinal Hlimit.
  destruct (run_from_follows_model w n (recursion_limit w) 0
              (write_input state) (write_input_identified state)
              Hask Hfinal Hlimit)
    as (result & final & before & i & Hrun & Hlast & Hllm & Hresp).
  unfold invoke, invoke_trace. rewrite Hrun. cbn [fst snd].
  split; [reflexivity|]. split; [apply round_trips_path|].
  exists result, final, before, i.
  split; [reflexivity|]. split; [exact Hlast|]. split; [|exact Hresp].
  rewrite (prompt_messages_ext _ (with_messages (write_input state) before))
    by reflexivity.
  exact Hllm.
Qed.

Lemma round_trips_follow_the_model_witness :
  round_trips
    (fst (invoke_trace eager_world
            (turn_state "Do you accept walk-ins?" (Some []) None))) = 7.
Proof.
  refine (proj1 (proj2 (round_trips_follow_the_model eager_world
                          (turn_state "Do you accept walk-ins?" (Some [])
                                      None) 7 _ _ _))).
  - intros k Hk msgs. exists "", [walkin_call].
    split; [|discriminate]. unfold eager_world. cbn [llm_invoke].
    destruct (Nat.ltb_spec (2 * k) 14) as [_|Hge]; [reflexivity | lia].
  - intros msgs. eexists. reflexivity.
  - cbn. lia.
Defined.

(** C2 as stated fails: with the executor's default limit, a model that
    asks for a search seven times is served seven times, and the turn
    ends with the model's answer, not with the fallback.  No bound of at
    most six holds for every run. *)
Lemma round_trips_are_not_capped :
  round_trips
    (fst (invoke_trace eager_world
            (turn_state "Do you accept walk-ins?" (Some []) None))) = 7 /\
  fst (run_agent_with_history eager_world "Do you accept walk-ins?"
         (Some []) None)
    = Some "Yes, walk-ins are welcome." /\
  ~ (exists bound, bound <= 6 /\
       forall w state, round_trips (fst (invoke_trace w state)) <= bound).
Proof.
  assert (H7 : round_trips
                 (fst (invoke_trace eager_world
                         (turn_state "Do you accept walk-ins?" (Some [])
                                     None))) = 7) by reflexivity.
  split; [exact H7|]. split; [reflexivity|].
  intros (bound & Hb & Hall).
  specialize (Hall eager_world
                (turn_state "Do you accept walk-ins?" (Some []) None)).
  rewrite H7 in Hall. lia.
Qed.

End GraphProofs.

(** ** Chunk ids as plain strings *)

Module IdOrder.
Import PyFacts EnricherFacts.

Lemma adjacent_lt_head a l :
  adjacent_lt (a :: l) = true -> Forall (String_as_OT.lt a) l.
Proof.
  revert a. induction l as [|b l IH]; intros a H; [constructor|].
  cbn [adjacent_lt] in H.
  destruct (String_as_OT.cmp a b) eqn:E; try discriminate.
  apply String_as_OT.cmp_lt in E.
  constructor; [exact E|].
  eapply Forall_impl; [apply IH, H|].
  intros c Hc. cbn beta in Hc. eapply String_as_OT.lt_trans; eassumption.
Qed.

Lemma adjacent_lt_tail a l : adjacent_lt (a :: l) = true -> adjacent_lt l = true.
Proof.
  destruct l as [|b l]; [reflexivity|]. cbn [adjacent_lt].
  destruct (String_as_OT.cmp a b); congruence.
Qed.

Lemma adjacent_lt_lookup l :
  adjacent_lt l = true ->
  forall i j a b, i < j -> l !! i = Some a -> l !! j = Some b ->
                  String_as_OT.lt a b.
Proof.
  induction l as [|x l IH]; intros H i j a b Hij Hi Hj;
    [destruct i; discriminate|].
  destruct j as [|j]; [lia|]. destruct i as [|i].
  - injection Hi as <-. cbn in Hj.
    pose proof (adjacent_lt_head _ _ H) as Hall.
    rewrite Forall_forall in Hall. apply Hall.
    eapply list_elem_of_lookup_2, Hj.
  - cbn in Hi, Hj. eapply (IH (adjacent_lt_tail _ _ H) i j); [lia | |];
      eassumption.
Qed.

Lemma map_seq_lookup {A} (f : nat -> A) n i :
  i < n -> map f (seq 0 n) !! i = Some (f i).
Proof.
  intros Hi. rewrite map_lookup.
  rewrite (lookup_seq_lt 0 n i Hi). reflexivity.
Qed.

(** Up to 999 chunks the ids also grow in the lexicographic order of
    strings. *)
Lemma ids_grow_lexicographically i j :
  i < j -> j < 999 -> String_as_OT.lt (id_at i) (id_at j).
Proof.
  intros Hij Hj.
  assert (Hs : adjacent_lt (map id_at (seq 0 999)) = true)
    by (vm_compute; reflexivity).
  eapply (adjacent_lt_lookup _ Hs i j); [exact Hij | |];
    apply map_seq_lookup; lia.
Qed.

(** The three-digit padding ends there: the thousandth id sorts before the
    one that precedes it. *)
Example thousandth_id_sorts_first :
  id_at 999 = "chunk_1000" /\ id_at 998 = "chunk_999" /\
  String_as_OT.lt (id_at 999) (id_at 998).
Proof.
  split; [reflexivity|]. split; [reflexivity|].
  apply String_as_OT.cmp_lt. reflexivity.
Qed.

End IdOrder.

(** ** The built-ins on small inputs *)

Module PyExamples.

Example strip_both_ends :
  strip ("  two words " +:+ nl) = "two words".
Proof. reflexivity. Qed.

Example lower_mixed_case : lower "Wait Times" = "wait times".
Proof. reflexivity. Qed.

Example split_len_runs : split_len ("  one  two" +:+ nl +:+ "three ") = 3.
Proof. reflexivity. Qed.

Example format_0d_pads : format_0d 3 7 = "007".
Proof. reflexivity. Qed.

Example format_0d_keeps_long : format_0d 3 1000 = "1000".
Proof. reflexivity. Qed.

Example str_Z_negative : str_Z (-12) = "-12".
Proof. reflexivity. Qed.

Example join_three : join ", " ["a"; "b"; "c"] = "a, b, c".
Proof. reflexivity. Qed.

Example or_int_cases :
  or_int None 3 = 3%Z /\ or_int (Some 0%Z) 3 = 3%Z /\
  or_int (Some 5%Z) 3 = 5%Z.
Proof. repeat split. Qed.

End PyExamples.

(** ** The state helpers *)

Module StateProofs.

Lemma first_human_snoc l m :
  first_human (rev (l ++ [m]))
  = match m with
    | HumanMessage c _ => Some c
    | _ => first_human (rev l)
    end.
Proof. rewrite rev_unit. destruct m; reflexivity. Qed.

Lemma first_ai_snoc l m :
  first_ai (rev (l ++ [m]))
  = match m with
    | AIMessage c _ _ => Some c
    | _ => first_ai (rev l)
    end.
Proof. rewrite rev_unit. destruct m; reflexivity. Qed.

Lemma last_user_message_of l :
  match first_human (rev l) with
  | Some c =>
      exists before id after,
        l = before ++ HumanMessage c id :: after /\
        Forall (fun m => is_human m = false) after
  | None => Forall (fun m => is_human m = false) l
  end.
Proof.
  induction l as [|m l IH] using rev_ind; [constructor|].
  rewrite first_human_snoc. destruct m as [c i|c i|c tcs i|c call i].
  2:{ exists l, i, []. split; [reflexivity | constructor]. }
  all: destruct (first_human (rev l)) as [c'|].
  all: try (destruct IH as (before & id & after & -> & Hafter);
            eexists before, id, (after ++ [_]);
            split; [rewrite <- app_assoc; reflexivity|];
            apply Forall_app; split; [exact Hafter|];
            repeat constructor).
  all: apply Forall_app; split; [exact IH | repeat constructor].
Qed.

(** X5.  [get_last_user_message] returns the content of the last user
    message of the state, whatever assistant, tool or system messages
    follow it, and [None] exactly when the state holds no user message. *)
Theorem get_last_user_message_spec state :
  match get_last_user_message state with
  | Some c =>
      exists before id after,
        messages state = before ++ HumanMessage c id :: after /\
        Forall (fun m => is_human m = false) after
  | None => Forall (fun m => is_human m = false) (messages state)
  end.
Proof. apply last_user_message_of. Qed.

(** X6.  A turn recorded with the helpers reads back: after
    [add_user_message] the last user message is the new one, the last
    assistant message is still the earlier one, and context, response,
    error and tool calls are reset; after [update_response] on top of it
    the last assistant message is the reply, the last user message is
    unchanged, the conversation is two messages longer and the earlier
    messages are untouched. *)
Theorem state_helpers_round_trip state query reply :
  let asked := add_user_message state query in
  let answered := update_response asked reply in
  get_last_user_message asked = Some query /\
  get_last_ai_message asked = get_last_ai_message state /\
  has_error asked = false /\ has_context asked = false /\
  response asked = None /\ tool_calls asked = [] /\
  call_stage asked = call_stage state /\
  get_last_ai_message answered = Some reply /\
  get_last_user_message answered = Some query /\
  response answered = Some reply /\
  get_message_history answered
    = get_message_history state
        ++ [HumanMessage query None; AIMessage reply [] None] /\
  get_conversation_length answered = 2 + get_conversation_length state.
Proof.
  cbn zeta. unfold get_last_user_message, get_last_ai_message,
    get_conversation_length, get_message_history.
  cbn [add_user_message update_response messages response tool_calls
       call_stage].
  rewrite !first_human_snoc, !first_ai_snoc.
  repeat split.
  - rewrite <- app_assoc. reflexivity.
  - rewrite !length_app. cbn. lia.
Qed.

(** A state made from a query holds the query as a user message only
    when the query is not empty, while [current_query] is set to the query
    in either case; nothing is added for an empty or absent system
    prompt. *)
Theorem create_state_from_query_messages query system_prompt :
  let state := create_state_from_query query system_prompt in
  get_last_user_message state
    = (if String.eqb query "" then None else Some query) /\
  current_query state = Some query /\
  get_message_history state
    = message_if SystemMessage system_prompt
        ++ (if String.eqb query "" then [] else [HumanMessage query None]) /\
  (system_prompt = None \/ system_prompt = Some "" ->
   get_conversation_length state = if String.eqb query "" then 0 else 1).
Proof.
  cbn zeta. unfold create_state_from_query, create_initial_state,
    get_last_user_message, get_message_history, get_conversation_length.
  cbn [messages current_query message_if].
  destruct (String.eqb query "") eqn:Hq.
  - rewrite app_nil_r. repeat split.
    + destruct system_prompt as [p|]; cbn; [|reflexivity].
      destruct (String.eqb p ""); reflexivity.
    + intros [-> | ->]; reflexivity.
  - rewrite first_human_snoc. repeat split.
    intros [-> | ->]; reflexivity.
Qed.

End StateProofs.

(** ** The entry points of the agent *)

Module AgentProofs.
Import ReducerFacts GraphFacts LoopFacts GraphProofs.

(** X1.  Whatever the model and the tools do, [run_agent_with_history] and
    [run_agent] return, and the response is a string that is not empty. *)
Theorem reply_is_never_empty w query history system_prompt :
  (exists reply,
     fst (run_agent_with_history w query history system_prompt) = Some reply /\
     reply <> "") /\
  run_agent w query system_prompt <> "".
Proof.
  split; [apply run_agent_with_history_nonempty|].
  unfold run_agent, run_agent_try.
  destruct (invoke w _) as [result|e] eqn:E; [|apply error_prompt_nonempty].
  destruct (invoke_completed _ _ _ E) as ((r & -> & Hr) & _). exact Hr.
Qed.

(** X2.  [run_agent] is [run_agent_with_history] on a conversation without
    history: for the same query and system prompt both give the same
    response, be the history absent or empty. *)
Theorem run_agent_matches_history_api w query system_prompt :
  fst (run_agent_with_history w query None system_prompt)
    = Some (run_agent w query system_prompt) /\
  fst (run_agent_with_history w query (Some []) system_prompt)
    = Some (run_agent w query system_prompt) /\
  chat w query = run_agent w query None.
Proof.
  assert (H : forall history, or_list history = [] ->
            fst (run_agent_with_history w query history system_prompt)
            = Some (run_agent w query system_prompt)).
  { intros history Hh.
    unfold run_agent_with_history, run_agent_with_history_try, run_agent,
      run_agent_try, turn_state.
    rewrite Hh. cbn [app].
    destruct (invoke w _) as [result|e] eqn:E; [|reflexivity].
    destruct (invoke_completed _ _ _ E) as ((r & Hr & _) & _).
    cbn [fst]. rewrite Hr. reflexivity. }
  split; [apply H; reflexivity|]. split; [apply H; reflexivity|].
  reflexivity.
Qed.

(** X4.  An exception of the tool executor does not end the turn: the
    state keeps its messages and records the error, the graph returns to
    the model, and when the model then answers, that answer is the reply,
    provided the executor's limit is above the four node executions this
    takes; the history gains the user message, the tool request and the
    answer, and no tool message. *)
Theorem tool_failure_is_not_terminal w query history system_prompt
    request calls answer e :
  calls <> [] ->
  (forall msgs, llm_invoke w 0 msgs = Ok (request, calls)) ->
  (forall state, tool_executor w 1 state = Raise e) ->
  (forall msgs, llm_invoke w 2 msgs = Ok (answer, [])) ->
  4 < recursion_limit w ->
  distinct_ids (or_list history) ->
  exists kept id1 id2 id3,
    run_agent_with_history w query history system_prompt
    = (Some (spoken answer),
       kept ++ [ HumanMessage query (Some id1);
                 AIMessage request calls (Some id2);
                 AIMessage answer [] (Some id3) ]) /\
    Forall2 keeps (List.filter non_system (or_list history)) kept.
Proof.
  intros Hcalls Hask Htool Hanswer Hlimit Hdistinct.
  set (state0 := write_input (turn_state query history system_prompt)).
  pose proof (write_input_identified
                (turn_state query history system_prompt)) as Hid0.
  fold state0 in Hid0.
  destruct (add_messages_turn (or_str system_prompt SYSTEM_PROMPT)
              (or_list history) query) as (i0 & kept0 & i1 & Hin & _ & Hd).
  assert (Hm0 : messages state0
                = SystemMessage (or_str system_prompt SYSTEM_PROMPT) (Some i0)
                    :: kept0 ++ [HumanMessage query (Some i1)])
    by exact Hin.
  destruct (write_reply w 0 state0 request calls Hid0 (Hask _))
    as (i2 & Hw1).
  set (state1 := with_response
                   (with_messages state0
                      (messages state0 ++ [AIMessage request calls (Some i2)]))
                   (Some request)) in *.
  assert (Hid1 : identified (messages state1))
    by (rewrite <- Hw1; apply write_identified, Hid0).
  set (state2 := with_error state1 (Some (exn_str e))).
  assert (Htn : tool_node w 1 state1 = state2).
  { unfold tool_node. subst state1.
    cbn [messages with_response with_messages].
    rewrite last_message_snoc.
    destruct calls as [|tc tcs]; [congruence|]. cbn [has_tool_calls negb].
    rewrite Htool. reflexivity. }
  assert (Hw2 : write state1 (tool_node w 1 state1) = state2)
    by (rewrite Htn; apply write_unchanged; [exact Hid1 | reflexivity]).
  assert (Hid2 : identified (messages state2)) by exact Hid1.
  destruct (write_reply w 2 state2 answer [] Hid2 (Hanswer _))
    as (i3 & Hw3).
  set (state3 := with_response
                   (with_messages state2
                      (messages state2 ++ [AIMessage answer [] (Some i3)]))
                   (Some answer)) in *.
  assert (Hid3 : identified (messages state3))
    by (rewrite <- Hw3; apply write_identified, Hid2).
  exists (List.filter non_system kept0), i1, i2, i3.
  split; [|apply Forall2_keeps_filter, Hd, Hdistinct].
  unfold run_agent_with_history, run_agent_with_history_try, invoke,
    invoke_trace.
  fold state0.
  destruct (recursion_limit w) as [|[|[|[|[|fuel]]]]]; try lia.
  cbn [run_from]. rewrite Hw1. unfold state1 at 1.
  rewrite route_after_reply. fold state1.
  destruct calls as [|tc tcs]; [congruence|].
  cbn [visit fst snd]. rewrite Hw2, Hw3. unfold state3 at 1.
  rewrite route_after_reply. fold state3.
  cbn [visit fst snd]. rewrite (write_response_node state3 Hid3).
  unfold state3 at 1. rewrite response_after_reply.
  f_equal. rewrite response_node_messages.
  change (messages state3)
    with ((messages state0 ++ [AIMessage request (tc :: tcs) (Some i2)])
            ++ [AIMessage answer [] (Some i3)]).
  rewrite Hm0. cbn [app List.filter is_system negb].
  rewrite <- !app_assoc. rewrite List.filter_app. reflexivity.
Qed.

Lemma tool_failure_is_not_terminal_witness :
  exists kept id1 id2 id3,
    run_agent_with_history recovering_world "Can I walk in instead?"
      (Some earlier_turn) None
    = (Some "Let me connect you with our staff.",
       kept ++ [ HumanMessage "Can I walk in instead?" (Some id1);
                 AIMessage "" [walkin_call] (Some id2);
                 AIMessage "Let me connect you with our staff." []
                           (Some id3) ]) /\
    Forall2 keeps earlier_turn kept.
Proof.
  apply (tool_failure_is_not_terminal recovering_world
           "Can I walk in instead?" (Some earlier_turn) None
           "" [walkin_call] "Let me connect you with our staff."
           (RuntimeError "tool crashed")).
  - discriminate.
  - reflexivity.
  - reflexivity.
  - reflexivity.
  - cbn. lia.
  - unfold distinct_ids, earlier_turn. cbn.
    apply NoDup_cons. split; [|apply NoDup_singleton].
    intros [H|[]%elem_of_nil]%elem_of_cons. discriminate.
Defined.

Lemma forced_termination_witness :
  round_trips
    (fst (invoke_trace looping_world
            (turn_state "Do you accept walk-ins?" (Some earlier_turn) None)))
    = 12 /\
  run_agent_with_history looping_world "Do you accept walk-ins?"
    (Some earlier_turn) None
  = (Some ERROR_RESPONSE_PROMPT, earlier_turn).
Proof.
  destruct (forced_termination looping_world "Do you accept walk-ins?"
              (Some earlier_turn) None)
    as (Htrips & returned & Hrun & _ & Hsame).
  - intros step msgs. exists "", [walkin_call].
    split; [reflexivity|discriminate].
  - split; [exact Htrips|]. rewrite Hrun. f_equal. apply Hsame.
    repeat constructor; eexists; reflexivity.
Defined.

End AgentProofs.

(** ** The retrieval service beyond the default search *)

Module ServiceProofs.
Import RetrieverFacts.

(** X7.  The vector store is loaded once: a call of [get_vectorstore] that
    succeeds leaves the store in the module globals, and from then on
    every call returns that same store and changes nothing, whatever has
    become of the index files or of the configuration. *)
Theorem get_vectorstore_loads_once w g vs g1 :
  SopService.get_vectorstore w g = (Ok vs, g1) ->
  _vectorstore g1 = Some vs /\
  store_calls g1 = store_calls g /\
  forall w' g2,
    _vectorstore g2 = Some vs ->
    SopService.get_vectorstore w' g2 = (Ok vs, g2).
Proof.
  intros H. split; [|split].
  - revert H. unfold SopService.get_vectorstore.
    destruct (_vectorstore g) as [vs0|] eqn:Hc.
    + intros [= <- <-]. exact Hc.
    + destruct (get_index_path w); [|discriminate].
      destruct (negb (index_faiss_exists w)); [discriminate|].
      destruct (load_local w); [|discriminate].
      intros [= <- <-]. reflexivity.
  - eapply get_vectorstore_calls, H.
  - intros w' g2 Hg2. unfold SopService.get_vectorstore. rewrite Hg2.
    reflexivity.
Qed.

Lemma get_vectorstore_loads_once_witness :
  SopService.get_vectorstore no_index_world
    (snd (SopService.get_vectorstore sample_world fresh))
  = (Ok sample_store, mkGlobals (Some sample_store) []).
Proof.
  apply (proj2 (proj2 (get_vectorstore_loads_once sample_world fresh
                         sample_store (mkGlobals (Some sample_store) [])
                         eq_refl))).
  reflexivity.
Defined.

Lemma get_index_path_returns w config :
  get_config w = Ok config -> exists index_path, get_index_path w = Ok index_path.
Proof.
  intros Hc. unfold get_index_path. rewrite Hc. cbn zeta.
  destruct (path_exists w _); [eauto|]. destruct (path_exists w _); eauto.
Qed.

Lemma get_vectorstore_missing w g index_path :
  get_index_path w = Ok index_path ->
  index_faiss_exists w = false ->
  _vectorstore g = None ->
  SopService.get_vectorstore w g
  = (Raise (FileNotFoundError
              ("FAISS index not found at: " +:+ index_path)), g).
Proof.
  intros Hp Hi Hg. unfold SopService.get_vectorstore.
  rewrite Hg, Hp, Hi. reflexivity.
Qed.

(** X8.  Without an index file and with no store loaded yet, every entry
    point of the retrieval service and both tools raise
    [FileNotFoundError] naming the index directory, whatever [top_k] is;
    no search is sent and nothing is kept, so a later call checks the disk
    again. *)
Theorem missing_index_raises w g query topic top_k config :
  get_config w = Ok config ->
  index_faiss_exists w = false ->
  _vectorstore g = None ->
  exists index_path,
    let not_found :=
      FileNotFoundError ("FAISS index not found at: " +:+ index_path) in
    get_retriever w top_k g = (Raise not_found, g) /\
    search_sop w query top_k g = (Raise not_found, g) /\
    search_sop_with_scores w query top_k g = (Raise not_found, g) /\
    get_relevant_context w query top_k g = (Raise not_found, g) /\
    search_sop_tool w query g = (Raise not_found, g) /\
    get_procedure w topic g = (Raise not_found, g).
Proof.
  intros Hc Hi Hg.
  destruct (get_index_path_returns w config Hc) as (index_path & Hp).
  exists index_path. cbn zeta.
  pose proof (get_vectorstore_missing w g index_path Hp Hi Hg) as Hv.
  unfold get_relevant_context, search_sop_tool, get_procedure, search_sop,
    search_sop_with_scores, get_retriever, bind, lift.
  rewrite Hc, Hv. repeat split.
Qed.

Lemma missing_index_raises_witness :
  exists index_path,
    search_sop_tool no_index_world "late policy" fresh
    = (Raise (FileNotFoundError
                ("FAISS index not found at: " +:+ index_path)), fresh).
Proof.
  destruct (missing_index_raises no_index_world fresh "late policy"
              "late arrival" None (mkConfig "sop_faiss_index" 3)
              eq_refl eq_refl eq_refl) as (index_path & H).
  exists index_path. apply H.
Defined.

(** X9.  A value of [SOP_RETRIEVAL_TOP_K] that is not an integer makes
    every search raise [ValueError] before anything else happens, also
    when the caller passes its own [top_k] and the store is already
    loaded. *)
Theorem malformed_top_k_raises w g query topic top_k raw :
  SOP_RETRIEVAL_TOP_K w = Malformed raw ->
  exists text,
    let bad := ValueError text in
    get_retriever w top_k g = (Raise bad, g) /\
    search_sop w query top_k g = (Raise bad, g) /\
    search_sop_with_scores w query top_k g = (Raise bad, g) /\
    get_relevant_context w query top_k g = (Raise bad, g) /\
    search_sop_tool w query g = (Raise bad, g) /\
    get_procedure w topic g = (Raise bad, g) /\
    get_sop_service w top_k = Raise bad.
Proof.
  intros Hraw. eexists. cbn zeta.
  assert (Hc : get_config w = Raise (ValueError _))
    by (unfold get_config; rewrite Hraw; reflexivity).
  unfold get_relevant_context.
  unfold search_sop_tool, get_procedure, search_sop, search_sop_with_scores,
    get_retriever, get_sop_service, bind, lift.
  rewrite Hc. repeat split.
Qed.

Lemma malformed_top_k_raises_witness :
  exists text,
    search_sop bad_env_world "late policy" (Some 2%Z)
      (mkGlobals (Some sample_store) [])
    = (Raise (ValueError text), mkGlobals (Some sample_store) []).
Proof.
  destruct (malformed_top_k_raises bad_env_world
              (mkGlobals (Some sample_store) []) "late policy" "late arrival"
              (Some 2%Z) "three" eq_refl) as (text & H).
  exists text. apply H.
Defined.

(** X10.  [search_sop] returns the documents of [search_sop_with_scores],
    in the same order, and has the same effects: it raises when the other
    raises, with the same exception. *)
Theorem search_sop_is_scores_without_scores w query top_k g :
  search_sop w query top_k g
  = match search_sop_with_scores w query top_k g with
    | (Ok scored, g') => (Ok (map fst scored), g')
    | (Raise e, g') => (Raise e, g')
    end.
Proof.
  unfold search_sop, search_sop_with_scores, get_retriever, retriever_invoke,
    bind, lift, ret.
  destruct (get_config w) as [config|e]; [|reflexivity].
  destruct (SopService.get_vectorstore w g) as [[vs|e] g1]; [|reflexivity].
  cbn. unfold store_search.
  destruct (similarity_search_with_score vs query _); reflexivity.
Qed.

(** X11.  When the search goes through, [get_relevant_context] is the
    contents of the retrieved chunks, as they are and in the order
    retrieved, joined by the separator; for an empty result it is the
    empty string.  One search is sent, for [top_k] results or for the
    configured number when [top_k] is [None] or 0. *)
Theorem get_relevant_context_joins w query top_k g config vs g1 scored :
  get_config w = Ok config ->
  SopService.get_vectorstore w g = (Ok vs, g1) ->
  similarity_search_with_score vs query (or_int top_k (cfg_top_k config))
    = Ok scored ->
  get_relevant_context w query top_k g
  = (Ok (join separator (map (fun r => page_content (fst r)) scored)),
     mkGlobals (_vectorstore g1)
       (store_calls g ++ [(query, or_int top_k (cfg_top_k config))])) /\
  (scored = [] -> fst (get_relevant_context w query top_k g) = Ok "").
Proof.
  intros Hc Hv Hs.
  assert (H : get_relevant_context w query top_k g
              = (Ok (join separator
                       (map (fun r => page_content (fst r)) scored)),
                 mkGlobals (_vectorstore g1)
                   (store_calls g
                      ++ [(query, or_int top_k (cfg_top_k config))]))).
  { unfold get_relevant_context, search_sop, get_retriever, retriever_invoke,
      store_search, bind, lift, ret.
    rewrite Hc, Hv. cbn. rewrite Hs.
    rewrite (get_vectorstore_calls _ _ _ _ Hv), map_map. reflexivity. }
  split; [exact H|]. intros ->. rewrite H. reflexivity.
Qed.

Lemma get_relevant_context_joins_witness :
  fst (get_relevant_context sample_world "late policy" (Some 2%Z) fresh)
  = Ok (page_content late_doc +:+ separator +:+ page_content walkin_doc).
Proof.
  rewrite (proj1 (get_relevant_context_joins sample_world "late policy"
                    (Some 2%Z) fresh (mkConfig "sop_faiss_index" 3)
                    sample_store (mkGlobals (Some sample_store) [])
                    [ (late_doc, 1 # 4); (walkin_doc, 1 # 2) ]%Q
                    eq_refl eq_refl eq_refl)).
  reflexivity.
Defined.

End ServiceProofs.

Module ServiceClassProofs.
Import RetrieverFacts.

Lemma vectorstore_of_fresh w g svc :
  svc_vectorstore svc = None ->
  vectorstore_of w (g, svc)
  = match SopService.get_vectorstore w g with
    | (Ok vs, g') =>
        (Ok vs, (g', mkSOPService (svc_config svc) (svc_top_k svc) (Some vs)
                                  (svc_retriever svc)))
    | (Raise e, g') => (Raise e, (g', svc))
    end.
Proof. intros H. unfold vectorstore_of. cbn [fst snd]. rewrite H. reflexivity. Qed.

(** X12.  A service object made by [get_sop_service(top_k)] answers as the
    module functions called with the same [top_k]: its [search] returns
    what [search_sop] returns, its [search_with_scores] what
    [search_sop_with_scores] returns and its [get_context] what
    [get_relevant_context] returns, with the same effect on the module
    globals. *)
Theorem service_matches_functions w top_k query g svc :
  get_sop_service w top_k = Ok svc ->
  (exists svc',
     service_search w query (g, svc)
     = (fst (search_sop w query top_k g),
        (snd (search_sop w query top_k g), svc'))) /\
  (exists svc',
     service_search_with_scores w query (g, svc)
     = (fst (search_sop_with_scores w query top_k g),
        (snd (search_sop_with_scores w query top_k g), svc'))) /\
  (exists svc',
     service_get_context w query (g, svc)
     = (fst (get_relevant_context w query top_k g),
        (snd (get_relevant_context w query top_k g), svc'))).
Proof.
  unfold get_sop_service.
  destruct (get_config w) as [config|e] eqn:Hc; [|discriminate].
  intros [= <-].
  unfold service_get_context, service_search, service_search_with_scores,
    get_relevant_context, search_sop, search_sop_with_scores, get_retriever,
    retriever_of, retriever_invoke, on_globals, bind, lift, ret.
  cbn [svc_retriever svc_vectorstore svc_top_k svc_config fst snd].
  rewrite Hc, !vectorstore_of_fresh by reflexivity.
  cbn [svc_retriever svc_vectorstore svc_top_k svc_config fst snd].
  destruct (SopService.get_vectorstore w g) as [[vs|e] g1].
  2:{ repeat split; eexists; reflexivity. }
  cbn [svc_retriever svc_vectorstore svc_top_k svc_config fst snd
       retriever_store search_kwargs_k].
  unfold store_search.
  destruct (similarity_search_with_score vs query _);
    repeat split; eexists; reflexivity.
Qed.

Lemma service_matches_functions_witness :
  exists svc',
    service_search sample_world "late policy"
      (fresh, mkSOPService (mkConfig "sop_faiss_index" 3) 2 None None)
    = (Ok [late_doc; walkin_doc],
       (mkGlobals (Some sample_store) [("late policy", 2%Z)], svc')).
Proof.
  destruct (service_matches_functions sample_world (Some 2%Z) "late policy"
              fresh (mkSOPService (mkConfig "sop_faiss_index" 3) 2 None None)
              eq_refl) as ((svc' & H) & _).
  exists svc'. exact H.
Defined.

(** X13.  A service object keeps the retriever it built at its first
    search: every later search on it asks the same store for the same
    number of results, whatever the configuration, the index files or the
    module's own store have become. *)
Theorem service_keeps_its_retriever w query g svc docs g1 svc1 :
  service_search w query (g, svc) = (Ok docs, (g1, svc1)) ->
  exists r,
    svc_retriever svc1 = Some r /\
    (svc_retriever svc = None -> search_kwargs_k r = svc_top_k svc) /\
    forall w' query' g',
      service_search w' query' (g', svc1)
      = (fst (retriever_invoke r query' g'),
         (snd (retriever_invoke r query' g'), svc1)).
Proof.
  unfold service_search, bind, retriever_of at 1.
  cbn [fst snd].
  assert (Hlater : forall r svc2, svc_retriever svc2 = Some r ->
            forall w' query' g',
              (let* retriever := retriever_of w' in
               on_globals (retriever_invoke retriever query')) (g', svc2)
              = (fst (retriever_invoke r query' g'),
                 (snd (retriever_invoke r query' g'), svc2))).
  { intros r svc2 Hr w' query' g'. unfold bind, retriever_of, on_globals.
    cbn [fst snd]. rewrite Hr. cbn [fst snd].
    destruct (retriever_invoke r query' g'); reflexivity. }
  destruct (svc_retriever svc) as [r|] eqn:Hr.
  - unfold on_globals. cbn [fst snd].
    destruct (retriever_invoke r query g) as [[d|e] g2]; [|discriminate].
    intros [= _ _ <-]. exists r. split; [exact Hr|].
    split; [discriminate|]. apply Hlater, Hr.
  - destruct (vectorstore_of w (g, svc)) as [[vs|e] [g2 svc2]] eqn:Hv;
      [|discriminate].
    unfold on_globals. cbn [fst snd].
    destruct (retriever_invoke _ query g2) as [[d|e] g3]; [|discriminate].
    intros [= _ _ <-].
    eexists. split; [reflexivity|]. split.
    + intros _. cbn [search_kwargs_k].
      revert Hv. unfold vectorstore_of. cbn [fst snd].
      destruct (svc_vectorstore svc).
      * intros [= _ _ <-]. reflexivity.
      * destruct (SopService.get_vectorstore w g) as [[vs'|e'] g'];
          [|discriminate].
        intros [= _ _ <-]. reflexivity.
    + apply Hlater. reflexivity.
Qed.

Lemma service_keeps_its_retriever_witness :
  exists svc1,
    fst (service_search sample_world "late policy"
           (fresh, mkSOPService (mkConfig "sop_faiss_index" 3) 1 None None))
      = Ok [late_doc] /\
    fst (service_search bad_env_world "walk-in" (fresh, svc1))
      = Ok [late_doc].
Proof.
  destruct (service_keeps_its_retriever sample_world "late policy" fresh
              (mkSOPService (mkConfig "sop_faiss_index" 3) 1 None None)
              [late_doc]
              (mkGlobals (Some sample_store) [("late policy", 1%Z)])
              (mkSOPService (mkConfig "sop_faiss_index" 3) 1
                 (Some sample_store) (Some (mkRetriever sample_store 1)))
              eq_refl) as (r & Hr & _ & Hlater).
  eexists. split; [reflexivity|].
  rewrite Hlater. injection Hr as <-. reflexivity.
Defined.

(** X14.  [is_ready] never raises: it answers [True] when the store is at
    hand or can be loaded and [False] otherwise.  Once it has answered
    [True] the object holds the store, and it answers [True] from then on
    without looking at the disk again. *)
Theorem is_ready_never_raises w g svc :
  exists ready st',
    is_ready w (g, svc) = (Ok ready, st') /\
    (ready = true <-> exists vs, fst (vectorstore_of w (g, svc)) = Ok vs) /\
    (ready = true ->
     forall w' g', is_ready w' (g', snd st') = (Ok true, (g', snd st'))).
Proof.
  unfold is_ready.
  destruct (vectorstore_of w (g, svc)) as [[vs|e] st'] eqn:Hv.
  - exists true, st'. split; [reflexivity|]. split; [split; eauto|].
    intros _ w' g'.
    assert (Hs : svc_vectorstore (snd st') = Some vs).
    { revert Hv. unfold vectorstore_of. cbn [fst snd].
      destruct (svc_vectorstore svc) eqn:Hsv.
      - intros [= <- <-]. exact Hsv.
      - destruct (SopService.get_vectorstore w g) as [[vs'|e'] g1];
          [|discriminate].
        intros [= <- <-]. reflexivity. }
    unfold vectorstore_of. cbn [fst snd]. rewrite Hs. reflexivity.
  - exists false, st'. split; [reflexivity|]. split.
    + split; [discriminate | intros [vs Hvs]; discriminate].
    + discriminate.
Qed.

End ServiceClassProofs.

(** ** The build run beyond the embedding step *)

Module RunProofs.
Import BuildFacts.

(** X15.  [initialize] stops at the first attempt whose test vector is not
    empty: it then returns [True], has made as many attempts as the number
    of that attempt, and keeps the client built by it.  When none of the
    three attempts is of that kind it returns [False] after three
    attempts.  It never raises. *)
Theorem initialize_stops_at_first_success bw s :
  let attempts_made :=
    length (List.filter is_attempt
              (drop (length (events s)) (events (snd (initialize bw s))))) in
  match first_success bw (seq 1 MAX_RETRIES) with
  | Some a =>
      fst (initialize bw s) = Ok true /\ attempts_made = a /\
      embeddings (snd (initialize bw s)) = client_of (init_attempt bw a)
  | None =>
      fst (initialize bw s) = Ok false /\ attempts_made = MAX_RETRIES
  end.
Proof.
  run_init.
  destruct (init_attempt bw 1) as [? | c1 [[|? v1] | ?]] eqn:E1; cbn.
  all: try (destruct (init_attempt bw 2) as [? | c2 [[|? v2] | ?]] eqn:E2;
            cbn).
  all: try (destruct (init_attempt bw 3) as [? | c3 [[|? v3] | ?]] eqn:E3;
            cbn).
  all: rewrite <- ?app_assoc, ?drop_app_length; cbn.
  all: rewrite ?E1, ?E2, ?E3; repeat split.
Qed.

Lemma initialize_all_raise_witness :
  events (snd (initialize (build_world always_raises) initial_state))
  = [InitAttempt 1; Sleep 2; InitAttempt 2; Sleep 2; InitAttempt 3].
Proof.
  apply (initialize_all_raise (build_world always_raises) initial_state).
  intros a _. reflexivity.
Defined.

Lemma run_aborts_when_init_fails_witness :
  List.filter is_save
    (events (snd (run (build_world always_raises) initial_state))) = [] /\
  fst (run (build_world always_raises) initial_state) = Ok false.
Proof.
  destruct (run_aborts_when_init_fails (build_world always_raises)
              initial_state) as (Hsave & _ & Hres).
  - intros a _. reflexivity.
  - split; [exact Hsave|].
    destruct Hres as [Hres | [(e & Hres & _) | (e & ps & Hres & _)]];
      [exact Hres | discriminate | discriminate].
Defined.

Lemma run_tests_loop_state vs k queries st :
  snd (run_tests_loop vs k queries st) = st.
Proof.
  induction queries as [|q rest IH]; [reflexivity|].
  cbn [run_tests_loop]. unfold bind, lift at 1, ret.
  destruct (similarity_search_with_score vs q k); [|reflexivity].
  destruct (run_tests_loop vs k rest st) as [[r|e] st'] eqn:E;
    cbn in IH; subst; reflexivity.
Qed.

Lemma run_tests_state bw vs st : snd (run_tests bw vs st) = st.
Proof.
  destruct vs as [store|]; [apply run_tests_loop_state | reflexivity].
Qed.

(** X17.  A run that returns [True] has gone through every step: no
    required variable was missing, the embeddings were initialised, the
    index was built and written to disk exactly once, after the embedding
    step and before anything else was written, its files were found, and
    the manifest was written last. *)
Theorem run_success_shape bw s :
  fst (run bw s) = Ok true ->
  missing_vars bw = [] /\
  fst (initialize bw s) = Ok true /\
  save_local bw = Ok tt /\
  index_files_exist bw = true /\
  is_Some (vectorstore (snd (run bw s))) /\
  exists init_events,
    events (snd (initialize bw s)) = events s ++ init_events /\
    List.filter is_save init_events = [] /\
    events (snd (run bw s))
      = events s ++ init_events ++ [SaveLocal; WriteIndexInfo].
Proof.
  destruct (initialize_events bw s) as (new & Hev & _ & Hsave & _ & _).
  unfold run, bind, lift, ret.
  destruct (missing_vars bw) as [|v vs]; [|discriminate]. cbn [length negb].
  change (negb (0 =? 0)%nat) with false. cbv iota.
  destruct (find_documents bw) as [[|p ps]|e]; [discriminate| |discriminate].
  destruct (load bw (p :: ps)) as [|d ds]; [discriminate|].
  destruct (split_documents bw (d :: ds)) as [chunks|e]; [|discriminate].
  destruct (initialize bw s) as [[[|]|e] s1] eqn:Hinit;
    [|discriminate|discriminate].
  cbn [fst snd negb] in *. unfold get_embeddings, create.
  destruct (from_documents bw _ (embeddings s1)) as [vs|e]; [|discriminate].
  unfold set_vectorstore, save, Indexer.get_vectorstore, emit, validate,
    bind, ret.
  cbn [negb vectorstore embeddings events fst snd].
  destruct (save_local bw) as [[]|e]; [|discriminate].
  cbn [negb vectorstore embeddings events fst snd].
  destruct (index_files_exist bw); [|discriminate].
  cbn [negb vectorstore embeddings events fst snd].
  match goal with
  | |- context [run_tests bw (Some vs) ?st] =>
      pose proof (run_tests_state bw (Some vs) st) as Hst;
      destruct (run_tests bw (Some vs) st) as [[results|e] st'];
      [|discriminate]
  end.
  cbn [snd] in Hst. subst st'.
  unfold generate, lift, ret.
  destruct (enrich (clock bw) chunks) as [|c cs]; [discriminate|].
  unfold save_info, bind, emit, ret. cbn [vectorstore embeddings events].
  destruct (write_index_info bw) as [[]|e]; cbn [fst snd vectorstore events].
  all: intros _; repeat split; eauto.
  all: exists new; split; [exact Hev|]; split; [exact Hsave|].
  all: rewrite Hev, <- !app_assoc; reflexivity.
Qed.

Lemma run_success_shape_witness :
  events (snd (run (build_world raises_then_ok) initial_state))
  = [InitAttempt 1; Sleep 2; InitAttempt 2] ++ [SaveLocal; WriteIndexInfo].
Proof.
  destruct (run_success_shape (build_world raises_then_ok) initial_state
              eq_refl)
    as (_ & _ & _ & _ & _ & init_events & Hinit & _ & Hrun).
  rewrite Hrun. cbn in Hinit. rewrite <- Hinit. reflexivity.
Defined.

End RunProofs.

Module RunEdges.
Import BuildFacts.

Lemma bind_ext {S A B} (m : M S A) (k1 k2 : A -> M S B) s :
  (forall a s', k1 a s' = k2 a s') -> bind m k1 s = bind m k2 s.
Proof.
  intros H. unfold bind. destruct (m s) as [[a|e] s']; [apply H|reflexivity].
Qed.

Lemma save_info_then_true bw outcome s :
  (let* _ := save_info (with_write_index_info bw outcome) in ret true) s
  = (let* _ := save_info bw in ret true) s.
Proof.
  unfold save_info, bind, emit, ret. cbn.
  destruct outcome, (write_index_info bw); reflexivity.
Qed.

(** X18.  Whether the manifest can be written has no bearing on a run: its
    result and the steps it takes are the same when the write of
    [index_info.json] fails as when it succeeds. *)
Theorem run_ignores_manifest_failure bw outcome s :
  run (with_write_index_info bw outcome) s = run bw s.
Proof.
  unfold run.
  change (missing_vars (with_write_index_info bw outcome))
    with (missing_vars bw).
  change (find_documents (with_write_index_info bw outcome))
    with (find_documents bw).
  destruct (negb (length (missing_vars bw) =? 0)%nat); [reflexivity|].
  apply bind_ext; intros [|p ps] s0; [reflexivity|].
  change (load (with_write_index_info bw outcome) (p :: ps))
    with (load bw (p :: ps)).
  destruct (load bw (p :: ps)) as [|d ds]; [reflexivity|].
  change (split_documents (with_write_index_info bw outcome))
    with (split_documents bw).
  change (clock (with_write_index_info bw outcome)) with (clock bw).
  apply bind_ext; intros chunks s1.
  change (initialize (with_write_index_info bw outcome))
    with (initialize bw).
  apply bind_ext; intros initialized s2.
  destruct (negb initialized); [reflexivity|].
  apply bind_ext; intros emb s3.
  change (create (with_write_index_info bw outcome)) with (create bw).
  apply bind_ext; intros created s4.
  destruct (negb created); [reflexivity|].
  change (save (with_write_index_info bw outcome)) with (save bw).
  apply bind_ext; intros saved s5.
  destruct (negb saved); [reflexivity|].
  change (validate (with_write_index_info bw outcome)) with (validate bw).
  apply bind_ext; intros valid s6.
  destruct (negb valid); [reflexivity|].
  apply bind_ext; intros vs s7.
  change (run_tests (with_write_index_info bw outcome)) with (run_tests bw).
  apply bind_ext; intros results s8.
  apply bind_ext; intros u s9.
  apply save_info_then_true.
Qed.

(** X19.  A run that misses a required variable, or whose document
    discovery returns no document, or none that can be loaded, returns
    [False] at once: no embedding attempt is made, nothing is written and
    the state it started from is left as it was. *)
Theorem run_stops_before_any_effect bw s :
  missing_vars bw <> [] \/
  (exists doc_paths,
     find_documents bw = Ok doc_paths /\ load bw doc_paths = []) ->
  run bw s = (Ok false, s).
Proof.
  intros H. unfold run.
  destruct (missing_vars bw) as [|v vs] eqn:Hm; [|reflexivity].
  destruct H as [H|(doc_paths & Hf & H)]; [congruence|].
  cbn [length negb]. change (negb (0 =? 0)%nat) with false. cbv iota.
  unfold bind, lift. rewrite Hf.
  destruct doc_paths as [|p ps]; [reflexivity|].
  rewrite H. reflexivity.
Qed.

Lemma run_stops_before_any_effect_witness :
  run no_files_world initial_state = (Ok false, initial_state).
Proof.
  apply (run_stops_before_any_effect no_files_world initial_state).
  right. exists []. split; reflexivity.
Defined.

(** X20.  The loader skips a document that cannot be read and keeps going:
    every section it returns comes from a document that loaded, carries
    that document's name as ["source"] and its path as ["source_path"]
    (replacing what the section said before), and has its text unchanged;
    the other metadata of the section are kept.  When no document loads
    the result is empty. *)
Theorem load_tags_and_skips bw doc_paths :
  (forall doc, In doc (load bw doc_paths) ->
     exists doc_path sections original,
       In doc_path doc_paths /\
       docx_load bw doc_path = Ok sections /\
       In original sections /\
       page_content doc = page_content original /\
       metadata doc !! "source" = Some (MStr (path_name doc_path)) /\
       metadata doc !! "source_path" = Some (MStr (path_str doc_path)) /\
       forall key, key <> "source" -> key <> "source_path" ->
                   metadata doc !! key = metadata original !! key) /\
  length (load bw doc_paths)
    = list_sum (map (fun p => match docx_load bw p with
                              | Ok sections => length sections
                              | Raise _ => 0
                              end) doc_paths) /\
  ((forall p, In p doc_paths -> exists e, docx_load bw p = Raise e) ->
   load bw doc_paths = []).
Proof.
  unfold load. split; [|split].
  - intros doc Hdoc. apply in_flat_map in Hdoc as (p & Hp & Hin).
    destruct (docx_load bw p) as [sections|e] eqn:Hl; [|destruct Hin].
    apply in_map_iff in Hin as (original & <- & Horig).
    exists p, sections, original. repeat split; try assumption.
    + cbn. rewrite lookup_insert_ne by discriminate.
      apply lookup_insert_eq.
    + cbn. apply lookup_insert_eq.
    + intros key H1 H2. cbn.
      rewrite !lookup_insert_ne by congruence. reflexivity.
  - induction doc_paths as [|p ps IH]; [reflexivity|].
    cbn. rewrite length_app, IH.
    destruct (docx_load bw p); [rewrite length_map|]; reflexivity.
  - intros Hall. induction doc_paths as [|p ps IH]; [reflexivity|].
    cbn. destruct (Hall p (or_introl eq_refl)) as [e ->]. cbn.
    apply IH. intros q Hq. apply Hall. right. exact Hq.
Qed.

Lemma load_tags_and_skips_witness :
  load two_files_world [sop_path; broken_path]
  = [ mkDocument (page_content sop_text)
        (<["source_path" := MStr "/srv/data/sop.docx"]>
           (<["source" := MStr "sop.docx"]> ∅)) ] /\
  load two_files_world [broken_path] = [].
Proof.
  split; [reflexivity|].
  apply (proj2 (proj2 (load_tags_and_skips two_files_world [broken_path]))).
  intros p [<- | []]. eexists. reflexivity.
Defined.

End RunEdges.

(** ** Enriched chunks and the manifest *)

Module ManifestProofs.
Import PyFacts EnricherFacts EnricherProofs EnricherIds.

Lemma position_of_by_count i n :
  0 < n ->
  position_of i n
  = if (5 * i <? n)%nat then "beginning"
    else if (4 * n <? 5 * i)%nat then "end" else "middle".
Proof.
  intros Hn. unfold position_of.
  pose proof (position_pct_lt_20 i n Hn) as Hb.
  pose proof (position_pct_gt_80 i n Hn) as He.
  destruct (Qlt_bool (position_pct i n) 20) eqn:Eb.
  - assert (5 * i < n) as H by (apply Hb; reflexivity).
    destruct (Nat.ltb_spec (5 * i) n); [reflexivity | lia].
  - destruct (Nat.ltb_spec (5 * i) n) as [H|H].
    { apply Hb in H. discriminate. }
    destruct (Qlt_bool 80 (position_pct i n)) eqn:Ee.
    + assert (4 * n < 5 * i) as H' by (apply He; reflexivity).
      destruct (Nat.ltb_spec (4 * n) (5 * i)); [reflexivity | lia].
    + destruct (Nat.ltb_spec (4 * n) (5 * i)) as [H'|H']; [|reflexivity].
      apply He in H'. discriminate.
Qed.

(** X21.  Along the chunk sequence the position labels never go back:
    the chunks labelled ["beginning"] come first, then those labelled
    ["middle"], then those labelled ["end"].  The first chunk is always a
    ["beginning"] chunk, and a build of five chunks or fewer has no
    ["end"] chunk at all. *)
Theorem positions_are_ordered now chunks :
  let enriched := enrich now chunks in
  (forall i j ei ej, i <= j ->
     enriched !! i = Some ei -> enriched !! j = Some ej ->
     exists pi pj,
       metadata ei !! "position" = Some (MStr pi) /\
       metadata ej !! "position" = Some (MStr pj) /\
       position_rank pi <= position_rank pj) /\
  (forall e, enriched !! 0 = Some e ->
             metadata e !! "position" = Some (MStr "beginning")) /\
  (length chunks <= 5 ->
   forall i e, enriched !! i = Some e ->
               metadata e !! "position" <> Some (MStr "end")).
Proof.
  cbn zeta.
  assert (Hpos : forall i e, enrich now chunks !! i = Some e ->
            i < length chunks /\
            metadata e !! "position"
            = Some (MStr (position_of i (length chunks)))).
  { intros i e (c & Hc & ->)%enrich_lookup_inv.
    split; [eapply lookup_lt_Some, Hc | reflexivity]. }
  split; [|split].
  - intros i j ei ej Hij Hi Hj.
    destruct (Hpos i ei Hi) as [Hilt ->]. destruct (Hpos j ej Hj) as [Hjlt ->].
    eexists _, _. split; [reflexivity|]. split; [reflexivity|].
    rewrite !position_of_by_count by lia.
    destruct (Nat.ltb_spec (5 * i) (length chunks));
      destruct (Nat.ltb_spec (5 * j) (length chunks));
      destruct (Nat.ltb_spec (4 * length chunks) (5 * i));
      destruct (Nat.ltb_spec (4 * length chunks) (5 * j));
      cbn; lia.
  - intros e He. destruct (Hpos 0 e He) as [Hlt ->].
    rewrite position_of_by_count by lia.
    destruct (Nat.ltb_spec (5 * 0) (length chunks)); [reflexivity | lia].
  - intros Hn i e He. destruct (Hpos i e He) as [Hlt ->].
    rewrite position_of_by_count by lia.
    destruct (Nat.ltb_spec (5 * i) (length chunks)); [discriminate|].
    destruct (Nat.ltb_spec (4 * length chunks) (5 * i)); [lia|discriminate].
Qed.

(** X22.  An enriched chunk carries exactly the eight entries [enrich]
    writes: of the metadata of the chunk it was made from only ["source"]
    survives (["unknown"] when absent), so the ["source_path"] set by the
    loader is dropped; the text is kept as it is. *)
Theorem enrich_rewrites_metadata now chunks i e :
  enrich now chunks !! i = Some e ->
  exists chunk,
    chunks !! i = Some chunk /\
    page_content e = page_content chunk /\
    dom (metadata e) = ENRICHED_KEYS /\
    metadata e !! "source" = Some (chunk_source chunk) /\
    metadata e !! "source_path" = None /\
    metadata e !! "total_chunks"
      = Some (MInt (Z.of_nat (length chunks))).
Proof.
  intros (chunk & Hc & ->)%enrich_lookup_inv.
  exists chunk. split; [exact Hc|]. split; [reflexivity|].
  split; [|repeat split].
  unfold enrich_chunk, ENRICHED_KEYS. cbn [metadata list_to_map foldr fst snd
                                          uncurry].
  rewrite !dom_insert_L, dom_empty_L. set_solver.
Qed.

Lemma enrich_rewrites_metadata_witness :
  exists e,
    enrich sample_clock
      [mkDocument "Greet the caller."
         (<["source_path" := MStr "/srv/data/sop.docx"]>
            (<["source" := MStr "sop.docx"]> ∅))] !! 0 = Some e /\
    metadata e !! "source" = Some (MStr "sop.docx") /\
    metadata e !! "source_path" = None.
Proof.
  eexists. split; [reflexivity|].
  destruct (enrich_rewrites_metadata sample_clock
              [mkDocument "Greet the caller."
                 (<["source_path" := MStr "/srv/data/sop.docx"]>
                    (<["source" := MStr "sop.docx"]> ∅))] 0 _ eq_refl)
    as (chunk & Hc & _ & _ & Hs & Hp & _).
  injection Hc as <-. split; [exact Hs | exact Hp].
Defined.

Lemma foldl_count_source chunks : forall source_dist source,
  foldl count_source source_dist chunks !! source
  = match chunks_of_source source chunks with
    | 0 => source_dist !! source
    | S k => Some (default 0 (source_dist !! source) + S k)
    end.
Proof.
  induction chunks as [|c rest IH]; intros d source; [reflexivity|].
  cbn [foldl]. rewrite IH. unfold chunks_of_source. cbn [List.filter].
  unfold count_source.
  destruct (decide (chunk_source c = source)) as [->|Hne].
  - rewrite bool_decide_eq_true_2 by reflexivity. cbn [length].
    rewrite lookup_insert_eq.
    destruct (length _); cbn [default]; unfold id; f_equal; lia.
  - rewrite bool_decide_eq_false_2 by exact Hne.
    rewrite lookup_insert_ne by exact Hne. reflexivity.
Qed.

Lemma total_insert (source_dist : gmap MetaValue nat) source n :
  map_fold (fun _ n total => n + total) 0 (<[source := n]> source_dist)
  + default 0 (source_dist !! source)
  = map_fold (fun _ n total => n + total) 0 source_dist + n.
Proof.
  assert (Hfresh : forall (d : gmap MetaValue nat) v,
            d !! source = None ->
            map_fold (fun _ n total => n + total) 0 (<[source := v]> d)
            = v + map_fold (fun _ n total => n + total) 0 d).
  { intros d v Hd. apply (map_fold_insert_L (fun _ n total => n + total));
      [intros; lia | exact Hd]. }
  destruct (source_dist !! source) as [v|] eqn:Hv; cbn [default]; unfold id.
  - rewrite <- (insert_delete_id source_dist source v Hv) at 2.
    rewrite <- insert_delete_eq.
    rewrite !Hfresh by apply lookup_delete_eq. lia.
  - rewrite Hfresh by exact Hv. lia.
Qed.

Lemma total_foldl_count_source chunks : forall source_dist,
  map_fold (fun _ n total => n + total) 0 (foldl count_source source_dist chunks)
  = map_fold (fun _ n total => n + total) 0 source_dist + length chunks.
Proof.
  induction chunks as [|c rest IH]; intros d; cbn [foldl length]; [lia|].
  rewrite IH. unfold count_source.
  pose proof (total_insert d (chunk_source c)
                (default 0 (d !! chunk_source c) + 1)). lia.
Qed.

(** X23.  The source distribution of the manifest counts every chunk once
    under its source: a source is listed exactly when a chunk carries it,
    with the number of chunks that do (chunks with no ["source"] entry
    under ["unknown"]); the listed counts add up to the number of chunks;
    and the ["chunks"] figure of a document is the number of chunks whose
    source is the document's file name, [0] when there is none. *)
Theorem source_distribution_counts chunks :
  (forall source,
     source_distribution chunks !! source
     = match chunks_of_source source chunks with
       | 0 => None
       | n => Some n
       end) /\
  map_fold (fun _ n total => n + total) 0 (source_distribution chunks)
  = length chunks /\
  (forall p,
     source_entry (source_distribution chunks) p
     = (path_name p, path_str p,
        chunks_of_source (MStr (path_name p)) chunks)).
Proof.
  assert (Hlook : forall source,
     source_distribution chunks !! source
     = match chunks_of_source source chunks with
       | 0 => None
       | n => Some n
       end).
  { intros source. unfold source_distribution. rewrite foldl_count_source.
    rewrite lookup_empty. destruct (chunks_of_source source chunks);
      reflexivity. }
  split; [exact Hlook|]. split.
  - unfold source_distribution. rewrite total_foldl_count_source.
    rewrite map_fold_empty. reflexivity.
  - intros p. unfold source_entry. rewrite Hlook.
    destruct (chunks_of_source (MStr (path_name p)) chunks); reflexivity.
Qed.

Lemma meta_ints_enriched key (f : Document -> Z) now total chunks :
  (forall i c, meta_int key (enrich_chunk now total i c) = Some (f c)) ->
  forall start,
    meta_ints key
      (map (fun '(i, chunk) => enrich_chunk now total i chunk)
           (enumerate start chunks))
    = Some (map f chunks).
Proof.
  intros Hf. induction chunks as [|c rest IH]; intros start; [reflexivity|].
  cbn [enumerate map meta_ints]. rewrite Hf, IH. reflexivity.
Qed.

Lemma enriched_has_chunk_keys now total chunks : forall start,
  forallb has_chunk_keys
    (map (fun '(i, chunk) => enrich_chunk now total i chunk)
         (enumerate start chunks)) = true.
Proof.
  induction chunks as [|c rest IH]; intros start; [reflexivity|].
  cbn [enumerate map forallb]. rewrite IH, andb_true_r. reflexivity.
Qed.

(** X24.  Run on the chunks [enrich] returns, as [SOPIndexer.run] does,
    the statistics of the manifest are defined as soon as there is a
    chunk: the chunk total is the number of chunks, the character total
    is the sum of the lengths of their texts and the word total the sum
    of their white-space separated word counts.  With no chunk at all, or
    with a chunk that was not enriched (no ["char_count"] entry), there
    are no statistics: [generate] raises. *)
Theorem statistics_of_enriched now chunks doc_paths :
  (chunks <> [] ->
   statistics (enrich now chunks) doc_paths
   = Some (mkStatistics
             (length doc_paths) (length chunks)
             (sum_Z (map (fun c => Z.of_nat (String.length (page_content c)))
                         chunks))
             (sum_Z (map (fun c => Z.of_nat (split_len (page_content c)))
                         chunks)))) /\
  statistics [] doc_paths = None /\
  (forall c rest,
     metadata c !! "char_count" = None ->
     statistics (c :: rest) doc_paths = None).
Proof.
  split; [|split].
  - intros Hne. unfold statistics, enrich.
    rewrite (meta_ints_enriched "char_count"
               (fun c => Z.of_nat (String.length (page_content c))))
      by reflexivity.
    rewrite (meta_ints_enriched "word_count"
               (fun c => Z.of_nat (split_len (page_content c))))
      by reflexivity.
    rewrite enriched_has_chunk_keys.
    destruct chunks as [|c rest]; [congruence|].
    cbn [enumerate map length]. rewrite length_map, enumerate_length.
    reflexivity.
  - reflexivity.
  - intros c rest Hc. unfold statistics. cbn [meta_ints]. unfold meta_int.
    rewrite Hc. reflexivity.
Qed.

Lemma replace_newlines_length s :
  String.length (replace_newlines s) = String.length s.
Proof. induction s as [|c s IH]; cbn; [reflexivity | now rewrite IH]. Qed.

Lemma substring_0_length n : forall s,
  String.length (String.substring 0 n s) = Nat.min n (String.length s).
Proof.
  induction n as [|n IH]; intros [|c s]; cbn; try reflexivity.
  now rewrite IH.
Qed.

Lemma append_length s t :
  String.length (s +:+ t) = String.length s + String.length t.
Proof.
  induction s as [|c s IH]; [reflexivity|].
  rewrite append_String. cbn [String.length]. now rewrite IH.
Qed.

Lemma one_line_append s t :
  one_line (s +:+ t) = one_line s && one_line t.
Proof.
  induction s as [|c s IH]; [reflexivity|].
  rewrite append_String. cbn [one_line]. rewrite IH. apply andb_assoc.
Qed.

Lemma one_line_replace_newlines s : one_line (replace_newlines s) = true.
Proof.
  induction s as [|c s IH]; cbn; [reflexivity|].
  rewrite IH, andb_true_r.
  destruct (Ascii.eqb c (ascii_of_nat 10)) eqn:E; [reflexivity|].
  rewrite E. reflexivity.
Qed.

(** X25.  The preview the manifest keeps of a chunk is a single line of at
    most 83 characters: the first 80 characters of the text (all of it
    when shorter) and three dots, with no line feed left. *)
Theorem preview_is_one_short_line content :
  String.length (preview content)
  = Nat.min 80 (String.length content) + 3 /\
  one_line (preview content) = true.
Proof.
  unfold preview. split.
  - rewrite append_length, replace_newlines_length, substring_0_length.
    reflexivity.
  - rewrite one_line_append, one_line_replace_newlines. reflexivity.
Qed.

End ManifestProofs.

(** ** The session registry of the server *)

Module ServerProofs.
Import ReducerFacts GraphFacts LoopFacts GraphProofs.

Lemma chat_endpoint_answer w data sessions session_id :
  request_target data = Some session_id ->
  chat_endpoint w data sessions
  = let turn :=
      run_agent_with_history w (request_message data)
        (Some (default [] (sessions !! session_id))) None in
    (ChatAnswer (request_message data) (fst turn) session_id
                (length (snd turn)),
     <[session_id := snd turn]> sessions).
Proof.
  unfold request_target, chat_endpoint, get_or_create_session.
  destruct (String.eqb (request_message data) ""); [discriminate|].
  intros [= <-]. cbn zeta.
  destruct (sessions !! request_session data) as [history|] eqn:Hs;
    cbn [default];
    destruct (run_agent_with_history w _ _ None) as [reply updated];
    cbn [fst snd]; [reflexivity|].
  rewrite insert_insert_eq. reflexivity.
Qed.

(** X26.  A chat request acts on one session only.  Without a message it
    is refused and the registry is left as it was, no session being
    created.  With a message the turn is run on the history stored for the
    session of the request (the empty one for a session not seen before,
    ["default"] when the request names none), the history the turn returns
    is what the registry holds for that session afterwards, the
    ["history_length"] of the answer is its length, and every other
    session is untouched. *)
Theorem chat_endpoint_updates_one_session w data sessions :
  match request_target data with
  | None =>
      chat_endpoint w data sessions
      = (ChatError "No message provided", sessions)
  | Some session_id =>
      let history := default [] (sessions !! session_id) in
      let turn :=
        run_agent_with_history w (request_message data) (Some history) None in
      fst (chat_endpoint w data sessions)
      = ChatAnswer (request_message data) (fst turn) session_id
                   (length (snd turn)) /\
      snd (chat_endpoint w data sessions) !! session_id = Some (snd turn) /\
      forall other,
        other <> session_id ->
        snd (chat_endpoint w data sessions) !! other = sessions !! other
  end.
Proof.
  destruct (request_target data) as [session_id|] eqn:Ht.
  - rewrite (chat_endpoint_answer w data sessions session_id Ht).
    cbn zeta. cbn [fst snd]. split; [reflexivity|]. split.
    + apply lookup_insert_eq.
    + intros other Hne. apply lookup_insert_ne. congruence.
  - unfold request_target in Ht. unfold chat_endpoint.
    destruct (String.eqb (request_message data) ""); [reflexivity|discriminate].
Qed.

(** X27.  Chat requests never lose or rewrite what a session holds: when
    no stored history contains a system message, which is so for the empty
    registry and for a brand-new session, the same is true after any chat
    request, and what is stored for a session afterwards starts with the
    messages stored for it before: with all of them, in their order, when
    no two have one id, and with the very same list when each has an id
    of its own, as the histories the agent returns have.  Ids that are
    distinct stay distinct. *)
Theorem sessions_only_grow w data sessions :
  sessions_clean sessions ->
  let after := snd (chat_endpoint w data sessions) in
  sessions_clean after /\
  (forall session_id history,
     sessions !! session_id = Some history ->
     exists kept added,
       after !! session_id = Some (kept ++ added) /\
       Forall (fun m => exists m0, m0 ∈ history /\ keeps m0 m) kept /\
       (distinct_ids history -> Forall2 keeps history kept) /\
       (identified history -> kept = history)) /\
  ((forall session_id history,
      sessions !! session_id = Some history -> distinct_ids history) ->
   forall session_id history,
     after !! session_id = Some history -> distinct_ids history).
Proof.
  intros Hclean. cbn zeta.
  assert (Hsame : forall history : list Message,
            exists kept added,
              Some history = Some (kept ++ added) /\
              Forall (fun m => exists m0, m0 ∈ history /\ keeps m0 m) kept /\
              (distinct_ids history -> Forall2 keeps history kept) /\
              (identified history -> kept = history)).
  { intros history. exists history, []. rewrite app_nil_r.
    split; [reflexivity|]. split; [|split; auto using Forall2_keeps_refl].
    apply Forall_forall. intros m Hm. exists m.
    split; [exact Hm | apply keeps_refl]. }
  destruct (request_target data) as [target|] eqn:Ht.
  - rewrite (chat_endpoint_answer w data sessions target Ht).
    cbn zeta. cbn [snd].
    assert (Hold : Forall (fun m => non_system m = true)
                     (default [] (sessions !! target))).
    { destruct (sessions !! target) as [h|] eqn:Hs; cbn [default];
        [exact (Hclean _ _ Hs) | constructor]. }
    destruct (turn_extends_history w (request_message data) _ Hold)
      as (kept & added & Hrun & Hfrom & Hk & Hns & Hd).
    rewrite Hrun. split; [|split].
    + intros session_id history.
      destruct (decide (session_id = target)) as [->|Hne].
      * rewrite lookup_insert_eq. intros [= <-]. exact Hns.
      * rewrite lookup_insert_ne by congruence. apply Hclean.
    + intros session_id history Hs.
      destruct (decide (session_id = target)) as [->|Hne].
      * rewrite lookup_insert_eq. rewrite Hs in *. cbn [default] in *.
        exists kept, added. split; [reflexivity|]. split; [exact Hfrom|].
        split; [exact Hk|]. intros Hid.
        apply Forall2_keeps_identified; [apply Hid | apply Hk, Hid].
      * rewrite lookup_insert_ne by congruence. rewrite Hs. apply Hsame.
    + intros Hall session_id history.
      destruct (decide (session_id = target)) as [->|Hne].
      * rewrite lookup_insert_eq. intros [= <-]. apply Hd.
        destruct (sessions !! target) as [h|] eqn:Hs; cbn [default];
          [exact (Hall _ _ Hs) | constructor].
      * rewrite lookup_insert_ne by congruence. apply Hall.
  - unfold request_target in Ht. unfold chat_endpoint.
    destruct (String.eqb (request_message data) ""); [|discriminate].
    cbn [snd]. split; [exact Hclean|]. split; [|auto].
    intros session_id history Hs. rewrite Hs. apply Hsame.
Qed.

Lemma one_session_clean : sessions_clean one_session.
Proof.
  intros session_id history Hs. unfold one_session in Hs.
  apply lookup_singleton_Some in Hs as [_ <-]. repeat constructor.
Defined.

Lemma sessions_only_grow_witness :
  sessions_clean (snd (chat_endpoint helpful_world chat_request one_session)) /\
  forall session_id history,
    one_session !! session_id = Some history ->
    exists kept added,
      snd (chat_endpoint helpful_world chat_request one_session) !! session_id
      = Some (kept ++ added) /\
      (identified history -> kept = history).
Proof.
  destruct (sessions_only_grow helpful_world chat_request one_session
              one_session_clean) as (Hclean & Hgrow & _).
  split; [exact Hclean|]. intros session_id history Hs.
  destruct (Hgrow session_id history Hs) as (kept & added & Heq & _ & _ & Hid).
  exists kept, added. split; [exact Heq | exact Hid].
Defined.

(** X28.  The voice endpoint is the chat endpoint followed by speech
    synthesis: both leave the registry in the same state, so a turn whose
    synthesis fails is recorded all the same, and the voice answer carries
    the text and the history length of the chat answer, with the encoded
    audio when synthesis succeeds and with the text of the exception and
    no history length when it raises. *)
Theorem voice_endpoint_matches_chat w speech data sessions :
  snd (voice_response_endpoint w speech data sessions)
  = snd (chat_endpoint w data sessions) /\
  fst (voice_response_endpoint w speech data sessions)
  = match fst (chat_endpoint w data sessions) with
    | ChatError error_text => VoiceError error_text
    | ChatAnswer _ reply session_id history_length =>
        match synthesize speech reply with
        | Ok audio_bytes =>
            VoiceAnswer reply (b64encode speech audio_bytes) "mp3"
                        session_id history_length
        | Raise e => VoiceTextOnly reply (exn_str e) session_id
        end
    end.
Proof.
  unfold voice_response_endpoint, chat_endpoint.
  destruct (String.eqb (request_message data) ""); [split; reflexivity|].
  destruct (get_or_create_session _ sessions) as [history sessions1].
  destruct (run_agent_with_history w _ _ None) as [reply updated].
  cbn [fst snd]. destruct (synthesize speech reply); split; reflexivity.
Qed.

(** X29.  Clearing forgets one session and nothing else: afterwards the
    session of the request is absent from the registry, every other
    session is as before, and the next chat request for the cleared
    session is answered as the first turn of a conversation, on an empty
    history. *)
Theorem clear_session_forgets_one_session w data sessions :
  let session_id := request_session data in
  let cleared := snd (clear_session_endpoint data sessions) in
  fst (clear_session_endpoint data sessions) = session_id /\
  cleared !! session_id = None /\
  (forall other, other <> session_id -> cleared !! other = sessions !! other) /\
  (request_message data <> "" ->
   chat_endpoint w data cleared
   = let turn :=
       run_agent_with_history w (request_message data) (Some []) None in
     (ChatAnswer (request_message data) (fst turn) session_id
                 (length (snd turn)),
      <[session_id := snd turn]> cleared)).
Proof.
  cbn zeta. unfold clear_session_endpoint. cbn [fst snd].
  assert (Hgone : clear_session (request_session data) sessions
                  !! request_session data = None).
  { unfold clear_session.
    destruct (sessions !! request_session data) eqn:Hs;
      [apply lookup_delete_eq | exact Hs]. }
  split; [reflexivity|]. split; [exact Hgone|]. split.
  - intros other Hne. unfold clear_session.
    destruct (sessions !! request_session data); [|reflexivity].
    apply lookup_delete_ne. congruence.
  - intros Hmsg.
    rewrite (chat_endpoint_answer w data _ (request_session data)).
    + rewrite Hgone. reflexivity.
    + unfold request_target.
      destruct (String.eqb_spec (request_message data) ""); [contradiction|].
      reflexivity.
Qed.

End ServerProofs.
